(** * gmapsdatalib: a shallow embedding of [gmapsdatalib.py]

    The module builds a grid of coordinates, polls a places service for
    every grid point, stores the identifiers it receives, and fetches and
    pickles one record per identifier.  The embedding follows the Python
    source function by function:

    - Python exceptions are values of [exn]; a call either returns or raises
      ([result]);
    - Python floats are IEEE 754 binary64 numbers, written with the
      executable specification of the Standard Library ([spec_float]);
    - the constructor of geopy's [Point], which [gridMaker] calls on its
      three corners, is embedded with its checks and its normalisation; the
      geodesic distance and [pickle] are functions of their libraries, taken
      as parameters;
    - texts are strings of ASCII characters where the module splits them;
    - the file system and the remote service form the [World] that every
      effectful function threads through. *)

From Stdlib Require Import ZArith List String Ascii Bool Lia DecimalString.
From Stdlib Require Import Floats.SpecFloat.
From stdpp Require Import gmap strings list fin_maps.

Import ListNotations.
Local Open Scope string_scope.
Local Open Scope list_scope.
Local Open Scope Z_scope.

(** ** Exceptions and results *)

(** The exception classes the module can raise: its own [RequestError]
    and the built-in ones that its operations raise. *)
Inductive exn : Type :=
| RequestError (message : string)
| KeyError (key : string)
| IndexError
| ZeroDivisionError
| OverflowError
| ValueError
| JSONDecodeError
| FileNotFoundError (path : string)
| UnpicklingError.

(** The name of the class of an exception, as [type(e).__name__] gives it. *)
Definition exn_class (e : exn) : string :=
  match e with
  | RequestError _ => "RequestError"
  | KeyError _ => "KeyError"
  | IndexError => "IndexError"
  | ZeroDivisionError => "ZeroDivisionError"
  | OverflowError => "OverflowError"
  | ValueError => "ValueError"
  | JSONDecodeError => "JSONDecodeError"
  | FileNotFoundError _ => "FileNotFoundError"
  | UnpicklingError => "UnpicklingError"
  end.

(** [RequestError.__str__] *)
Definition exn_str (e : exn) : string :=
  match e with
  | RequestError message => "RequestError: " +:+ message
  | _ => exn_class e
  end.

Inductive result (A : Type) : Type :=
| Ok (a : A)
| Raise (e : exn).

Arguments Ok {A} a.
Arguments Raise {A} e.

Definition rbind {A B} (r : result A) (k : A -> result B) : result B :=
  match r with
  | Ok a => k a
  | Raise e => Raise e
  end.

Declare Scope py_scope.
Delimit Scope py_scope with py.
Notation "x <- c ;; k" := (rbind c (fun x => k))
  (at level 100, c at next level, right associativity) : py_scope.

(** ** Python floats *)

Module PyFloat.

Definition prec : Z := 53.
Definition emax : Z := 1024.

Abbreviation float := spec_float.

Definition fadd : float -> float -> float := SFadd prec emax.
Definition fsub : float -> float -> float := SFsub prec emax.
Definition fmul : float -> float -> float := SFmul prec emax.

(** [x == y] on floats. *)
Definition feqb : float -> float -> bool := SFeqb.

(** [float(n)] for an integer that fits. *)
Definition of_Z (n : Z) : float := binary_normalize prec emax n 0 false.

Definition is_zero (x : float) : bool :=
  match x with
  | S754_zero _ => true
  | _ => false
  end.

Definition is_nan (x : float) : bool :=
  match x with
  | S754_nan => true
  | _ => false
  end.

(** Neither an infinity nor a NaN. *)
Definition is_finite (x : float) : bool :=
  match x with
  | S754_zero _ | S754_finite _ _ _ => true
  | _ => false
  end.

(** [x / y] on floats: a zero divisor raises, everything else is the
    IEEE quotient (an overflow gives an infinity, without an error). *)
Definition truediv (x y : float) : result float :=
  if is_zero y then Raise ZeroDivisionError
  else Ok (SFdiv prec emax x y).

(** [a / b] on integers: the correctly rounded quotient. *)
Definition int_truediv (a b : Z) : result float :=
  match b with
  | Z0 => Raise ZeroDivisionError
  | _ =>
    let negate := xorb (a <? 0) (b <? 0) in
    match a with
    | Z0 => Ok (S754_zero negate)
    | _ =>
      let '(mz, ez, lz) := SFdiv_core_binary prec emax (Z.abs a) 0 (Z.abs b) 0 in
      match binary_round_aux prec emax negate mz ez lz with
      | S754_infinity _ => Raise OverflowError
      | q => Ok q
      end
    end
  end.

(** [int(x)]: truncation toward zero. *)
Definition to_int (x : float) : result Z :=
  match x with
  | S754_zero _ => Ok 0
  | S754_infinity _ => Raise OverflowError
  | S754_nan => Raise ValueError
  | S754_finite s m e =>
    let magnitude :=
      match e with
      | Zneg p => Z.shiftr (Zpos m) (Zpos p)
      | _ => Z.shiftl (Zpos m) e
      end in
    Ok (if s then - magnitude else magnitude)
  end.

End PyFloat.

(** [range(n)] *)
Definition range (n : Z) : list Z := map Z.of_nat (seq 0 (Z.to_nat n)).

(** ** The grid builder *)

(** A [geopy.point.Point]: the coordinates that the constructor has
    checked and normalised.  The altitude, which is 0.0 throughout, is left
    out. *)
Record Point : Type := mkPoint { latitude : PyFloat.float; longitude : PyFloat.float }.

(** The constructor of [geopy.point.Point] (geopy 2), called with a
    latitude and a longitude. *)
Module Geopy.
Import PyFloat.

(** [math.fmod(x, y)]: the remainder of the truncated division, which is
    exact and has the sign of [x]. *)
Definition fmod (x y : float) : result float :=
  match x, y with
  | S754_nan, _ | _, S754_nan => Ok S754_nan
  | S754_infinity _, _ => Raise ValueError
  | _, S754_zero _ => Raise ValueError
  | _, S754_infinity _ => Ok x
  | S754_zero s, S754_finite _ _ _ => Ok (S754_zero s)
  | S754_finite sx mx ex, S754_finite _ my ey =>
    let e := Z.min ex ey in
    let r := Z.rem (Zpos mx * 2 ^ (ex - e)) (Zpos my * 2 ^ (ey - e)) in
    Ok (binary_normalize prec emax (if sx then - r else r) e sx)
  end.

(** [x or 0.0]: a zero of either sign becomes [0.0]. *)
Definition or_zero (x : float) : float :=
  if is_zero x then S754_zero false else x.

(** [_normalize_angle(x, limit)]: the angle in the range [[-limit, limit)]. *)
Definition normalize_angle (x limit : float) : result float :=
  let double_limit := fmul limit (of_Z 2) in
  (m <- fmod x double_limit ;;
   let modulo := or_zero m in
   if SFltb modulo (SFopp limit) then Ok (fadd modulo double_limit)
   else if SFleb limit modulo then Ok (fsub modulo double_limit)
   else Ok modulo)%py.

(** [_normalize_coordinates(latitude, longitude, None)]: coordinates that
    are not finite and a latitude beyond 90 degrees are refused, a longitude
    beyond 180 degrees is wrapped. *)
Definition normalize_coordinates (latitude longitude : float) : result (float * float) :=
  let latitude := or_zero latitude in
  let longitude := or_zero longitude in
  if negb (is_finite latitude && is_finite longitude) then Raise ValueError
  else if SFltb (of_Z 90) (SFabs latitude) then Raise ValueError
  else if SFltb (of_Z 180) (SFabs longitude) then
    (longitude <- normalize_angle longitude (of_Z 180) ;;
     Ok (latitude, longitude))%py
  else Ok (latitude, longitude).

(** [geopy.point.Point(latitude, longitude)] *)
Definition geopy_Point (latitude longitude : float) : result Point :=
  (coordinates <- normalize_coordinates latitude longitude ;;
   Ok (mkPoint (fst coordinates) (snd coordinates)))%py.

End Geopy.

Module Grid.
Import PyFloat.

(** One point of the grid, the body of the inner loop. *)
Definition grid_point (center : Point) (vector_x_lat vector_x_lon vector_y_lat vector_y_lon : float)
    (npx npy i j : Z) : result (float * float) :=
  (fi <- int_truediv i npx ;;
   fj <- int_truediv j npy ;;
   let lat := fadd (fadd (latitude center) (fmul fi vector_x_lat)) (fmul fj vector_y_lat) in
   fi' <- int_truediv i npx ;;
   fj' <- int_truediv j npy ;;
   let lon := fadd (fadd (longitude center) (fmul fi' vector_x_lon)) (fmul fj' vector_y_lon) in
   Ok (lat, lon))%py.

(** A [for] loop whose body appends one element to [grid] or raises. *)
Fixpoint for_append {A B} (body : A -> result B) (xs : list A) (grid : list B) : result (list B) :=
  match xs with
  | [] => Ok grid
  | x :: xs' =>
    match body x with
    | Ok p => for_append body xs' (grid ++ [p])
    | Raise e => Raise e
    end
  end.

(** A [for] loop whose body extends [grid] or raises. *)
Fixpoint for_each {A B} (body : A -> list B -> result (list B)) (xs : list A) (grid : list B)
    : result (list B) :=
  match xs with
  | [] => Ok grid
  | x :: xs' =>
    match body x grid with
    | Ok grid' => for_each body xs' grid'
    | Raise e => Raise e
    end
  end.

(** The numbers of steps [(npx, npy)] of lines 48 to 67. *)
Definition grid_steps (vx_norm vy_norm x_step y_step : float) : result (Z * Z) :=
  (x_step <- truediv x_step (of_Z 1000) ;;
   y_step <- truediv y_step (of_Z 1000) ;;
   num_points_x <- truediv vx_norm x_step ;;
   num_points_y <- truediv vy_norm y_step ;;
   npx <- to_int num_points_x ;;
   npy <- to_int num_points_y ;;
   Ok (npx, npy))%py.

Section GridMaker.

(** [geopy.distance.geodesic(p, q).kilometers], a function of the library. *)
Variable geodesic_km : Point -> Point -> float.

Definition gridMaker (center_lat_lon top_left_lat_lon bottom_right_lat_lon : float * float)
    (x_step y_step : float) : result (list (float * float)) :=
  (center <- Geopy.geopy_Point (fst center_lat_lon) (snd center_lat_lon) ;;
   top_left <- Geopy.geopy_Point (fst top_left_lat_lon) (snd top_left_lat_lon) ;;
   bottom_right <- Geopy.geopy_Point (fst bottom_right_lat_lon) (snd bottom_right_lat_lon) ;;
   let vector_x_lat := fsub (latitude bottom_right) (latitude center) in
   let vector_x_lon := fsub (longitude bottom_right) (longitude center) in
   let vector_y_lat := fsub (latitude top_left) (latitude center) in
   let vector_y_lon := fsub (longitude top_left) (longitude center) in
   let vx_norm := geodesic_km center bottom_right in
   let vy_norm := geodesic_km center top_left in
   steps <- grid_steps vx_norm vy_norm x_step y_step ;;
   let npx := fst steps in
   let npy := snd steps in
   for_each
     (fun i =>
        for_append
          (grid_point center vector_x_lat vector_x_lon vector_y_lat vector_y_lon npx npy i)
          (range (npy + 1)))
     (range (npx + 1)) [])%py.

End GridMaker.

End Grid.

(** ** Text helpers *)

Definition newline : string := String (ascii_of_nat 10) EmptyString.

(** [str.isspace] on an ASCII character.  The texts that the module
    splits are taken to be ASCII ([ascii_text] below): beyond ASCII,
    [str.split] also cuts at the Unicode spaces, which a string of bytes
    does not show. *)
Definition isspace (c : ascii) : bool :=
  let n := nat_of_ascii c in
  ((9 <=? n)%nat && (n <=? 13)%nat) || ((28 <=? n)%nat && (n <=? 32)%nat).

(** [line.split()]: the maximal runs of characters that are not spaces. *)
Fixpoint split (s : string) : list string :=
  match s with
  | EmptyString => []
  | String c rest =>
    if isspace c then split rest
    else
      match rest with
      | EmptyString => [String c EmptyString]
      | String c' _ =>
        if isspace c' then String c EmptyString :: split rest
        else
          match split rest with
          | t :: ts => String c t :: ts
          | [] => [String c EmptyString]
          end
      end
  end.

(** Text mode reads with universal newlines: a carriage return, alone or
    followed by a line feed, is read as one line feed. *)
Fixpoint universal_newlines (s : string) : string :=
  match s with
  | EmptyString => EmptyString
  | String c rest =>
    if Ascii.eqb c (ascii_of_nat 13) then
      String (ascii_of_nat 10)
        match rest with
        | String c' rest' =>
          if Ascii.eqb c' (ascii_of_nat 10) then universal_newlines rest'
          else universal_newlines rest
        | EmptyString => EmptyString
        end
    else String c (universal_newlines rest)
  end.

(** The lines of a text, each with its line feed. *)
Fixpoint keep_lines (s : string) : list string :=
  match s with
  | EmptyString => []
  | String c rest =>
    if Ascii.eqb c (ascii_of_nat 10) then newline :: keep_lines rest
    else
      match keep_lines rest with
      | l :: ls => String c l :: ls
      | [] => [String c EmptyString]
      end
  end.

(** [file.readlines()] on the content of a text file. *)
Definition readlines (content : string) : list string :=
  keep_lines (universal_newlines content).

(** [seq[i]] on a list. *)
Definition getitem {A} (l : list A) (i : nat) : result A :=
  match l !! i with
  | Some x => Ok x
  | None => Raise IndexError
  end.

(** [d[key]] on a dictionary read from JSON. *)
Definition dict_get {A} (field : option A) (key : string) : result A :=
  match field with
  | Some x => Ok x
  | None => Raise (KeyError key)
  end.

(** [list(set(l))]: the distinct elements, in the order in which the set
    happens to enumerate them. *)
Definition list_set (l : list string) : list string :=
  elements (list_to_set l : gset string).

(** ** Paths *)

Definition slash : ascii := ascii_of_nat 47.

Fixpoint ends_with_slash (s : string) : bool :=
  match s with
  | EmptyString => false
  | String c EmptyString => Ascii.eqb c slash
  | String _ rest => ends_with_slash rest
  end.

Definition starts_with_slash (s : string) : bool :=
  match s with
  | String c _ => Ascii.eqb c slash
  | EmptyString => false
  end.

(** [os.path.join(a, b)] *)
Definition os_path_join (a b : string) : string :=
  if starts_with_slash b then b
  else if ends_with_slash a then a +:+ b
  else match a with
       | EmptyString => b
       | _ => a +:+ "/" +:+ b
       end.

Fixpoint strip_prefix (p s : string) : option string :=
  match p with
  | EmptyString => Some s
  | String c p' =>
    match s with
    | String c' s' => if Ascii.eqb c c' then strip_prefix p' s' else None
    | EmptyString => None
    end
  end.

(** The part of a relative path before its first slash. *)
Fixpoint first_component (s : string) : string :=
  match s with
  | EmptyString => EmptyString
  | String c rest => if Ascii.eqb c slash then EmptyString else String c (first_component rest)
  end.

(** ** The world: files and the remote service *)

(** A request to the places service, as the URL of the source spells it. *)
Inductive Request : Type :=
| NearbySearch (lat lon : PyFloat.float) (place_type API_key : string)
| PlaceDetails (place_id API_key : string).

(** One entry of the [results] array; [None] when the key is missing. *)
Record Place : Type := mkPlace { place_id : option string }.

(** The JSON body of a response, as far as the module reads it: the keys
    [status], [results] and [result], each of which may be missing. *)
Record Body (PlaceRecord : Type) : Type := mkBody {
  status : option string;
  results : option (list Place);
  body_result : option PlaceRecord
}.

Arguments mkBody {PlaceRecord} status results body_result.
Arguments status {PlaceRecord} b.
Arguments results {PlaceRecord} b.
Arguments body_result {PlaceRecord} b.

(** A response; [None] when its body is not JSON. *)
Definition Response (PlaceRecord : Type) : Type := option (Body PlaceRecord).

(** Files are flat storage, a path naming a content: directories are not
    modelled, every folder is taken to exist and to be writable.  [sent]
    logs the requests issued so far. *)
Record World : Type := mkWorld {
  disk : gmap string string;
  sent : list Request
}.

(** A computation that reads and writes the world and returns or raises;
    the world it leaves behind is there in both cases. *)
Definition Py (A : Type) : Type := World -> result A * World.

Definition ret {A} (a : A) : Py A := fun w => (Ok a, w).

Definition raise {A} (e : exn) : Py A := fun w => (Raise e, w).

Definition bind {A B} (m : Py A) (k : A -> Py B) : Py B :=
  fun w =>
    match m w with
    | (Ok a, w') => k a w'
    | (Raise e, w') => (Raise e, w')
    end.

Definition lift {A} (r : result A) : Py A := fun w => (r, w).

Declare Scope world_scope.
Delimit Scope world_scope with world.
Notation "x <- c ;; k" := (bind c (fun x => k))
  (at level 100, c at next level, right associativity) : world_scope.
Notation "c ;;; k" := (bind c (fun _ => k))
  (at level 100, k at level 200, right associativity) : world_scope.

(** [open(path, 'w')] followed by [truncate()]: the file is there and empty. *)
Definition open_truncate (path : string) : Py unit :=
  fun w => (Ok tt, mkWorld (<[path := EmptyString]> (disk w)) (sent w)).

(** [open(path, 'a')]: the file is created when it is missing. *)
Definition open_append (path : string) : Py unit :=
  fun w => (Ok tt, mkWorld (<[path := default EmptyString (disk w !! path)]> (disk w)) (sent w)).

(** [file.write(text)] on a file opened for appending. *)
Definition write_append (path text : string) : Py unit :=
  fun w =>
    (Ok tt, mkWorld (<[path := default EmptyString (disk w !! path) +:+ text]> (disk w)) (sent w)).

(** [open(path, 'wb')] and one write of [data]. *)
Definition write_binary (path data : string) : Py unit :=
  fun w => (Ok tt, mkWorld (<[path := data]> (disk w)) (sent w)).

(** [open(path, 'r')] or [open(path, 'rb')], and a read of the whole file. *)
Definition read_file (path : string) : Py string :=
  fun w =>
    match disk w !! path with
    | Some content => (Ok content, w)
    | None => (Raise (FileNotFoundError path), w)
    end.

(** The prefix that the paths of the entries of [folder] share. *)
Definition dir_prefix (folder : string) : string :=
  if ends_with_slash folder then folder else folder +:+ "/".

Definition entry_name (folder path : string) : option string :=
  match strip_prefix (dir_prefix folder) path with
  | Some rest =>
    match first_component rest with
    | EmptyString => None
    | name => Some name
    end
  | None => None
  end.

(** [os.listdir(folder)]: the names of the files and of the directories
    directly inside [folder], in the order of the directory. *)
Definition os_listdir (folder : string) : Py (list string) :=
  fun w => (Ok (remove_dups (omap (entry_name folder) (map fst (map_to_list (disk w))))), w).

(** [os.path.isfile(path)] *)
Definition os_path_isfile (path : string) : Py bool :=
  fun w => (Ok (bool_decide (is_Some (disk w !! path))), w).

(** [str(i)] for an index. *)
Definition str_of_nat (i : nat) : string := NilZero.string_of_uint (Nat.to_uint i).

(** ** Requests, collection and storage *)

Section Places.

(** A place record is opaque to the module. *)
Context {PlaceRecord : Type}.

(** The remote service: the answer to a request, given how many requests
    were sent before it.  The transport is taken to deliver an answer to
    every request. *)
Variable service : nat -> Request -> Response PlaceRecord.

(** [pickle.dumps] and [pickle.loads], functions of the library. *)
Variable pickle_dumps : PlaceRecord -> string.
Variable pickle_loads : string -> result PlaceRecord.

(** [requests.request("GET", url, ...)] *)
Definition requests_request (url : Request) : Py (Response PlaceRecord) :=
  fun w => (Ok (service (length (sent w)) url), mkWorld (disk w) (sent w ++ [url])).

(** [response.json()] *)
Definition response_json (response : Response PlaceRecord) : result (Body PlaceRecord) :=
  match response with
  | Some body => Ok body
  | None => Raise JSONDecodeError
  end.

Definition request_check (response : Response PlaceRecord) : result unit :=
  (body <- response_json response ;;
   status <- dict_get (status body) "status" ;;
   if negb (String.eqb status "OK") && negb (String.eqb status "ZERO_RESULTS")
   then Raise (RequestError ("Google API returned the following status: " +:+ status))
   else Ok tt)%py.

(** The inner loop of [get_ids_from_grid]. *)
Fixpoint append_place_ids (places : list Place) (list_of_id : list string) : result (list string) :=
  match places with
  | [] => Ok list_of_id
  | place :: places' =>
    (id <- dict_get (place_id place) "place_id" ;;
     append_place_ids places' (list_of_id ++ [id]))%py
  end.

(** The loop of [get_ids_from_grid] over the points of the grid. *)
Fixpoint get_ids_loop (place_type API_key : string) (grid : list (PyFloat.float * PyFloat.float))
    (list_of_id : list string) : Py (list string) :=
  match grid with
  | [] => ret list_of_id
  | point :: grid' =>
    (response <- requests_request (NearbySearch (fst point) (snd point) place_type API_key) ;;
     lift (request_check response) ;;;
     dict <- lift (response_json response) ;;
     places <- lift (dict_get (results dict) "results") ;;
     list_of_id <- lift (append_place_ids places list_of_id) ;;
     get_ids_loop place_type API_key grid' list_of_id)%world
  end.

Definition get_ids_from_grid (grid : list (PyFloat.float * PyFloat.float))
    (place_type API_key : string) : Py (list string) :=
  (list_of_id <- get_ids_loop place_type API_key grid [] ;;
   ret (list_set list_of_id))%world.

(** The inner loop of [ids_to_file_from_grid]: one line per place. *)
Fixpoint write_places (file_name : string) (i : nat) (places : list Place) : Py unit :=
  match places with
  | [] => ret tt
  | place :: places' =>
    (id <- lift (dict_get (place_id place) "place_id") ;;
     write_append file_name (str_of_nat i +:+ " " +:+ id +:+ newline) ;;;
     write_places file_name i places')%world
  end.

(** The loop of [ids_to_file_from_grid]; [None] is Python's [None], the
    value of a call that ends without a [return]. *)
Fixpoint ids_to_file_loop (place_type file_name API_key : string) (i : nat)
    (grid : list (PyFloat.float * PyFloat.float))
    (error_points : list (PyFloat.float * PyFloat.float))
    : Py (option (list (PyFloat.float * PyFloat.float))) :=
  match grid with
  | [] => ret None
  | point :: grid' =>
    (response <- requests_request (NearbySearch (fst point) (snd point) place_type API_key) ;;
     match request_check response with
     | Raise _ =>
       ids_to_file_loop place_type file_name API_key (S i) grid'
         (error_points ++ [(fst point, snd point)])
     | Ok _ =>
       dict <- lift (response_json response) ;;
       places <- lift (dict_get (results dict) "results") ;;
       open_append file_name ;;;
       write_places file_name i places ;;;
       ret (Some error_points)
     end)%world
  end.

Definition ids_to_file_from_grid (grid : list (PyFloat.float * PyFloat.float))
    (place_type file_name API_key : string)
    : Py (option (list (PyFloat.float * PyFloat.float))) :=
  (open_truncate file_name ;;;
   ids_to_file_loop place_type file_name API_key 0 grid [])%world.

(** The loop of [get_unique_ids_from_files] over the lines of one file. *)
Fixpoint ids_of_lines (lines : list string) (ids : list string) : result (list string) :=
  match lines with
  | [] => Ok ids
  | line :: lines' =>
    let split_line := split line in
    (id <- getitem split_line 1 ;;
     ids_of_lines lines' (ids ++ [id]))%py
  end.

(** The loop of [get_unique_ids_from_files] over the files. *)
Fixpoint ids_of_files (files : list string) (ids : list string) : Py (list string) :=
  match files with
  | [] => ret ids
  | file_name :: files' =>
    (content <- read_file file_name ;;
     ids <- lift (ids_of_lines (readlines content) ids) ;;
     ids_of_files files' ids)%world
  end.

Definition get_unique_ids_from_files (files : list string) : Py (list string) :=
  (ids <- ids_of_files files [] ;;
   ret (list_set ids))%world.

(** The loop of [get_data_from_ids]. *)
Fixpoint get_data_loop (API_key : string) (ids : list string) (list_of_dict : list PlaceRecord)
    : Py (list PlaceRecord) :=
  match ids with
  | [] => ret list_of_dict
  | id :: ids' =>
    (response <- requests_request (PlaceDetails id API_key) ;;
     lift (request_check response) ;;;
     body <- lift (response_json response) ;;
     dict <- lift (dict_get (body_result body) "result") ;;
     get_data_loop API_key ids' (list_of_dict ++ [dict]))%world
  end.

Definition get_data_from_ids (ids : list string) (API_key : string) : Py (list PlaceRecord) :=
  get_data_loop API_key ids [].

(** The path of the file that holds the record of [id]. *)
Definition pkl_path (folder id : string) : string := folder +:+ "/" +:+ id +:+ ".pkl".

(** The loop of [data_from_ids_to_files]. *)
Fixpoint data_to_files_loop (folder API_key : string) (ids : list string) (error_ids : list string)
    : Py (list string) :=
  match ids with
  | [] => ret error_ids
  | id :: ids' =>
    (response <- requests_request (PlaceDetails id API_key) ;;
     match request_check response with
     | Raise _ => data_to_files_loop folder API_key ids' (error_ids ++ [id])
     | Ok _ =>
       body <- lift (response_json response) ;;
       dict <- lift (dict_get (body_result body) "result") ;;
       write_binary (pkl_path folder id) (pickle_dumps dict) ;;;
       data_to_files_loop folder API_key ids' error_ids
     end)%world
  end.

Definition data_from_ids_to_files (ids : list string) (folder API_key : string) : Py (list string) :=
  data_to_files_loop folder API_key ids [].

(** The comprehension [[f for f in os.listdir(folder) if os.path.isfile(...)]]. *)
Fixpoint regular_files (folder : string) (names : list string) : Py (list string) :=
  match names with
  | [] => ret []
  | f :: names' =>
    (keep <- os_path_isfile (os_path_join folder f) ;;
     files <- regular_files folder names' ;;
     ret (if keep : bool then f :: files else files))%world
  end.

(** The loop of [pkl_files_to_list_of_dicts]. *)
Fixpoint load_files (folder : string) (files : list string) (list_of_dicts : list PlaceRecord)
    : Py (list PlaceRecord) :=
  match files with
  | [] => ret list_of_dicts
  | f :: files' =>
    let f_path := os_path_join folder f in
    (data <- read_file f_path ;;
     dictionary <- lift (pickle_loads data) ;;
     load_files folder files' (list_of_dicts ++ [dictionary]))%world
  end.

Definition pkl_files_to_list_of_dicts (folder : string) : Py (list PlaceRecord) :=
  (names <- os_listdir folder ;;
   files <- regular_files folder names ;;
   load_files folder files [])%world.

End Places.

(** * The vocabulary of the statements *)

(** ** Grids *)

(** [0 < x] on floats. *)
Definition positive_float (x : PyFloat.float) : bool := SFltb (S754_zero false) x.

(** The point [(i, j)] of the lattice that the sides from [center] to
    [bottom_right] and to [top_left] span, with [npx] and [npy] steps along
    them: [center + (i / npx) (bottom_right - center) + (j / npy) (top_left -
    center)], coordinate by coordinate; [None] when a quotient does not
    exist. *)
Definition lattice_point (center top_left bottom_right : Point) (npx npy i j : Z)
    : option (PyFloat.float * PyFloat.float) :=
  match PyFloat.int_truediv i npx, PyFloat.int_truediv j npy with
  | Ok fi, Ok fj =>
    Some (PyFloat.fadd
            (PyFloat.fadd (latitude center)
               (PyFloat.fmul fi (PyFloat.fsub (latitude bottom_right) (latitude center))))
            (PyFloat.fmul fj (PyFloat.fsub (latitude top_left) (latitude center))),
          PyFloat.fadd
            (PyFloat.fadd (longitude center)
               (PyFloat.fmul fi (PyFloat.fsub (longitude bottom_right) (longitude center))))
            (PyFloat.fmul fj (PyFloat.fsub (longitude top_left) (longitude center))))
  | _, _ => None
  end.

(** The point that [lattice_point] gives. *)
Definition point_value (o : option (PyFloat.float * PyFloat.float))
    : PyFloat.float * PyFloat.float :=
  default (S754_nan, S754_nan) o.

(** A corner that [geopy.point.Point] refuses: a coordinate is not finite,
    or the latitude is beyond 90 degrees. *)
Definition refused_corner (p : PyFloat.float * PyFloat.float) : bool :=
  negb (PyFloat.is_finite (fst p)) || negb (PyFloat.is_finite (snd p)) ||
  SFltb (PyFloat.of_Z 90) (SFabs (fst p)).

(** ** Worlds *)

(** The world after one more request. *)
Definition after_request (w : World) (url : Request) : World :=
  mkWorld (disk w) (sent w ++ [url]).

(** The world after the requests [urls], sent in order. *)
Definition after_requests (w : World) (urls : list Request) : World :=
  mkWorld (disk w) (sent w ++ urls).

(** ** Responses and runs *)

Section Vocabulary.

Context {PlaceRecord : Type}.
Variable service : nat -> Request -> Response PlaceRecord.
Variable pickle_dumps : PlaceRecord -> string.
Variables place_type file_name folder API_key : string.

(** The request for the places near a point. *)
Definition nearby_url (point : PyFloat.float * PyFloat.float) : Request :=
  NearbySearch (fst point) (snd point) place_type API_key.

(** The request for the details of a place. *)
Definition detail_url (id : string) : Request := PlaceDetails id API_key.

(** What the body of the loop of [get_ids_from_grid] makes of one response:
    the identifiers it appends, or the exception it raises. *)
Definition harvest (response : Response PlaceRecord) : result (list string) :=
  (_ <- request_check response ;;
   dict <- response_json response ;;
   places <- dict_get (results dict) "results" ;;
   append_place_ids places [])%py.

(** A status other than "OK" and "ZERO_RESULTS". *)
Definition bad_status (response : Response PlaceRecord) (s : string) : Prop :=
  exists body, response = Some body /\ status body = Some s /\
               s <> "OK" /\ s <> "ZERO_RESULTS".

(** The message of the [RequestError] for a status. *)
Definition status_message (s : string) : string :=
  "Google API returned the following status: " +:+ s.

(** A success as the service documents it: the status is "OK" or
    "ZERO_RESULTS" and [results] is an array of places with a [place_id]. *)
Definition nearby_success (response : Response PlaceRecord) : bool :=
  match response with
  | Some body =>
    match status body, results body with
    | Some s, Some places =>
      (String.eqb s "OK" || String.eqb s "ZERO_RESULTS") &&
      forallb (fun place => bool_decide (is_Some (place_id place))) places
    | _, _ => false
    end
  | None => false
  end.

(** The check of a response raises, whatever the exception. *)
Definition check_fails (response : Response PlaceRecord) : bool :=
  match request_check response with
  | Raise _ => true
  | Ok _ => false
  end.

(** What [ids_to_file_from_grid] does with a response that passed the check. *)
Definition record_point (i : nat) (response : Response PlaceRecord)
    (error_points : list (PyFloat.float * PyFloat.float))
    : Py (option (list (PyFloat.float * PyFloat.float))) :=
  (dict <- lift (response_json response) ;;
   places <- lift (dict_get (results dict) "results") ;;
   open_append file_name ;;;
   write_places file_name i places ;;;
   ret (Some error_points))%world.

(** The lines that one point adds to the file. *)
Definition id_lines (i : nat) (ids : list string) : string :=
  foldr (fun id text => (str_of_nat i +:+ " " +:+ id +:+ newline) +:+ text) "" ids.

(** The record that a response delivers: it passes the check and has a
    [result]. *)
Definition fetched (response : Response PlaceRecord) : option PlaceRecord :=
  if check_fails response then None
  else match response with
       | Some body => body_result body
       | None => None
       end.

(** A response that passes the check carries a [result]. *)
Definition detail_formed (response : Response PlaceRecord) : bool :=
  check_fails response || bool_decide (is_Some (fetched response)).

(** The identifiers whose request fails, the [n]-th request of the run
    being the first one of [ids]. *)
Fixpoint failed_ids (n : nat) (ids : list string) : list string :=
  match ids with
  | [] => []
  | id :: ids' =>
    if check_fails (service n (detail_url id)) then id :: failed_ids (S n) ids'
    else failed_ids (S n) ids'
  end.

(** The disk after the records fetched for [ids] are stored. *)
Fixpoint stored (n : nat) (ids : list string) (d : gmap string string) : gmap string string :=
  match ids with
  | [] => d
  | id :: ids' =>
    stored (S n) ids'
      match fetched (service n (detail_url id)) with
      | Some record => <[pkl_path folder id := pickle_dumps record]> d
      | None => d
      end
  end.

(** *** The words of the specification

    A request succeeds when the status of its response is "OK" or
    "ZERO_RESULTS"; any other response is a failure. *)
Definition request_succeeds (response : Response PlaceRecord) : bool :=
  match response with
  | Some body =>
    match status body with
    | Some s => String.eqb s "OK" || String.eqb s "ZERO_RESULTS"
    | None => false
    end
  | None => false
  end.

(** The record that a response carries under [result]. *)
Definition delivered_record (response : Response PlaceRecord) : option PlaceRecord :=
  match response with
  | Some body => body_result body
  | None => None
  end.

(** The identifiers of [ids] whose request fails, in the order of [ids],
    the [n]-th request of the run being the one of the first identifier. *)
Fixpoint failing_requests (n : nat) (ids : list string) : list string :=
  match ids with
  | [] => []
  | id :: ids' =>
    if request_succeeds (service n (detail_url id)) then failing_requests (S n) ids'
    else id :: failing_requests (S n) ids'
  end.

End Vocabulary.

(** ** Paths and lines *)

(** No slash in the string. *)
Fixpoint no_slash (s : string) : bool :=
  match s with
  | EmptyString => true
  | String c rest => negb (Ascii.eqb c slash) && no_slash rest
  end.

(** A text of ASCII characters. *)
Fixpoint ascii_text (s : string) : bool :=
  match s with
  | EmptyString => true
  | String c rest => (nat_of_ascii c <? 128)%nat && ascii_text rest
  end.

(** The number of tokens of a text, counted at the places where a token
    begins: a character that is no space, at the start of the text or after
    a space ([in_word] tells that the character before was no space). *)
Fixpoint tokens_from (in_word : bool) (s : string) : nat :=
  match s with
  | EmptyString => 0
  | String c rest =>
    if isspace c then tokens_from false rest
    else ((if in_word then 0 else 1) + tokens_from true rest)%nat
  end.

Definition token_count (s : string) : nat := tokens_from false s.

(** A line without a second token. *)
Definition malformed (line : string) : bool := (token_count line <? 2)%nat.

(** ** Sample data *)

Module Samples.

(** A sample parallelogram at the equator:

    the corners (0, 0), (0.001, 0) and (0, 0.001), a thousandth of a degree
    apart, and the distances of some 0.11 km between them. *)
Definition origin : PyFloat.float * PyFloat.float := (S754_zero false, S754_zero false).
Definition thousandth : PyFloat.float := S754_finite false 4611686018427388 (-62).
Definition north : PyFloat.float * PyFloat.float := (thousandth, S754_zero false).
Definition east : PyFloat.float * PyFloat.float := (S754_zero false, thousandth).

Definition equator_km (p q : Point) : PyFloat.float :=
  if PyFloat.is_zero (latitude q) && PyFloat.is_zero (longitude q) then S754_zero false
  else if PyFloat.is_zero (latitude q) then S754_finite false 8021414676090566 (-56)
  else S754_finite false 7967716355897633 (-56).

(** 1000000.0, 10.0 and -10.0 metres. *)
Definition thousand_km : PyFloat.float := S754_finite false 8589934592000000 (-33).
Definition ten_m : PyFloat.float := S754_finite false 5629499534213120 (-49).
Definition minus_ten_m : PyFloat.float := S754_finite true 5629499534213120 (-49).

(** Records are strings here, pickled as themselves. *)
Definition dumps (record : string) : string := record.
Definition loads (data : string) : result string := Ok data.

Definition empty_world : World := mkWorld ∅ [].

Definition p0 : PyFloat.float * PyFloat.float := (S754_zero false, S754_zero false).
Definition p1 : PyFloat.float * PyFloat.float := (PyFloat.of_Z 1, S754_zero false).
Definition p2 : PyFloat.float * PyFloat.float := (PyFloat.of_Z 2, S754_zero false).

Definition found (ids : list string) : Response string :=
  Some (mkBody (Some "OK") (Some (map (fun id => mkPlace (Some id)) ids)) None).
Definition details (record : string) : Response string :=
  Some (mkBody (Some "OK") None (Some record)).
Definition denied : Response string := Some (mkBody (Some "REQUEST_DENIED") None None).
Definition no_status : Response string := Some (mkBody None None None).

(** Every nearby search finds places, with an overlap between the answers. *)
Definition finding (n : nat) (url : Request) : Response string :=
  match n with
  | O => found ["a"; "b"]
  | _ => found ["b"; "c"]
  end.

(** The first request is denied, the second answer has no status, the
    third succeeds; so do the later ones. *)
Definition flaky (n : nat) (url : Request) : Response string :=
  match n, url with
  | O, _ => denied
  | 1%nat, _ => no_status
  | _, NearbySearch _ _ _ _ => found ["a"; "b"]
  | _, PlaceDetails id _ => details ("record of " +:+ id)
  end.

(** No request succeeds. *)
Definition failing (n : nat) (url : Request) : Response string :=
  match n with
  | O => denied
  | _ => no_status
  end.

(** A file of identifiers whose second line has no identifier. *)
Definition broken_ids : World :=
  mkWorld {[ "ids.txt" := "0 abc" +:+ newline +:+ "1" +:+ newline ]} [].

End Samples.

(** ** Details, tokens and lines *)

(** What the body of the loop of [get_data_from_ids] makes of one response:
    the record it appends, or the exception it raises. *)
Definition detail_record {PlaceRecord : Type} (response : Response PlaceRecord)
    : result PlaceRecord :=
  (_ <- request_check response ;;
   body <- response_json response ;;
   dict_get (body_result body) "result")%py.

(** No space character in the string. *)
Fixpoint no_space (s : string) : bool :=
  match s with
  | EmptyString => true
  | String c rest => negb (isspace c) && no_space rest
  end.

(** Neither a line feed nor a carriage return in the string. *)
Fixpoint one_line (s : string) : bool :=
  match s with
  | EmptyString => true
  | String c rest =>
    negb (Ascii.eqb c (ascii_of_nat 10)) && negb (Ascii.eqb c (ascii_of_nat 13)) && one_line rest
  end.

(** A string that [split] reads as one token: not empty, without spaces. *)
Definition token (s : string) : bool :=
  match s with
  | EmptyString => false
  | _ => no_space s
  end.

(** The line that [ids_to_file_from_grid] writes for a place. *)
Definition id_line (i : nat) (id : string) : string :=
  str_of_nat i +:+ " " +:+ id +:+ newline.

(** A file that is there, holds ASCII text, and whose lines all have a
    second word. *)
Definition well_formed_file (w : World) (f : string) : Prop :=
  exists content, disk w !! f = Some content /\ ascii_text content = true /\
                  forall line, line ∈ readlines content -> malformed line = false.

(** More sample data. *)
Module MoreSamples.

(** 50.0 metres. *)
Definition fifty_m : PyFloat.float := S754_finite false 7036874417766400 (-47).

(** A parallelogram whose centre is given with the longitude 181:
    the corners (0, 181), (0.001, 181) and (0, 181.001); geopy reads the
    longitudes as -179 and -178.999. *)
Definition far_east : PyFloat.float * PyFloat.float := (S754_zero false, PyFloat.of_Z 181).
Definition north_of_far_east : PyFloat.float * PyFloat.float :=
  (Samples.thousandth, PyFloat.of_Z 181).
Definition east_of_far_east : PyFloat.float * PyFloat.float :=
  (S754_zero false, S754_finite false 6368406532450681 (-45)).
Definition minus_179_east : PyFloat.float := S754_finite true 6297967419528839 (-45).

(** An answer with a place that has no [place_id]. *)
Definition ragged : Response string :=
  Some (mkBody (Some "OK") (Some [mkPlace (Some "a"); mkPlace None; mkPlace (Some "c")]) None).

(** An answer with a good status and nothing else. *)
Definition hollow : Response string := Some (mkBody (Some "OK") None None).

(** Every request succeeds. *)
Definition steady (n : nat) (url : Request) : Response string :=
  match url with
  | NearbySearch _ _ _ _ => Samples.found ["a"; "b"]
  | PlaceDetails id _ => Samples.details ("record of " +:+ id)
  end.

(** The first request succeeds, the later ones are denied. *)
Definition souring (n : nat) (url : Request) : Response string :=
  match n with
  | O => steady n url
  | _ => Samples.denied
  end.

(** The first request succeeds, the later answers are hollow. *)
Definition thinning (n : nat) (url : Request) : Response string :=
  match n with
  | O => steady n url
  | _ => hollow
  end.

(** The first request is denied, the later answers are ragged. *)
Definition fraying (n : nat) (url : Request) : Response string :=
  match n with
  | O => Samples.denied
  | _ => ragged
  end.

(** The first request is denied, the later ones succeed. *)
Definition grudging (n : nat) (url : Request) : Response string :=
  match n with
  | O => Samples.denied
  | _ => steady n url
  end.


(** Two files of identifiers. *)
Definition two_files : World :=
  mkWorld {[ "a.txt" := "0 abc" +:+ newline;
             "b.txt" := "1 abc" +:+ newline +:+ "2 def" +:+ newline ]} [].

(** A folder of two records, beside a file of another folder and a file of
    a sub-folder. *)
Definition shelf : World :=
  mkWorld {[ "places/x.pkl" := "record of x"; "places/y.pkl" := "record of y";
             "other/z.pkl" := "record of z"; "places/old/t.pkl" := "record of t" ]} [].

(** A pickle that does not load the data "junk". *)
Definition strict_loads (data : string) : result string :=
  if String.eqb data "junk" then Raise UnpicklingError else Ok data.

(** A folder with a record and a file that is no record. *)
Definition spoiled : World :=
  mkWorld {[ "places/x.pkl" := "record of x"; "places/notes" := "junk" ]} [].

End MoreSamples.

(** * Properties *)

(** ** The grid builder *)

Module GridFacts.
Import PyFloat Geopy Grid Samples.

Lemma range_first (n : Z) : 0 <= n -> exists rest, range (n + 1) = 0 :: rest.
Proof.
  intros Hn. unfold range.
  replace (Z.to_nat (n + 1)) with (S (Z.to_nat n)) by lia.
  simpl. eauto.
Qed.

Lemma range_nonpos (n : Z) : n <= 0 -> range n = [].
Proof.
  intros Hn. unfold range. replace (Z.to_nat n) with 0%nat by lia. reflexivity.
Qed.

Lemma int_truediv_by_zero (a : Z) : int_truediv a 0 = Raise ZeroDivisionError.
Proof. reflexivity. Qed.

Lemma int_truediv_of_zero (b : Z) : 0 < b -> int_truediv 0 b = Ok (S754_zero false).
Proof. intros Hb. destruct b; try lia. reflexivity. Qed.

(** The first point of a grid with no step along one axis is a division
    of zero by zero. *)
Lemma grid_point_degenerate (center : Point) (vxa vxo vya vyo : float) (npx npy : Z) :
  0 <= npx -> 0 <= npy -> npx = 0 \/ npy = 0 ->
  grid_point center vxa vxo vya vyo npx npy 0 0 = Raise ZeroDivisionError.
Proof.
  intros Hx Hy Hz. unfold grid_point.
  destruct (Z.eq_dec npx 0) as [-> | Hnx]; [reflexivity |].
  rewrite int_truediv_of_zero by lia. simpl.
  destruct Hz as [-> | ->]; [lia | reflexivity].
Qed.

(** The call when geopy accepts the three corners. *)
Lemma gridMaker_accepted (geodesic_km : Point -> Point -> float)
    (c t b : float * float) (x_step y_step : float) (center top_left bottom_right : Point) :
  geopy_Point (fst c) (snd c) = Ok center ->
  geopy_Point (fst t) (snd t) = Ok top_left ->
  geopy_Point (fst b) (snd b) = Ok bottom_right ->
  gridMaker geodesic_km c t b x_step y_step =
    rbind (grid_steps (geodesic_km center bottom_right) (geodesic_km center top_left)
             x_step y_step)
      (fun steps =>
         for_each
           (fun i =>
              for_append
                (grid_point center
                   (fsub (latitude bottom_right) (latitude center))
                   (fsub (longitude bottom_right) (longitude center))
                   (fsub (latitude top_left) (latitude center))
                   (fsub (longitude top_left) (longitude center))
                   (fst steps) (snd steps) i)
                (range (snd steps + 1)))
           (range (fst steps + 1)) []).
Proof. intros Hc Ht Hb. unfold gridMaker. rewrite Hc, Ht, Hb. reflexivity. Qed.

Lemma fmod_raises (x y : float) (e : exn) : fmod x y = Raise e -> e = ValueError.
Proof.
  destruct x, y; simpl; intros H; try discriminate; injection H as <-; reflexivity.
Qed.

(** The constructor of a point raises nothing but [ValueError]. *)
Lemma geopy_Point_raises (lat lon : float) (e : exn) :
  geopy_Point lat lon = Raise e -> e = ValueError.
Proof.
  unfold geopy_Point, normalize_coordinates.
  destruct (negb _); [intros H; injection H as <-; reflexivity |].
  destruct (SFltb (of_Z 90) _); [intros H; injection H as <-; reflexivity |].
  destruct (SFltb (of_Z 180) _); [| discriminate].
  unfold normalize_angle.
  destruct (fmod (or_zero lon) (fmul (of_Z 180) (of_Z 2))) as [m | e'] eqn:Hm.
  - cbn [rbind]. destruct (SFltb _ _); [discriminate |]. destruct (SFleb _ _); discriminate.
  - cbn [rbind]. intros H. injection H as <-. apply (fmod_raises _ _ _ Hm).
Qed.

Lemma or_zero_finite (x : float) : is_finite (or_zero x) = is_finite x.
Proof. destruct x; reflexivity. Qed.

Lemma or_zero_abs (x : float) : SFabs (or_zero x) = SFabs x.
Proof. destruct x; reflexivity. Qed.

Lemma geopy_Point_refused (p : float * float) :
  refused_corner p = true -> geopy_Point (fst p) (snd p) = Raise ValueError.
Proof.
  unfold refused_corner, geopy_Point, normalize_coordinates.
  rewrite !or_zero_finite, or_zero_abs.
  destruct (is_finite (fst p)); [| reflexivity].
  destruct (is_finite (snd p)); [| reflexivity].
  cbn [andb negb orb]. intros ->. reflexivity.
Qed.

(** A point that the constructor returns has the latitude it was given and
    finite coordinates where it was given them, the longitude too when it
    is within 180 degrees (a zero being read as 0.0). *)
Lemma geopy_Point_accepted (lat lon : float) (p : Point) :
  geopy_Point lat lon = Ok p ->
  latitude p = or_zero lat /\ is_finite (latitude p) = true /\
  (SFltb (of_Z 180) (SFabs lon) = false -> longitude p = or_zero lon).
Proof.
  unfold geopy_Point, normalize_coordinates.
  rewrite !or_zero_finite, !or_zero_abs.
  destruct (is_finite lat) eqn:Hlat; [| discriminate].
  destruct (is_finite lon) eqn:Hlon; [| discriminate]. cbn [andb negb].
  destruct (SFltb (of_Z 90) (SFabs lat)); [discriminate |].
  destruct (SFltb (of_Z 180) (SFabs lon)).
  - destruct (normalize_angle (or_zero lon) (of_Z 180)) as [lon' | e]; [| discriminate].
    cbn [rbind fst snd]. intros H. injection H as <-. cbn [latitude longitude].
    rewrite or_zero_finite.
    split; [reflexivity |]. split; [exact Hlat | discriminate].
  - cbn [rbind fst snd]. intros H. injection H as <-. cbn [latitude longitude].
    rewrite or_zero_finite. auto.
Qed.

Lemma gridMaker_degenerate (geodesic_km : Point -> Point -> float)
    (c t b : float * float) (x_step y_step : float)
    (center top_left bottom_right : Point) (npx npy : Z) :
  geopy_Point (fst c) (snd c) = Ok center ->
  geopy_Point (fst t) (snd t) = Ok top_left ->
  geopy_Point (fst b) (snd b) = Ok bottom_right ->
  grid_steps (geodesic_km center bottom_right) (geodesic_km center top_left)
             x_step y_step = Ok (npx, npy) ->
  0 <= npx -> 0 <= npy -> npx = 0 \/ npy = 0 ->
  gridMaker geodesic_km c t b x_step y_step = Raise ZeroDivisionError.
Proof.
  intros Hc Ht Hb Hsteps Hx Hy Hz.
  rewrite (gridMaker_accepted _ _ _ _ _ _ _ _ _ Hc Ht Hb), Hsteps.
  simpl rbind. simpl fst. simpl snd.
  destruct (range_first npx Hx) as [xs ->].
  destruct (range_first npy Hy) as [ys ->].
  simpl. rewrite grid_point_degenerate by assumption. reflexivity.
Qed.

(** Rounding never turns a mantissa that is not negative into a NaN. *)
Lemma shr_1_nonneg (mrs : shr_record) : 0 <= shr_m mrs -> 0 <= shr_m (shr_1 mrs).
Proof.
  destruct mrs as [m r s]. simpl.
  destruct m as [| p | p]; [| destruct p | lia]; simpl; lia.
Qed.

Lemma iter_shr_1_nonneg (p : positive) :
  forall mrs, 0 <= shr_m mrs -> 0 <= shr_m (SpecFloat.iter_pos shr_1 p mrs).
Proof.
  induction p as [p IH | p IH |]; intros mrs H; simpl.
  - apply IH, IH, shr_1_nonneg, H.
  - apply IH, IH, H.
  - apply shr_1_nonneg, H.
Qed.

Lemma shr_fexp_nonneg (m e : Z) (l : location) :
  0 <= m -> 0 <= shr_m (fst (shr_fexp prec emax m e l)).
Proof.
  intros Hm. unfold shr_fexp, shr.
  assert (H0 : 0 <= shr_m (shr_record_of_loc m l)).
  { destruct l as [| []]; simpl; exact Hm. }
  destruct (fexp prec emax (Zdigits2 m + e) - e); simpl; auto.
  apply iter_shr_1_nonneg, H0.
Qed.

Lemma round_nearest_even_nonneg (m : Z) (l : location) :
  0 <= m -> 0 <= round_nearest_even m l.
Proof.
  intros Hm. unfold round_nearest_even.
  destruct l as [| []]; try lia. destruct (Z.even m); lia.
Qed.

Lemma binary_round_aux_not_nan (s : bool) (mx ex : Z) (lx : location) :
  0 <= mx -> binary_round_aux prec emax s mx ex lx <> S754_nan.
Proof.
  intros Hm. unfold binary_round_aux.
  pose proof (shr_fexp_nonneg mx ex lx Hm) as H1.
  destruct (shr_fexp prec emax mx ex lx) as [mrs' e'] eqn:E1. simpl in H1.
  pose proof (shr_fexp_nonneg _ e' loc_Exact
                (round_nearest_even_nonneg _ (loc_of_shr_record mrs') H1)) as H2.
  destruct (shr_fexp prec emax _ e' loc_Exact) as [mrs'' e''] eqn:E2. simpl in H2.
  destruct (shr_m mrs'') as [| m | m]; try lia; try discriminate.
  destruct (e'' <=? emax - prec); discriminate.
Qed.

Lemma div_core_nonneg (m1 m2 : positive) (e1 e2 : Z) :
  0 <= fst (fst (SFdiv_core_binary prec emax (Zpos m1) e1 (Zpos m2) e2)).
Proof.
  unfold SFdiv_core_binary.
  set (s := e1 - e2 - _).
  set (m' := match s with Z0 => Zpos m1 | Zpos _ => Z.shiftl (Zpos m1) s | Zneg _ => 0 end).
  assert (Hm' : 0 <= m').
  { subst m'. destruct s; try lia. apply Z.shiftl_nonneg. lia. }
  pose proof (Z_div_mod m' (Zpos m2) eq_refl) as Hdiv.
  destruct (Z.div_eucl m' (Zpos m2)) as [q r]. simpl.
  destruct Hdiv as [Heq Hr]. nia.
Qed.

(** A step in metres that is a number is a number in kilometres. *)
Lemma kilometres_not_nan (step : float) :
  is_nan step = false -> SFdiv prec emax step (of_Z 1000) <> S754_nan.
Proof.
  intros Hnum.
  destruct step as [s | s | | s m e]; try discriminate.
  change (of_Z 1000) with (S754_finite false 8796093022208000 (-43)).
  unfold SFdiv.
  pose proof (div_core_nonneg m 8796093022208000 e (-43)) as Hq.
  destruct (SFdiv_core_binary prec emax (Zpos m) e (Zpos 8796093022208000) (-43))
    as [[mz ez] lz].
  apply binary_round_aux_not_nan. exact Hq.
Qed.

Lemma truediv_zero_dividend (x y : float) :
  is_zero x = true -> is_zero y = false -> y <> S754_nan ->
  exists q, truediv x y = Ok q /\ is_zero q = true.
Proof.
  intros Hx Hy Hnan. unfold truediv. rewrite Hy.
  destruct x; try discriminate. destruct y; try discriminate; try congruence;
    simpl; eauto.
Qed.

Lemma to_int_zero (x : float) : is_zero x = true -> to_int x = Ok 0.
Proof. destruct x; try discriminate. reflexivity. Qed.

Lemma kilometres_ok (step : float) : truediv step (of_Z 1000) = Ok (SFdiv prec emax step (of_Z 1000)).
Proof. reflexivity. Qed.

Lemma rbind_ok {A B} (a : A) (k : A -> result B) : rbind (Ok a) k = k a.
Proof. reflexivity. Qed.

Lemma rbind_raise {A B} (e : exn) (k : A -> result B) : rbind (Raise e) k = Raise e.
Proof. reflexivity. Qed.

Lemma truediv_by_zero (x y : float) : is_zero y = true -> truediv x y = Raise ZeroDivisionError.
Proof. intros H. unfold truediv. rewrite H. reflexivity. Qed.

Lemma kilometres_of_zero (step : float) :
  is_zero step = true -> is_zero (SFdiv prec emax step (of_Z 1000)) = true.
Proof. destruct step; try discriminate. reflexivity. Qed.

(** A step of zero metres stops the computation of the numbers of steps. *)
Lemma grid_steps_zero_step (vx_norm vy_norm x_step y_step : float) :
  is_zero x_step = true \/ is_zero y_step = true ->
  grid_steps vx_norm vy_norm x_step y_step = Raise ZeroDivisionError.
Proof.
  intros Hz. unfold grid_steps. rewrite !kilometres_ok, !rbind_ok.
  destruct (is_zero (SFdiv prec emax x_step (of_Z 1000))) eqn:Ex.
  { rewrite truediv_by_zero by exact Ex. reflexivity. }
  destruct Hz as [Hz | Hz].
  { rewrite (kilometres_of_zero _ Hz) in Ex. discriminate. }
  unfold truediv at 1. rewrite Ex, rbind_ok.
  rewrite truediv_by_zero by (apply kilometres_of_zero, Hz). reflexivity.
Qed.

(** Corners that coincide give no step along either axis, when the
    division by the step does not fail already. *)
Lemma grid_steps_coincident (vx_norm vy_norm x_step y_step : float) :
  is_nan x_step = false -> is_nan y_step = false ->
  is_zero vx_norm = true -> is_zero vy_norm = true ->
  grid_steps vx_norm vy_norm x_step y_step = Raise ZeroDivisionError \/
  grid_steps vx_norm vy_norm x_step y_step = Ok (0, 0).
Proof.
  intros Hx Hy Hvx Hvy. unfold grid_steps. rewrite !kilometres_ok, !rbind_ok.
  destruct (is_zero (SFdiv prec emax x_step (of_Z 1000))) eqn:Ex.
  { left. rewrite truediv_by_zero by exact Ex. reflexivity. }
  destruct (truediv_zero_dividend vx_norm _ Hvx Ex (kilometres_not_nan _ Hx))
    as (qx & -> & Hqx).
  rewrite rbind_ok.
  destruct (is_zero (SFdiv prec emax y_step (of_Z 1000))) eqn:Ey.
  { left. rewrite truediv_by_zero by exact Ey. reflexivity. }
  destruct (truediv_zero_dividend vy_norm _ Hvy Ey (kilometres_not_nan _ Hy))
    as (qy & -> & Hqy).
  rewrite rbind_ok, (to_int_zero qx Hqx), (to_int_zero qy Hqy). right. reflexivity.
Qed.

(** *** A grid with steps along both axes *)

Lemma digits2_pos_size (p : positive) : digits2_pos p = Pos.size p.
Proof. induction p as [p IH | p IH |]; simpl; rewrite ?IH; reflexivity. Qed.

Lemma Zdigits2_nonneg (m : Z) : 0 <= Zdigits2 m.
Proof. destruct m; simpl; lia. Qed.

Lemma Zdigits2_le (m k : Z) : 0 <= m -> 0 <= k -> m < 2 ^ k -> Zdigits2 m <= k.
Proof.
  intros Hm Hk Hlt. destruct m as [| p | p]; simpl; try lia.
  rewrite digits2_pos_size.
  pose proof (Pos.size_le p) as Hsize.
  assert (H2 : 2 ^ Zpos (Pos.size p) <= 2 * Zpos p).
  { change 2 with (Zpos 2) at 1. rewrite <- Pos2Z.inj_pow. 
    change (2 * Zpos p) with (Zpos p~0). apply Pos2Z.pos_le_pos. exact Hsize. }
  assert (H3 : 2 ^ Zpos (Pos.size p) < 2 ^ (k + 1)).
  { rewrite Z.pow_add_r, Z.pow_1_r by lia. lia. }
  apply Z.pow_lt_mono_r_iff in H3; lia.
Qed.

Lemma shr_1_le (mrs : shr_record) : 0 <= shr_m mrs -> shr_m (shr_1 mrs) <= shr_m mrs.
Proof.
  destruct mrs as [m r s]. simpl.
  destruct m as [| p | p]; [| destruct p | lia]; simpl; lia.
Qed.

Lemma iter_shr_1_le (p : positive) :
  forall mrs, 0 <= shr_m mrs -> shr_m (SpecFloat.iter_pos shr_1 p mrs) <= shr_m mrs.
Proof.
  induction p as [p IH | p IH |]; intros mrs H; simpl.
  - pose proof (shr_1_nonneg mrs H). pose proof (shr_1_le mrs H).
    pose proof (iter_shr_1_nonneg p _ H0). pose proof (IH _ H0). pose proof (IH _ H2). lia.
  - pose proof (iter_shr_1_nonneg p _ H). pose proof (IH _ H). pose proof (IH _ H0). lia.
  - apply shr_1_le, H.
Qed.

Lemma shr_fexp_le (m e : Z) (l : location) :
  0 <= m -> shr_m (fst (shr_fexp prec emax m e l)) <= m.
Proof.
  intros Hm. unfold shr_fexp, shr.
  assert (H0 : shr_m (shr_record_of_loc m l) = m).
  { destruct l as [| []]; reflexivity. }
  destruct (fexp prec emax (Zdigits2 m + e) - e); simpl; try lia.
  rewrite <- H0 at 2. apply iter_shr_1_le. lia.
Qed.

Lemma shr_fexp_exponent (m e : Z) (l : location) :
  snd (shr_fexp prec emax m e l) = Z.max e (fexp prec emax (Zdigits2 m + e)).
Proof.
  unfold shr_fexp, shr.
  destruct (fexp prec emax (Zdigits2 m + e) - e) eqn:E; simpl; lia.
Qed.

Lemma round_nearest_even_le (m : Z) (l : location) : round_nearest_even m l <= m + 1.
Proof.
  unfold round_nearest_even. destruct l as [| []]; try lia. destruct (Z.even m); lia.
Qed.

Lemma fexp_value (x : Z) : fexp prec emax x = Z.max (x - 53) (-1074).
Proof. reflexivity. Qed.

(** A mantissa below [2 ^ K] with an exponent of at most [1 - K] rounds
    to a float that is no infinity. *)
Lemma binary_round_aux_small (s : bool) (mx ex K : Z) (lx : location) :
  0 <= mx -> mx < 2 ^ K -> 0 <= K <= 1075 -> K + ex <= 1 ->
  forall s', binary_round_aux prec emax s mx ex lx <> S754_infinity s'.
Proof.
  intros Hm Hlt HK Hex s'. unfold binary_round_aux.
  pose proof (shr_fexp_nonneg mx ex lx Hm) as Hn1.
  pose proof (shr_fexp_le mx ex lx Hm) as Hle1.
  pose proof (shr_fexp_exponent mx ex lx) as He1.
  destruct (shr_fexp prec emax mx ex lx) as [mrs' e'] eqn:E1. simpl in Hn1, Hle1, He1.
  set (m1 := round_nearest_even (shr_m mrs') (loc_of_shr_record mrs')).
  assert (Hm1 : 0 <= m1) by (apply round_nearest_even_nonneg, Hn1).
  assert (Hm1' : m1 <= mx + 1).
  { pose proof (round_nearest_even_le (shr_m mrs') (loc_of_shr_record mrs')). subst m1. lia. }
  pose proof (shr_fexp_exponent m1 e' loc_Exact) as He2.
  destruct (shr_fexp prec emax m1 e' loc_Exact) as [mrs'' e''] eqn:E2. simpl in He2.
  assert (Hd : Zdigits2 mx <= K) by (apply Zdigits2_le; lia).
  assert (Hd1 : Zdigits2 m1 <= K + 1).
  { apply Zdigits2_le; try lia. rewrite Z.pow_add_r, Z.pow_1_r by lia. lia. }
  pose proof (Zdigits2_nonneg mx). pose proof (Zdigits2_nonneg m1).
  rewrite fexp_value in He1, He2.
  assert (Hbound : e'' <= emax - prec) by (unfold emax, prec; lia).
  apply Z.leb_le in Hbound.
  destruct (shr_m mrs''); try discriminate. rewrite Hbound. discriminate.
Qed.

Lemma div_core_fraction (pa pb : positive) :
  Zpos pa <= Zpos pb ->
  let '(q, e', _) := SFdiv_core_binary prec emax (Zpos pa) 0 (Zpos pb) 0 in
  0 <= q <= 2 ^ (- e') /\ -1074 <= e' <= 0.
Proof.
  intros Hab. unfold SFdiv_core_binary.
  set (e' := Z.min _ _).
  set (sh := _ - e').
  set (m' := match sh with Z0 => _ | Zpos _ => _ | Zneg _ => _ end).
  assert (He' : -1074 <= e' <= 0).
  { subst e'. rewrite fexp_value. lia. }
  assert (Hsh : sh = - e') by (subst sh; lia).
  assert (H2 : 0 < 2 ^ sh) by (apply Z.pow_pos_nonneg; lia).
  assert (Hm' : 0 <= m' <= Zpos pb * 2 ^ sh).
  { subst m'. destruct sh as [| p | p] eqn:Esh; try lia.
    rewrite Z.shiftl_mul_pow2 by lia. nia. }
  pose proof (Z_div_mod m' (Zpos pb) eq_refl) as Hdiv.
  destruct (Z.div_eucl m' (Zpos pb)) as [q r]. destruct Hdiv as [Hq Hr].
  rewrite <- Hsh. split; [| exact He']. split; nia.
Qed.

(** The quotient of two integers [0 <= a <= b] is a float. *)
Lemma int_truediv_fraction (a b : Z) :
  0 <= a <= b -> 0 < b -> exists q, int_truediv a b = Ok q.
Proof.
  intros Ha Hb. unfold int_truediv.
  destruct b as [| pb | pb]; try lia.
  destruct a as [| pa | pa]; try lia; [eauto |].
  cbv zeta. change (Z.abs (Zpos pa)) with (Zpos pa). change (Z.abs (Zpos pb)) with (Zpos pb).
  pose proof (div_core_fraction pa pb ltac:(lia)) as Hcore.
  destruct (SFdiv_core_binary prec emax (Zpos pa) 0 (Zpos pb) 0) as [[q e'] l].
  destruct Hcore as [Hq He'].
  assert (Hnot : forall s', binary_round_aux prec emax (xorb (Zpos pa <? 0) (Zpos pb <? 0)) q e' l
                            <> S754_infinity s').
  { apply (binary_round_aux_small _ q e' (- e' + 1)); try lia.
    rewrite Z.pow_add_r, Z.pow_1_r by lia. lia. }
  destruct (binary_round_aux prec emax (xorb (Zpos pa <? 0) (Zpos pb <? 0)) q e' l)
    as [sz | sz | | sz mz ez]; try (eexists; reflexivity).
  exfalso. apply (Hnot sz). reflexivity.
Qed.

Lemma for_append_total {A B} (body : A -> result B) (f : A -> B) (xs : list A) :
  (forall x, In x xs -> body x = Ok (f x)) ->
  forall acc, for_append body xs acc = Ok (acc ++ map f xs).
Proof.
  induction xs as [| x xs IH]; intros Hbody acc; simpl.
  - rewrite app_nil_r. reflexivity.
  - rewrite (Hbody x) by (left; reflexivity).
    rewrite IH by (intros y Hy; apply Hbody; right; exact Hy).
    rewrite <- app_assoc. reflexivity.
Qed.

Lemma for_each_total {A B} (body : A -> list B -> result (list B)) (g : A -> list B)
    (xs : list A) :
  (forall x acc, In x xs -> body x acc = Ok (acc ++ g x)) ->
  forall acc, for_each body xs acc = Ok (acc ++ flat_map g xs).
Proof.
  induction xs as [| x xs IH]; intros Hbody acc; simpl.
  - rewrite app_nil_r. reflexivity.
  - rewrite (Hbody x) by (left; reflexivity).
    rewrite IH by (intros y acc' Hy; apply Hbody; right; exact Hy).
    rewrite <- app_assoc. reflexivity.
Qed.

Lemma In_range (n i : Z) : In i (range n) <-> 0 <= i < n.
Proof.
  unfold range. rewrite in_map_iff. split.
  - intros (k & <- & Hk). apply in_seq in Hk. lia.
  - intros Hi. exists (Z.to_nat i). split; [lia |]. apply in_seq. lia.
Qed.

Lemma length_range (n : Z) : length (range n) = Z.to_nat n.
Proof. unfold range. rewrite length_map, length_seq. reflexivity. Qed.

Lemma length_rows {A B} (g : A -> list B) (xs : list A) (k : nat) :
  (forall x, length (g x) = k) -> length (flat_map g xs) = (length xs * k)%nat.
Proof.
  intros Hg. induction xs as [| x xs IH]; simpl; [reflexivity |].
  rewrite length_app, Hg, IH. reflexivity.
Qed.

Lemma lattice_point_ok (center top_left bottom_right : Point) (npx npy i j : Z) :
  1 <= npx -> 1 <= npy -> 0 <= i <= npx -> 0 <= j <= npy ->
  lattice_point center top_left bottom_right npx npy i j =
    Some (point_value (lattice_point center top_left bottom_right npx npy i j)) /\
  grid_point center
    (fsub (latitude bottom_right) (latitude center))
    (fsub (longitude bottom_right) (longitude center))
    (fsub (latitude top_left) (latitude center))
    (fsub (longitude top_left) (longitude center)) npx npy i j =
    Ok (point_value (lattice_point center top_left bottom_right npx npy i j)).
Proof.
  intros Hx Hy Hi Hj. unfold lattice_point, grid_point.
  destruct (int_truediv_fraction i npx Hi ltac:(lia)) as [fi ->].
  destruct (int_truediv_fraction j npy Hj ltac:(lia)) as [fj ->].
  split; reflexivity.
Qed.

Lemma feqb_refl (x : float) : is_finite x = true -> feqb x x = true.
Proof.
  destruct x as [s | s | | s m e]; try discriminate; intros _; [reflexivity |].
  unfold feqb, SFeqb, SFcompare.
  destruct s; rewrite Z.compare_refl, Pos.compare_cont_refl; reflexivity.
Qed.

(** Adding the products of zero with two finite numbers changes nothing. *)
Lemma add_zero_products (x u v : float) :
  is_finite x = true -> is_finite u = true -> is_finite v = true ->
  feqb (fadd (fadd x (fmul (S754_zero false) u)) (fmul (S754_zero false) v)) x = true.
Proof.
  intros Hx Hu Hv.
  destruct u as [su | su | | su mu eu]; try discriminate;
    destruct v as [sv | sv | | sv mv ev]; try discriminate;
    destruct x as [sx | sx | | sx mx ex]; try discriminate;
    cbn [fmul SFmul fadd SFadd xorb];
    try (apply (feqb_refl (S754_finite sx mx ex)); reflexivity);
    destruct sx, su, sv; reflexivity.
Qed.

(** With at least one step along each axis, [gridMaker] returns the
    [(npx + 1) * (npy + 1)] points of the lattice, [i] outer and [j] inner,
    and the first of them equals the centre (for the equality of floats)
    when the longitude of the centre and the differences to the two other
    corners are finite. *)
Lemma gridMaker_regular_grid (geodesic_km : Point -> Point -> float)
    (c t b : float * float) (x_step y_step : float)
    (center top_left bottom_right : Point) (npx npy : Z) :
  geopy_Point (fst c) (snd c) = Ok center ->
  geopy_Point (fst t) (snd t) = Ok top_left ->
  geopy_Point (fst b) (snd b) = Ok bottom_right ->
  grid_steps (geodesic_km center bottom_right) (geodesic_km center top_left)
             x_step y_step = Ok (npx, npy) ->
  1 <= npx -> 1 <= npy ->
  exists grid,
    gridMaker geodesic_km c t b x_step y_step = Ok grid /\
    grid = flat_map (fun i => map (fun j => point_value
                                     (lattice_point center top_left bottom_right npx npy i j))
                                  (range (npy + 1)))
                    (range (npx + 1)) /\
    (forall i j, 0 <= i <= npx -> 0 <= j <= npy ->
       lattice_point center top_left bottom_right npx npy i j =
         Some (point_value (lattice_point center top_left bottom_right npx npy i j))) /\
    length grid = Z.to_nat ((npx + 1) * (npy + 1)) /\
    (is_finite (longitude center) = true ->
     is_finite (fsub (latitude bottom_right) (latitude center)) = true ->
     is_finite (fsub (longitude bottom_right) (longitude center)) = true ->
     is_finite (fsub (latitude top_left) (latitude center)) = true ->
     is_finite (fsub (longitude top_left) (longitude center)) = true ->
     exists lat lon rest,
       grid = (lat, lon) :: rest /\
       feqb lat (latitude center) = true /\ feqb lon (longitude center) = true).
Proof.
  intros Hc Ht Hb Hsteps Hx Hy.
  eexists. split; [| split; [reflexivity |]].
  - rewrite (gridMaker_accepted _ _ _ _ _ _ _ _ _ Hc Ht Hb), Hsteps, rbind_ok.
    simpl fst. simpl snd.
    rewrite (for_each_total _
               (fun i => map (fun j => point_value
                                (lattice_point center top_left bottom_right npx npy i j))
                             (range (npy + 1)))).
    + reflexivity.
    + intros i acc Hi. apply In_range in Hi.
      apply (for_append_total _
               (fun j => point_value (lattice_point center top_left bottom_right npx npy i j))).
      intros j Hj. apply In_range in Hj.
      apply (lattice_point_ok center top_left bottom_right npx npy i j); lia.
  - split; [intros i j Hi Hj; apply lattice_point_ok; lia |].
    split.
    + rewrite (length_rows _ _ (Z.to_nat (npy + 1))).
      * rewrite length_range. lia.
      * intros i. rewrite length_map, length_range. reflexivity.
    + intros Hc2 Hb1 Hb2 Ht1 Ht2.
      destruct (geopy_Point_accepted _ _ _ Hc) as (_ & Hc1 & _).
      destruct (range_first npx ltac:(lia)) as [xs ->].
      destruct (range_first npy ltac:(lia)) as [ys ->].
      simpl flat_map. simpl map.
      unfold lattice_point at 1.
      rewrite !int_truediv_of_zero by lia.
      simpl point_value.
      eexists _, _, _. split; [reflexivity |].
      split; apply add_zero_products; assumption.
Qed.

(** C1, at an input where it fails: with steps of 1000 km and 10 m on the
    sample parallelogram, whose sides are about 0.11 km long, the numbers of
    steps are 0 and 11, so the grid should have 1 x 12 points with the
    centre first; [gridMaker] raises [ZeroDivisionError] instead of
    returning them. *)
Theorem gridMaker_short_side_raises :
  positive_float thousand_km = true /\ positive_float ten_m = true /\
  positive_float (equator_km (mkPoint (fst origin) (snd origin)) (mkPoint (fst east) (snd east))) = true /\
  positive_float (equator_km (mkPoint (fst origin) (snd origin)) (mkPoint (fst north) (snd north))) = true /\
  grid_steps (equator_km (mkPoint (fst origin) (snd origin)) (mkPoint (fst east) (snd east)))
             (equator_km (mkPoint (fst origin) (snd origin)) (mkPoint (fst north) (snd north)))
             thousand_km ten_m = Ok (0, 11) /\
  gridMaker equator_km origin north east thousand_km ten_m = Raise ZeroDivisionError.
Proof. repeat split; vm_compute; reflexivity. Qed.

(** C7, which the code breaks: when the number of steps along one axis is
    0 (and the other is not negative), [gridMaker] returns no grid; its
    first point divides 0 by 0 and the call raises [ZeroDivisionError].  The
    numbers of steps are those computed for the corners as geopy has
    accepted them. *)
Theorem gridMaker_zero_count_raises (geodesic_km : Point -> Point -> float)
    (c t b : float * float) (x_step y_step : float)
    (center top_left bottom_right : Point) (npx npy : Z) :
  geopy_Point (fst c) (snd c) = Ok center ->
  geopy_Point (fst t) (snd t) = Ok top_left ->
  geopy_Point (fst b) (snd b) = Ok bottom_right ->
  grid_steps (geodesic_km center bottom_right) (geodesic_km center top_left)
             x_step y_step = Ok (npx, npy) ->
  0 <= npx -> 0 <= npy -> npx = 0 \/ npy = 0 ->
  gridMaker geodesic_km c t b x_step y_step = Raise ZeroDivisionError /\
  forall grid, gridMaker geodesic_km c t b x_step y_step <> Ok grid.
Proof.
  intros Hc Ht Hb Hsteps Hx Hy Hz.
  rewrite (gridMaker_degenerate _ _ _ _ _ _ _ _ _ _ _ Hc Ht Hb Hsteps Hx Hy Hz).
  split; [reflexivity | discriminate].
Qed.

Lemma gridMaker_zero_count_raises_witness :
  gridMaker equator_km origin north east ten_m thousand_km = Raise ZeroDivisionError /\
  forall grid, gridMaker equator_km origin north east ten_m thousand_km <> Ok grid.
Proof.
  apply (gridMaker_zero_count_raises equator_km origin north east ten_m thousand_km
           (mkPoint (fst origin) (snd origin)) (mkPoint (fst north) (snd north))
           (mkPoint (fst east) (snd east)) 11 0).
  - reflexivity.
  - reflexivity.
  - reflexivity.
  - vm_compute. reflexivity.
  - lia.
  - lia.
  - right. reflexivity.
Defined.

(** C4 as stated fails: a step of zero is answered with
    [ZeroDivisionError], which is no [InvalidGridSpec], and a negative step
    is not answered with an error at all, the grid is empty. *)
Lemma gridMaker_bad_spec_not_rejected :
  ~ (exists e, gridMaker equator_km origin north east (S754_zero false) ten_m = Raise e /\
               exn_class e = "InvalidGridSpec") /\
  gridMaker equator_km origin north east minus_ten_m ten_m = Ok [].
Proof.
  split.
  - intros (e & He & Hclass). vm_compute in He. injection He as <-. discriminate Hclass.
  - vm_compute. reflexivity.
Qed.

(** C4, amended: a step of zero makes the call fail, with no
    [InvalidGridSpec]: when geopy accepts the three corners the call raises
    [ZeroDivisionError], at the division by the step; otherwise it raises
    the [ValueError] of the corner that geopy refuses. *)
Theorem gridMaker_zero_step_raises (geodesic_km : Point -> Point -> float)
    (c t b : float * float) (x_step y_step : float) :
  is_zero x_step = true \/ is_zero y_step = true ->
  (exists e, gridMaker geodesic_km c t b x_step y_step = Raise e /\
             (e = ZeroDivisionError \/ e = ValueError)) /\
  (forall center top_left bottom_right,
     geopy_Point (fst c) (snd c) = Ok center ->
     geopy_Point (fst t) (snd t) = Ok top_left ->
     geopy_Point (fst b) (snd b) = Ok bottom_right ->
     gridMaker geodesic_km c t b x_step y_step = Raise ZeroDivisionError).
Proof.
  intros Hz.
  assert (Hacc : forall center top_left bottom_right,
            geopy_Point (fst c) (snd c) = Ok center ->
            geopy_Point (fst t) (snd t) = Ok top_left ->
            geopy_Point (fst b) (snd b) = Ok bottom_right ->
            gridMaker geodesic_km c t b x_step y_step = Raise ZeroDivisionError).
  { intros center top_left bottom_right Hc Ht Hb.
    rewrite (gridMaker_accepted _ _ _ _ _ _ _ _ _ Hc Ht Hb).
    rewrite (grid_steps_zero_step _ _ _ _ Hz). reflexivity. }
  split; [| exact Hacc].
  destruct (geopy_Point (fst c) (snd c)) as [center | e] eqn:Hc.
  2: { exists e. unfold gridMaker. rewrite Hc. split; [reflexivity |].
       right. apply (geopy_Point_raises _ _ _ Hc). }
  destruct (geopy_Point (fst t) (snd t)) as [top_left | e] eqn:Ht.
  2: { exists e. unfold gridMaker. rewrite Hc, Ht. split; [reflexivity |].
       right. apply (geopy_Point_raises _ _ _ Ht). }
  destruct (geopy_Point (fst b) (snd b)) as [bottom_right | e] eqn:Hb.
  2: { exists e. unfold gridMaker. rewrite Hc, Ht, Hb. split; [reflexivity |].
       right. apply (geopy_Point_raises _ _ _ Hb). }
  exists ZeroDivisionError. split; [| left; reflexivity].
  apply (Hacc center top_left bottom_right); reflexivity.
Qed.

Lemma gridMaker_zero_step_raises_witness :
  gridMaker equator_km origin north east ten_m (S754_zero false) = Raise ZeroDivisionError.
Proof.
  destruct (gridMaker_zero_step_raises equator_km origin north east ten_m (S754_zero false))
    as [_ H].
  - right. reflexivity.
  - apply (H (mkPoint (fst origin) (snd origin)) (mkPoint (fst north) (snd north))
             (mkPoint (fst east) (snd east))); reflexivity.
Defined.

End GridFacts.

(** ** Running a computation in the world *)

Lemma bind_ok {A B} (m : Py A) (k : A -> Py B) (w w' : World) (a : A) :
  m w = (Ok a, w') -> bind m k w = k a w'.
Proof. intros H. unfold bind. rewrite H. reflexivity. Qed.

Lemma bind_raise {A B} (m : Py A) (k : A -> Py B) (w w' : World) (e : exn) :
  m w = (Raise e, w') -> bind m k w = (Raise e, w').
Proof. intros H. unfold bind. rewrite H. reflexivity. Qed.

Lemma bind_lift {A B} (r : result A) (k : A -> Py B) (w : World) :
  bind (lift r) k w = match r with Ok a => k a w | Raise e => (Raise e, w) end.
Proof. unfold bind, lift. destruct r; reflexivity. Qed.


Lemma after_requests_nil (w : World) : after_requests w [] = w.
Proof. destruct w. unfold after_requests. simpl. rewrite app_nil_r. reflexivity. Qed.

Lemma after_requests_cons (w : World) (url : Request) (urls : list Request) :
  after_requests (after_request w url) urls = after_requests w (url :: urls).
Proof. unfold after_requests, after_request. simpl. rewrite <- app_assoc. reflexivity. Qed.

Lemma length_sent_after_request (w : World) (url : Request) :
  length (sent (after_request w url)) = S (length (sent w)).
Proof. simpl. rewrite length_app. simpl. lia. Qed.

(** ** The nearby-search collectors *)

Section CollectorFacts.

Context {PlaceRecord : Type}.
Variable service : nat -> Request -> Response PlaceRecord.
Variables place_type API_key : string.

Local Abbreviation url := (nearby_url place_type API_key).

Lemma append_place_ids_acc (places : list Place) :
  forall acc, append_place_ids places acc =
              rbind (append_place_ids places []) (fun ids => Ok (acc ++ ids)).
Proof.
  induction places as [| place places IH]; intros acc; simpl.
  - rewrite app_nil_r. reflexivity.
  - destruct (place_id place) as [id |]; simpl; [| reflexivity].
    rewrite (IH (acc ++ [id])), (IH [id]).
    destruct (append_place_ids places []); simpl; [| reflexivity].
    rewrite <- app_assoc. reflexivity.
Qed.

Lemma get_ids_loop_cons (point : PyFloat.float * PyFloat.float)
    (grid : list (PyFloat.float * PyFloat.float)) (acc : list string) (w : World) :
  get_ids_loop service place_type API_key (point :: grid) acc w =
  match harvest (service (length (sent w)) (url point)) with
  | Ok ids => get_ids_loop service place_type API_key grid (acc ++ ids)
                (after_request w (url point))
  | Raise e => (Raise e, after_request w (url point))
  end.
Proof.
  simpl get_ids_loop. unfold bind at 1. unfold requests_request at 1.
  fold (url point). fold (after_request w (url point)).
  unfold harvest.
  destruct (request_check (service (length (sent w)) (url point))) as [[] | e];
    rewrite bind_lift; simpl rbind; [| reflexivity].
  destruct (response_json (service (length (sent w)) (url point))) as [dict | e];
    rewrite bind_lift; simpl rbind; [| reflexivity].
  destruct (dict_get (results dict) "results") as [places | e];
    rewrite bind_lift; simpl rbind; [| reflexivity].
  rewrite bind_lift, append_place_ids_acc.
  destruct (append_place_ids places []); reflexivity.
Qed.

(** The run of the loop of [get_ids_from_grid]: either every point is
    harvested, or the loop stops at the first point whose harvest raises. *)
Lemma get_ids_loop_outcome (grid : list (PyFloat.float * PyFloat.float)) :
  forall (acc : list string) (w : World) (n : nat),
  length (sent w) = n ->
  (exists l,
     get_ids_loop service place_type API_key grid acc w =
       (Ok l, after_requests w (map url grid)) /\
     (forall i p, grid !! i = Some p ->
                  exists ids, harvest (service (n + i)%nat (url p)) = Ok ids) /\
     (forall id, id ∈ l <->
                 id ∈ acc \/
                 exists i p ids, grid !! i = Some p /\
                                 harvest (service (n + i)%nat (url p)) = Ok ids /\
                                 id ∈ ids)) \/
  (exists k p e,
     grid !! k = Some p /\
     harvest (service (n + k)%nat (url p)) = Raise e /\
     (forall i q, (i < k)%nat -> grid !! i = Some q ->
                  exists ids, harvest (service (n + i)%nat (url q)) = Ok ids) /\
     get_ids_loop service place_type API_key grid acc w =
       (Raise e, after_requests w (map url (take (S k) grid)))).
Proof.
  induction grid as [| point grid IH]; intros acc w n Hn.
  - left. exists acc. simpl. rewrite after_requests_nil. split; [reflexivity |].
    split.
    + intros i p H. rewrite lookup_nil in H. discriminate.
    + intros id. split; [auto |]. intros [H | (i & p & ids & H & _)]; [exact H |].
      rewrite lookup_nil in H. discriminate.
  - rewrite get_ids_loop_cons, Hn.
    destruct (harvest (service n (url point))) as [ids0 | e0] eqn:Hpoint.
    + destruct (IH (acc ++ ids0) (after_request w (url point)) (S n)) as
        [(l & Hrun & Hall & Hmem) | (k & p & e & Hk & Hraise & Hbefore & Hrun)].
      { rewrite length_sent_after_request, Hn. reflexivity. }
      * left. exists l. rewrite Hrun, after_requests_cons. split; [reflexivity |].
        split.
        -- intros [| i] p Hp; simpl in Hp.
           ++ injection Hp as <-. rewrite Nat.add_0_r. eauto.
           ++ rewrite Nat.add_succ_r. apply (Hall i p Hp).
        -- intros id. rewrite Hmem, elem_of_app. split.
           ++ intros [[H | H] | (i & p & ids & Hp & Hids & Hin)].
              ** left. exact H.
              ** right. exists 0%nat, point, ids0. rewrite Nat.add_0_r. auto.
              ** right. exists (S i), p, ids. rewrite Nat.add_succ_r. auto.
           ++ intros [H | (i & p & ids & Hp & Hids & Hin)]; [auto |].
              destruct i as [| i]; simpl in Hp.
              ** injection Hp as <-. rewrite Nat.add_0_r, Hpoint in Hids.
                 injection Hids as <-. auto.
              ** right. exists i, p, ids. rewrite Nat.add_succ_r in Hids. auto.
      * right. exists (S k), p, e. rewrite Nat.add_succ_r.
        split; [exact Hk |]. split; [exact Hraise |]. split.
        -- intros [| i] q Hlt Hq; simpl in Hq.
           ++ injection Hq as <-. rewrite Nat.add_0_r. eauto.
           ++ rewrite Nat.add_succ_r. apply (Hbefore i q); [lia | exact Hq].
        -- rewrite Hrun, after_requests_cons. reflexivity.
    + right. exists 0%nat, point, e0. rewrite Nat.add_0_r.
      split; [reflexivity |]. split; [exact Hpoint |]. split.
      * intros i q Hlt. lia.
      * simpl. try rewrite take_0. reflexivity.
Qed.

Lemma request_check_bad_status (response : Response PlaceRecord) (s : string) :
  bad_status response s -> request_check response = Raise (RequestError (status_message s)).
Proof.
  intros (body & -> & Hs & Hok & Hzero). unfold request_check. simpl. rewrite Hs. simpl.
  apply String.eqb_neq in Hok, Hzero. rewrite Hok, Hzero. reflexivity.
Qed.

Lemma request_check_request_error (response : Response PlaceRecord) (msg : string) :
  request_check response = Raise (RequestError msg) ->
  exists s, bad_status response s /\ msg = status_message s.
Proof.
  unfold request_check. destruct response as [body |]; simpl; [| discriminate].
  destruct (status body) as [s |] eqn:Hs; simpl; [| discriminate].
  destruct (String.eqb s "OK") eqn:Hok; simpl; [discriminate |].
  destruct (String.eqb s "ZERO_RESULTS") eqn:Hzero; simpl; [discriminate |].
  intros H. injection H as <-. exists s. split; [| reflexivity].
  exists body. apply String.eqb_neq in Hok, Hzero. auto.
Qed.

Lemma append_place_ids_no_request_error (places : list Place) (msg : string) :
  forall acc, append_place_ids places acc <> Raise (RequestError msg).
Proof.
  induction places as [| place places IH]; intros acc; simpl; [discriminate |].
  destruct (place_id place); simpl; [apply IH | discriminate].
Qed.

Lemma harvest_bad_status (response : Response PlaceRecord) (s : string) :
  bad_status response s -> harvest response = Raise (RequestError (status_message s)).
Proof. intros H. unfold harvest. rewrite (request_check_bad_status _ _ H). reflexivity. Qed.

Lemma harvest_request_error (response : Response PlaceRecord) (msg : string) :
  harvest response = Raise (RequestError msg) ->
  exists s, bad_status response s /\ msg = status_message s.
Proof.
  unfold harvest.
  destruct (request_check response) as [[] | e] eqn:Hcheck; simpl.
  - destruct (response_json response) as [dict | e] eqn:Hjson; simpl.
    + destruct (dict_get (results dict) "results") as [places | e] eqn:Hres; simpl.
      * intros H. destruct (append_place_ids_no_request_error _ _ _ H).
      * destruct (results dict); simpl in Hres; [discriminate |].
        injection Hres as <-. discriminate.
    + destruct response; simpl in Hjson; [discriminate |].
      injection Hjson as <-. discriminate.
  - intros H. injection H as ->. apply request_check_request_error, Hcheck.
Qed.

Lemma append_place_ids_all (places : list Place) :
  forallb (fun place => bool_decide (is_Some (place_id place))) places = true ->
  append_place_ids places [] = Ok (omap place_id places).
Proof.
  induction places as [| place places IH]; simpl; [reflexivity |].
  intros H. apply andb_prop in H as [Hid Hrest].
  destruct (place_id place) as [id |]; [| discriminate Hid]. simpl.
  rewrite append_place_ids_acc, (IH Hrest). reflexivity.
Qed.

Lemma harvest_success (response : Response PlaceRecord) :
  nearby_success response = true ->
  exists body places,
    response = Some body /\ results body = Some places /\
    harvest response = Ok (omap place_id places).
Proof.
  unfold nearby_success. destruct response as [body |]; [| discriminate].
  destruct (status body) as [s |] eqn:Hs; [| discriminate].
  destruct (results body) as [places |] eqn:Hres; [| discriminate].
  intros H. apply andb_prop in H as [Hstatus Hplaces].
  exists body, places. split; [reflexivity |]. split; [exact Hres |].
  unfold harvest, request_check. simpl. rewrite Hs, Hres. simpl.
  apply orb_prop in Hstatus. 
  assert (Hcheck : negb (String.eqb s "OK") && negb (String.eqb s "ZERO_RESULTS") = false).
  { destruct Hstatus as [-> | ->]; [reflexivity | apply andb_false_r]. }
  rewrite Hcheck. simpl. apply append_place_ids_all, Hplaces.
Qed.

(** C3: the fail-fast collector.  With [processed] the number of requests
    that the call sent: (1) a [RequestError] that the call raises carries
    the status of a processed point, a status other than "OK" and
    "ZERO_RESULTS"; (2) a processed point with such a status makes the call
    raise the [RequestError] that carries it; (3) a call that raises returns
    no list; (4) when every point succeeds the call returns a list without
    duplicates whose elements are the [place_id] values of all responses. *)
Theorem get_ids_from_grid_fail_fast (grid : list (PyFloat.float * PyFloat.float)) (w : World) :
  let run := get_ids_from_grid service grid place_type API_key w in
  let n := length (sent w) in
  let processed := (length (sent (snd run)) - n)%nat in
  (forall msg, fst run = Raise (RequestError msg) ->
     exists i p s, (i < processed)%nat /\ grid !! i = Some p /\
                   bad_status (service (n + i)%nat (url p)) s /\
                   msg = status_message s) /\
  (forall i p s, (i < processed)%nat -> grid !! i = Some p ->
     bad_status (service (n + i)%nat (url p)) s ->
     fst run = Raise (RequestError (status_message s))) /\
  (forall e, fst run = Raise e -> forall l, fst run <> Ok l) /\
  ((forall i p, grid !! i = Some p ->
      nearby_success (service (n + i)%nat (url p)) = true) ->
   exists l, fst run = Ok l /\ NoDup l /\
     forall id, id ∈ l <->
       exists i p body places place,
         grid !! i = Some p /\ service (n + i)%nat (url p) = Some body /\
         results body = Some places /\ place ∈ places /\ place_id place = Some id).
Proof.
  intros run n processed. subst run processed. unfold get_ids_from_grid.
  destruct (get_ids_loop_outcome grid [] w n eq_refl) as
    [(l & Hrun & Hall & Hmem) | (k & p & e & Hk & Hraise & Hbefore & Hrun)].
  - rewrite (bind_ok _ _ _ _ _ Hrun). unfold ret. simpl fst. simpl snd. cbn [sent after_requests].
    repeat split.
    + discriminate.
    + intros i q s _ Hq Hbad. destruct (Hall i q Hq) as [ids Hids].
      rewrite (harvest_bad_status _ _ Hbad) in Hids. discriminate.
    + discriminate.
    + intros Hsucc. exists (list_set l). split; [reflexivity |].
      unfold list_set. split; [apply NoDup_elements |].
      intros id. rewrite elem_of_elements, elem_of_list_to_set, Hmem.
      split.
      * intros [H | (i & q & ids & Hq & Hids & Hin)]; [inversion H |].
        destruct (harvest_success _ (Hsucc i q Hq)) as (body & places & Hb & Hres & Hh).
        rewrite Hh in Hids. injection Hids as <-.
        apply list_elem_of_omap in Hin as (place & Hplace & Hid).
        exists i, q, body, places, place. auto.
      * intros (i & q & body & places & place & Hq & Hb & Hres & Hplace & Hid).
        right. destruct (harvest_success _ (Hsucc i q Hq)) as (body' & places' & Hb' & Hres' & Hh).
        rewrite Hb in Hb'. injection Hb' as <-. rewrite Hres in Hres'. injection Hres' as <-.
        exists i, q, (omap place_id places). split; [exact Hq |]. split; [exact Hh |].
        apply list_elem_of_omap. eauto.
  - rewrite (bind_raise _ _ _ _ _ Hrun). simpl fst. simpl snd. cbn [sent after_requests].
    assert (Hlen : (length (sent w ++ map url (take (S k) grid)) - n = S k)%nat).
    { rewrite length_app, length_map, length_take.
      apply lookup_lt_Some in Hk. subst n. lia. }
    rewrite Hlen. repeat split.
    + intros msg H. injection H as ->.
      destruct (harvest_request_error _ _ Hraise) as (s & Hbad & ->).
      exists k, p, s. repeat split; auto.
    + intros i q s Hlt Hq Hbad.
      destruct (Nat.eq_dec i k) as [-> | Hne].
      * rewrite Hk in Hq. injection Hq as <-.
        rewrite (harvest_bad_status _ _ Hbad) in Hraise. congruence.
      * destruct (Hbefore i q) as [ids Hids]; [lia | exact Hq |].
        rewrite (harvest_bad_status _ _ Hbad) in Hids. discriminate.
    + intros e' _ l'. discriminate.
    + intros Hsucc. destruct (harvest_success _ (Hsucc k p Hk)) as (body & places & _ & _ & Hh).
      rewrite Hh in Hraise. discriminate.
Qed.

End CollectorFacts.

(** ** Strings *)

Lemma string_app_cons (c : ascii) (s t : string) : String c s +:+ t = String c (s +:+ t).
Proof. reflexivity. Qed.

Lemma string_app_nil_r (s : string) : s +:+ "" = s.
Proof.
  induction s as [| c s IH]; [reflexivity |]. rewrite string_app_cons, IH. reflexivity.
Qed.

Lemma string_app_assoc (s t u : string) : (s +:+ t) +:+ u = s +:+ t +:+ u.
Proof.
  induction s as [| c s IH]; [reflexivity |]. rewrite !string_app_cons, IH. reflexivity.
Qed.

Lemma string_length_app (s t : string) :
  String.length (s +:+ t) = (String.length s + String.length t)%nat.
Proof.
  induction s as [| c s IH]; [reflexivity |]. rewrite string_app_cons. simpl. rewrite IH.
  reflexivity.
Qed.

Lemma string_app_inv_tail (t : string) : forall s s' : string, s +:+ t = s' +:+ t -> s = s'.
Proof.
  induction s as [| c s IH]; intros [| c' s'] H.
  - reflexivity.
  - apply (f_equal String.length) in H. rewrite !string_length_app in H. simpl in H. lia.
  - apply (f_equal String.length) in H. rewrite !string_length_app in H. simpl in H. lia.
  - rewrite !string_app_cons in H. injection H as -> H. rewrite (IH s' H). reflexivity.
Qed.

Lemma pkl_path_inj (folder id id' : string) :
  pkl_path folder id = pkl_path folder id' -> id = id'.
Proof.
  unfold pkl_path. intros H.
  apply String.app_inj in H. apply String.app_inj in H.
  apply string_app_inv_tail in H. exact H.
Qed.

(** ** The fault-tolerant collector *)

Section FileCollectorFacts.

Context {PlaceRecord : Type}.
Variable service : nat -> Request -> Response PlaceRecord.
Variables place_type file_name API_key : string.

Local Abbreviation url := (nearby_url place_type API_key).

Lemma ids_to_file_loop_all_fail (grid : list (PyFloat.float * PyFloat.float)) :
  forall (i0 : nat) (errs : list (PyFloat.float * PyFloat.float)) (w : World) (n : nat),
  length (sent w) = n ->
  (forall i p, grid !! i = Some p -> check_fails (service (n + i)%nat (url p)) = true) ->
  ids_to_file_loop service place_type file_name API_key i0 grid errs w =
    (Ok None, after_requests w (map url grid)).
Proof.
  induction grid as [| point grid IH]; intros i0 errs w n Hn Hfail.
  - simpl. rewrite after_requests_nil. reflexivity.
  - simpl ids_to_file_loop. unfold bind at 1. unfold requests_request at 1.
    fold (url point). fold (after_request w (url point)).
    pose proof (Hfail 0%nat point eq_refl) as H0. rewrite Nat.add_0_r, <- Hn in H0.
    unfold check_fails in H0.
    destruct (request_check (service (length (sent w)) (url point))); [discriminate |].
    rewrite (IH _ _ _ (S n)).
    + rewrite after_requests_cons. reflexivity.
    + rewrite length_sent_after_request, Hn. reflexivity.
    + intros i p Hp. replace (S n + i)%nat with (n + S i)%nat by lia. apply Hfail. exact Hp.
Qed.

Lemma ids_to_file_loop_first_pass (grid : list (PyFloat.float * PyFloat.float)) :
  forall (k i0 : nat) (p : PyFloat.float * PyFloat.float)
         (errs : list (PyFloat.float * PyFloat.float)) (w : World) (n : nat),
  length (sent w) = n ->
  grid !! k = Some p ->
  (forall i q, (i < k)%nat -> grid !! i = Some q ->
               check_fails (service (n + i)%nat (url q)) = true) ->
  check_fails (service (n + k)%nat (url p)) = false ->
  ids_to_file_loop service place_type file_name API_key i0 grid errs w =
    record_point file_name (i0 + k) (service (n + k)%nat (url p)) (errs ++ take k grid)
      (after_requests w (map url (take (S k) grid))).
Proof.
  induction grid as [| point grid IH]; intros k i0 p errs w n Hn Hk Hbefore Hpass.
  - rewrite lookup_nil in Hk. discriminate.
  - simpl ids_to_file_loop. unfold bind at 1. unfold requests_request at 1.
    fold (url point). fold (after_request w (url point)).
    destruct k as [| k]; simpl in Hk.
    + injection Hk as <-. rewrite Nat.add_0_r, <- Hn in Hpass. unfold check_fails in Hpass.
      rewrite Nat.add_0_r, Nat.add_0_r, <- Hn.
      destruct (request_check (service (length (sent w)) (url point))); [| discriminate].
      rewrite take_0, app_nil_r. reflexivity.
    + pose proof (Hbefore 0%nat point ltac:(lia) eq_refl) as H0.
      rewrite Nat.add_0_r, <- Hn in H0. unfold check_fails in H0.
      destruct (request_check (service (length (sent w)) (url point))); [discriminate |].
      rewrite (IH k (S i0) p _ _ (S n)).
      * rewrite after_requests_cons. replace (S n + k)%nat with (n + S k)%nat by lia.
        replace (S i0 + k)%nat with (i0 + S k)%nat by lia. simpl take.
        rewrite <- app_assoc. simpl. rewrite <- surjective_pairing. reflexivity.
      * rewrite length_sent_after_request, Hn. reflexivity.
      * exact Hk.
      * intros i q Hlt Hq. replace (S n + i)%nat with (n + S i)%nat by lia.
        apply Hbefore; [lia | exact Hq].
      * replace (S n + k)%nat with (n + S k)%nat by lia. exact Hpass.
Qed.

Lemma write_places_existing (i : nat) (places : list Place) :
  forall (w : World) (content : string),
  disk w !! file_name = Some content ->
  forallb (fun place => bool_decide (is_Some (place_id place))) places = true ->
  write_places file_name i places w =
    (Ok tt, mkWorld (<[file_name := content +:+ id_lines i (omap place_id places)]> (disk w))
                    (sent w)).
Proof.
  induction places as [| place places IH]; intros w content Hfile Hids.
  - simpl. rewrite string_app_nil_r, insert_id by exact Hfile. destruct w; reflexivity.
  - simpl in Hids. apply andb_prop in Hids as [Hid Hrest].
    destruct (place_id place) as [id |] eqn:Hplace; [| discriminate Hid].
    simpl write_places. rewrite Hplace. rewrite bind_lift. simpl dict_get. cbv iota beta.
    unfold bind at 1. unfold write_append at 1. rewrite Hfile. simpl default.
    rewrite (IH _ (content +:+ str_of_nat i +:+ " " +:+ id +:+ newline)).
    + simpl disk. simpl sent. rewrite insert_insert_eq.
      simpl omap. rewrite Hplace. simpl id_lines.
      rewrite !string_app_assoc. reflexivity.
    + simpl. apply lookup_insert_eq.
    + exact Hrest.
Qed.

Lemma record_point_success (i : nat) (response : Response PlaceRecord)
    (errs : list (PyFloat.float * PyFloat.float)) (w : World) :
  nearby_success response = true ->
  exists body places,
    response = Some body /\ results body = Some places /\
    record_point file_name i response errs w =
      (Ok (Some errs),
       mkWorld (<[file_name := default "" (disk w !! file_name)
                                 +:+ id_lines i (omap place_id places)]> (disk w))
               (sent w)).
Proof.
  unfold nearby_success. destruct response as [body |]; [| discriminate].
  destruct (status body) as [s |] eqn:Hs; [| discriminate].
  destruct (results body) as [places |] eqn:Hres; [| discriminate].
  intros H. apply andb_prop in H as [_ Hplaces].
  exists body, places. split; [reflexivity |]. split; [exact Hres |].
  unfold record_point. rewrite bind_lift. simpl response_json. cbv iota beta.
  rewrite Hres, bind_lift. simpl dict_get. cbv iota beta.
  unfold bind at 1. unfold open_append at 1. unfold bind at 1.
  rewrite (write_places_existing i places _ (default "" (disk w !! file_name))).
  - simpl. rewrite insert_insert_eq. reflexivity.
  - simpl. apply lookup_insert_eq.
  - exact Hplaces.
Qed.

Lemma first_false (f : nat -> bool) (j : nat) :
  f j = false ->
  exists k, (k <= j)%nat /\ f k = false /\ forall i, (i < k)%nat -> f i = true.
Proof.
  induction j as [j IH] using lt_wf_ind. intros Hj.
  destruct (forallb f (seq 0 j)) eqn:Hall.
  - exists j. split; [lia |]. split; [exact Hj |].
    intros i Hi. rewrite forallb_forall in Hall. apply Hall, in_seq. lia.
  - assert (Hex : exists i, (i < j)%nat /\ f i = false).
    { destruct (forallb_forall f (seq 0 j)) as [_ Hback].
      destruct (existsb (fun i => negb (f i)) (seq 0 j)) eqn:Hsome.
      - apply existsb_exists in Hsome as (i & Hin & Hneg). apply in_seq in Hin.
        exists i. split; [lia |]. destruct (f i); [discriminate | reflexivity].
      - rewrite Hback in Hall; [discriminate |]. intros i Hin.
        destruct (f i) eqn:Hfi; [reflexivity |].
        assert (Hcontra : existsb (fun i => negb (f i)) (seq 0 j) = true).
        { apply existsb_exists. exists i. rewrite Hfi. auto. }
        congruence. }
    destruct Hex as (i & Hlt & Hfi).
    destruct (IH i Hlt Hfi) as (k & Hk & Hfk & Hbefore).
    exists k. split; [lia | auto].
Qed.

Lemma nearby_success_passes (response : Response PlaceRecord) :
  nearby_success response = true -> check_fails response = false.
Proof.
  unfold nearby_success, check_fails, request_check.
  destruct response as [body |]; [| discriminate]. simpl.
  destruct (status body) as [s |]; [| discriminate]. simpl.
  destruct (results body); [| discriminate].
  intros H. apply andb_prop in H as [H _]. apply orb_prop in H.
  destruct H as [-> | ->]; [reflexivity |].
  rewrite andb_false_r. reflexivity.
Qed.

Lemma write_places_frame (i : nat) (places : list Place) :
  forall w : World,
  sent (snd (write_places file_name i places w)) = sent w /\
  (forall path, path <> file_name ->
     disk (snd (write_places file_name i places w)) !! path = disk w !! path) /\
  (is_Some (disk w !! file_name) ->
   is_Some (disk (snd (write_places file_name i places w)) !! file_name)).
Proof.
  induction places as [| place places IH]; intros w; [simpl; auto |].
  simpl write_places. unfold bind, lift, write_append.
  destruct (dict_get (place_id place) "place_id") as [id | e]; [| simpl; auto].
  match goal with |- context [write_places file_name i places ?w1] =>
    destruct (IH w1) as (Hsent & Hframe & Hfile) end.
  rewrite Hsent. split; [reflexivity |]. split.
  - intros path Hpath. rewrite (Hframe path Hpath). simpl. apply lookup_insert_ne. congruence.
  - intros _. apply Hfile. simpl. rewrite lookup_insert_eq. eauto.
Qed.





(** The run of [ids_to_file_from_grid] when point [k] is the first one
    whose response passes the check, and carries its results. *)
Lemma ids_to_file_from_grid_first_pass
    (grid : list (PyFloat.float * PyFloat.float)) (w : World)
    (k : nat) (p : PyFloat.float * PyFloat.float) :
  grid !! k = Some p ->
  (forall i q, (i < k)%nat -> grid !! i = Some q ->
     check_fails (service (length (sent w) + i)%nat (url q)) = true) ->
  nearby_success (service (length (sent w) + k)%nat (url p)) = true ->
  exists body places,
    service (length (sent w) + k)%nat (url p) = Some body /\ results body = Some places /\
    ids_to_file_from_grid service grid place_type file_name API_key w =
      (Ok (Some (take k grid)),
       mkWorld (<[file_name := id_lines k (omap place_id places)]> (disk w))
               (sent w ++ map url (take (S k) grid))).
Proof.
  intros Hk Hfails Hsucc.
  unfold ids_to_file_from_grid, bind, open_truncate.
  rewrite (ids_to_file_loop_first_pass grid k 0 p []
             (mkWorld (<[file_name := ""]> (disk w)) (sent w)) (length (sent w)) eq_refl Hk Hfails
             (nearby_success_passes _ Hsucc)).
  destruct (record_point_success (0 + k) (service (length (sent w) + k)%nat (url p))
              ([] ++ take k grid)
              (after_requests (mkWorld (<[file_name := ""]> (disk w)) (sent w))
                 (map url (take (S k) grid)))
              Hsucc)
    as (body & places & Hbody & Hres & Hrun).
  exists body, places. split; [exact Hbody |]. split; [exact Hres |].
  rewrite Hrun. simpl. rewrite lookup_insert_eq, insert_insert_eq. reflexivity.
Qed.

(** C2: when some point of the grid succeeds, [ids_to_file_from_grid]
    returns right after the first point [k] that succeeds: the value is the
    list of the points before [k], which all failed, the file holds the
    lines of point [k] only, and the requests sent are those of the points
    up to [k]; no later point is processed.  A point succeeds when its
    response passes [request_check]; such a response carries its results. *)
Theorem ids_to_file_from_grid_stops_at_first_success
    (grid : list (PyFloat.float * PyFloat.float)) (w : World)
    (j : nat) (pj : PyFloat.float * PyFloat.float) :
  let n := length (sent w) in
  grid !! j = Some pj ->
  check_fails (service (n + j)%nat (url pj)) = false ->
  (forall i q, grid !! i = Some q ->
     check_fails (service (n + i)%nat (url q)) = false ->
     nearby_success (service (n + i)%nat (url q)) = true) ->
  exists k p body places,
    (k <= j)%nat /\ grid !! k = Some p /\
    (forall i q, (i < k)%nat -> grid !! i = Some q ->
       check_fails (service (n + i)%nat (url q)) = true) /\
    check_fails (service (n + k)%nat (url p)) = false /\
    service (n + k)%nat (url p) = Some body /\ results body = Some places /\
    ids_to_file_from_grid service grid place_type file_name API_key w =
      (Ok (Some (take k grid)),
       mkWorld (<[file_name := id_lines k (omap place_id places)]> (disk w))
               (sent w ++ map url (take (S k) grid))).
Proof.
  intros n Hj Hpass Hformed.
  set (f := fun i => match grid !! i with
                     | Some q => check_fails (service (n + i)%nat (url q))
                     | None => true
                     end).
  assert (Hfj : f j = false) by (unfold f; rewrite Hj; exact Hpass).
  destruct (first_false f j Hfj) as (k & Hle & Hfk & Hbefore).
  unfold f in Hfk. destruct (grid !! k) as [p |] eqn:Hk; [| discriminate].
  assert (Hfails : forall i q, (i < k)%nat -> grid !! i = Some q ->
                               check_fails (service (n + i)%nat (url q)) = true).
  { intros i q Hlt Hq. specialize (Hbefore i Hlt). unfold f in Hbefore.
    rewrite Hq in Hbefore. exact Hbefore. }
  destruct (ids_to_file_from_grid_first_pass grid w k p Hk Hfails (Hformed k p Hk Hfk))
    as (body & places & Hbody & Hres & Hrun).
  exists k, p, body, places. auto 10.
Qed.

(** C10: when no point of the grid succeeds (the grid is empty or the
    check of every response raises), [ids_to_file_from_grid] processes the
    whole grid and returns [None]: the value holds no list of failed points. *)
Theorem ids_to_file_from_grid_all_fail_returns_None
    (grid : list (PyFloat.float * PyFloat.float)) (w : World) :
  (forall i p, grid !! i = Some p ->
     check_fails (service (length (sent w) + i)%nat (url p)) = true) ->
  ids_to_file_from_grid service grid place_type file_name API_key w =
    (Ok None, mkWorld (<[file_name := ""]> (disk w)) (sent w ++ map url grid)).
Proof.
  intros Hfail. unfold ids_to_file_from_grid, bind, open_truncate.
  rewrite (ids_to_file_loop_all_fail grid 0 []
             (mkWorld (<[file_name := ""]> (disk w)) (sent w)) (length (sent w)) eq_refl Hfail).
  reflexivity.
Qed.

End FileCollectorFacts.

(** ** The detail fetcher that writes files *)

Section DetailFacts.

Context {PlaceRecord : Type}.
Variable service : nat -> Request -> Response PlaceRecord.
Variable pickle_dumps : PlaceRecord -> string.
Variables folder API_key : string.

Local Abbreviation url := (detail_url API_key).

Lemma data_to_files_loop_run (ids : list string) :
  forall (errs : list string) (w : World) (n : nat),
  length (sent w) = n ->
  (forall i id, ids !! i = Some id ->
     detail_formed (service (n + i)%nat (url id)) = true) ->
  data_to_files_loop service pickle_dumps folder API_key ids errs w =
    (Ok (errs ++ failed_ids service API_key n ids),
     mkWorld (stored service pickle_dumps folder API_key n ids (disk w)) (sent w ++ map url ids)).
Proof.
  induction ids as [| id ids IH]; intros errs w n Hn Hformed.
  - simpl. rewrite !app_nil_r. destruct w; reflexivity.
  - simpl data_to_files_loop. unfold bind at 1. unfold requests_request at 1.
    fold (url id). fold (after_request w (url id)).
    pose proof (Hformed 0%nat id eq_refl) as H0. rewrite Nat.add_0_r in H0.
    assert (Hrest : forall i id', ids !! i = Some id' ->
                      detail_formed (service (S n + i)%nat (url id')) = true).
    { intros i id' Hi. replace (S n + i)%nat with (n + S i)%nat by lia.
      apply Hformed. exact Hi. }
    assert (Hlen : length (sent (after_request w (url id))) = S n).
    { rewrite length_sent_after_request, Hn. reflexivity. }
    simpl failed_ids. simpl stored. rewrite Hn.
    unfold detail_formed, fetched in H0. unfold fetched. unfold check_fails in *.
    destruct (request_check (service n (url id))) as [[] | e].
    + simpl in H0. apply bool_decide_eq_true in H0 as [record Hrecord].
      destruct (service n (url id)) as [body |]; [| discriminate].
      rewrite bind_lift. simpl response_json. cbv iota beta.
      rewrite Hrecord, bind_lift. simpl dict_get. cbv iota beta.
      unfold bind at 1. unfold write_binary at 1.
      rewrite (IH errs _ (S n)); [| exact Hlen | exact Hrest].
      simpl. rewrite <- app_assoc. reflexivity.
    + rewrite (IH (errs ++ [id]) _ (S n) Hlen Hrest). simpl.
      rewrite <- !app_assoc. reflexivity.
Qed.

Lemma elem_of_failed_ids (ids : list string) :
  forall (n : nat) (id : string),
  id ∈ failed_ids service API_key n ids <->
  exists i, ids !! i = Some id /\ check_fails (service (n + i)%nat (url id)) = true.
Proof.
  induction ids as [| id0 ids IH]; intros n id; simpl.
  - split; [intros H; inversion H | intros (i & H & _); rewrite lookup_nil in H; discriminate].
  - assert (Hshift : id ∈ failed_ids service API_key (S n) ids <->
              exists i, ids !! i = Some id /\
                        check_fails (service (n + S i)%nat (url id)) = true).
    { rewrite IH. split; intros (i & Hi & Hf); exists i; split; auto;
        [replace (n + S i)%nat with (S n + i)%nat by lia
        | replace (S n + i)%nat with (n + S i)%nat by lia]; exact Hf. }
    destruct (check_fails (service n (url id0))) eqn:Hfail.
    + rewrite elem_of_cons, Hshift. split.
      * intros [-> | (i & Hi & Hf)].
        -- exists 0%nat. rewrite Nat.add_0_r. auto.
        -- exists (S i). auto.
      * intros ([| i] & Hi & Hf); simpl in Hi.
        -- injection Hi as ->. left. reflexivity.
        -- right. eauto.
    + rewrite Hshift. split.
      * intros (i & Hi & Hf). exists (S i). auto.
      * intros ([| i] & Hi & Hf); simpl in Hi.
        -- injection Hi as ->. rewrite Nat.add_0_r in Hf. congruence.
        -- eauto.
Qed.

Lemma stored_untouched (ids : list string) :
  forall (n : nat) (d : gmap string string) (path : string),
  (forall i id, ids !! i = Some id ->
     is_Some (fetched (service (n + i)%nat (url id))) -> pkl_path folder id <> path) ->
  stored service pickle_dumps folder API_key n ids d !! path = d !! path.
Proof.
  induction ids as [| id0 ids IH]; intros n d path Hother; simpl; [reflexivity |].
  rewrite IH.
  - pose proof (Hother 0%nat id0 eq_refl) as H0. rewrite Nat.add_0_r in H0.
    destruct (fetched (service n (url id0))); [| reflexivity].
    apply lookup_insert_ne. apply H0. eauto.
  - intros i id Hi. replace (S n + i)%nat with (n + S i)%nat by lia. apply Hother. exact Hi.
Qed.

Lemma stored_last (ids : list string) :
  forall (n : nat) (d : gmap string string) (i : nat) (id : string) (record : PlaceRecord),
  ids !! i = Some id ->
  fetched (service (n + i)%nat (url id)) = Some record ->
  (forall j id', (i < j)%nat -> ids !! j = Some id' ->
     is_Some (fetched (service (n + j)%nat (url id'))) ->
     pkl_path folder id' <> pkl_path folder id) ->
  stored service pickle_dumps folder API_key n ids d !! pkl_path folder id = Some (pickle_dumps record).
Proof.
  induction ids as [| id0 ids IH]; intros n d i id record Hi Hfetch Hlater.
  - rewrite lookup_nil in Hi. discriminate.
  - simpl. destruct i as [| i]; simpl in Hi.
    + injection Hi as ->. rewrite Nat.add_0_r in Hfetch. rewrite Hfetch.
      rewrite stored_untouched; [apply lookup_insert_eq |].
      intros j id' Hj. replace (S n + j)%nat with (n + S j)%nat by lia.
      apply Hlater; [lia | exact Hj].
    + apply (IH (S n) _ i id record Hi).
      * replace (S n + i)%nat with (n + S i)%nat by lia. exact Hfetch.
      * intros j id' Hlt Hj. replace (S n + j)%nat with (n + S j)%nat by lia.
        apply Hlater; [lia | exact Hj].
Qed.

(** Every file of the disk after the run was there before or holds a
    record that the run fetched. *)
Lemma stored_cases (ids : list string) :
  forall (n : nat) (d : gmap string string) (path : string),
  stored service pickle_dumps folder API_key n ids d !! path = d !! path \/
  exists record, stored service pickle_dumps folder API_key n ids d !! path = Some (pickle_dumps record).
Proof.
  induction ids as [| id0 ids IH]; intros n d path; simpl; [auto |].
  destruct (IH (S n)
              match fetched (service n (url id0)) with
              | Some record => <[pkl_path folder id0 := pickle_dumps record]> d
              | None => d
              end path) as [H | H]; [| auto].
  rewrite H. destruct (fetched (service n (url id0))) as [record |]; [| auto].
  destruct (decide (pkl_path folder id0 = path)) as [<- | Hne].
  - right. exists record. apply lookup_insert_eq.
  - left. apply lookup_insert_ne, Hne.
Qed.

Lemma data_to_files_loop_app (pre rest : list string) :
  forall (errs : list string) (w : World) (n : nat),
  length (sent w) = n ->
  (forall i id, pre !! i = Some id ->
     detail_formed (service (n + i)%nat (url id)) = true) ->
  data_to_files_loop service pickle_dumps folder API_key (pre ++ rest) errs w =
    data_to_files_loop service pickle_dumps folder API_key rest
      (errs ++ failed_ids service API_key n pre)
      (mkWorld (stored service pickle_dumps folder API_key n pre (disk w))
               (sent w ++ map url pre)).
Proof.
  induction pre as [| id pre IH]; intros errs w n Hn Hformed.
  - simpl. rewrite !app_nil_r. destruct w; reflexivity.
  - simpl app. simpl data_to_files_loop. unfold bind at 1. unfold requests_request at 1.
    fold (url id). fold (after_request w (url id)).
    pose proof (Hformed 0%nat id eq_refl) as H0. rewrite Nat.add_0_r in H0.
    assert (Hrest : forall i id', pre !! i = Some id' ->
                      detail_formed (service (S n + i)%nat (url id')) = true).
    { intros i id' Hi. replace (S n + i)%nat with (n + S i)%nat by lia.
      apply Hformed. exact Hi. }
    assert (Hlen : length (sent (after_request w (url id))) = S n).
    { rewrite length_sent_after_request, Hn. reflexivity. }
    simpl failed_ids. simpl stored. rewrite Hn.
    unfold detail_formed, fetched in H0. unfold fetched. unfold check_fails in *.
    destruct (request_check (service n (url id))) as [[] | e].
    + simpl in H0. apply bool_decide_eq_true in H0 as [record Hrecord].
      destruct (service n (url id)) as [body |]; [| discriminate].
      rewrite bind_lift. simpl response_json. cbv iota beta.
      rewrite Hrecord, bind_lift. simpl dict_get. cbv iota beta.
      unfold bind at 1. unfold write_binary at 1.
      rewrite (IH errs _ (S n)); [| exact Hlen | exact Hrest].
      simpl. rewrite <- app_assoc. reflexivity.
    + rewrite (IH (errs ++ [id]) _ (S n) Hlen Hrest). simpl.
      rewrite <- !app_assoc. reflexivity.
Qed.




(** The check of the code and the success of the specification agree. *)
Lemma check_fails_request_succeeds (response : Response PlaceRecord) :
  check_fails response = negb (request_succeeds response).
Proof.
  unfold check_fails, request_check, request_succeeds.
  destruct response as [body |]; [| reflexivity]. simpl.
  destruct (status body) as [s |]; [| reflexivity]. simpl.
  destruct (String.eqb s "OK"); [reflexivity |].
  destruct (String.eqb s "ZERO_RESULTS"); reflexivity.
Qed.

Lemma fetched_delivered_record (response : Response PlaceRecord) :
  fetched response =
    if request_succeeds response then delivered_record response else None.
Proof.
  unfold fetched. rewrite check_fails_request_succeeds.
  destruct (request_succeeds response) eqn:Hs; [| reflexivity].
  destruct response; [reflexivity | discriminate Hs].
Qed.

Lemma failed_ids_failing_requests (ids : list string) :
  forall n, failed_ids service API_key n ids = failing_requests service API_key n ids.
Proof.
  induction ids as [| id ids IH]; intros n; simpl; [reflexivity |].
  rewrite check_fails_request_succeeds, IH.
  destruct (request_succeeds (service n (detail_url API_key id))); reflexivity.
Qed.

(** C6: [data_from_ids_to_files] processes every identifier: it sends one
    request per identifier and returns, in order, the identifiers whose
    request failed; the record of an identifier that succeeded is in the
    file [<folder>/<id>.pkl], serialized, and no other file changes.  For
    [[x; y]] with [x] failing and [y] succeeding the value is [[x]] and the
    only file written is the one of [y].  A request succeeds when the status
    of its response is "OK" or "ZERO_RESULTS"; such a response carries its
    record under [result], as the service documents. *)
Theorem data_from_ids_to_files_processes_all (ids : list string) (w : World) :
  let n := length (sent w) in
  (forall i id, ids !! i = Some id ->
     request_succeeds (service (n + i)%nat (url id)) = true ->
     is_Some (delivered_record (service (n + i)%nat (url id)))) ->
  exists errs d',
    data_from_ids_to_files service pickle_dumps ids folder API_key w =
      (Ok errs, mkWorld d' (sent w ++ map url ids)) /\
    errs = failing_requests service API_key n ids /\
    (forall id, id ∈ errs <->
       exists i, ids !! i = Some id /\
                 request_succeeds (service (n + i)%nat (url id)) = false) /\
    (forall i id record,
       ids !! i = Some id ->
       request_succeeds (service (n + i)%nat (url id)) = true ->
       delivered_record (service (n + i)%nat (url id)) = Some record ->
       (forall j, (i < j)%nat -> ids !! j = Some id ->
          request_succeeds (service (n + j)%nat (url id)) = false) ->
       d' !! (folder +:+ "/" +:+ id +:+ ".pkl") = Some (pickle_dumps record)) /\
    (forall path,
       (forall i id, ids !! i = Some id ->
          request_succeeds (service (n + i)%nat (url id)) = true ->
          folder +:+ "/" +:+ id +:+ ".pkl" <> path) ->
       d' !! path = disk w !! path) /\
    (forall x y record,
       ids = [x; y] ->
       request_succeeds (service n (url x)) = false ->
       request_succeeds (service (S n) (url y)) = true ->
       delivered_record (service (S n) (url y)) = Some record ->
       errs = [x] /\
       d' = <[folder +:+ "/" +:+ y +:+ ".pkl" := pickle_dumps record]> (disk w)).
Proof.
  intros n Hcontract.
  assert (Hformed : forall i id, ids !! i = Some id ->
            detail_formed (service (n + i)%nat (url id)) = true).
  { intros i id Hi. unfold detail_formed.
    rewrite check_fails_request_succeeds, fetched_delivered_record.
    destruct (request_succeeds (service (n + i)%nat (url id))) eqn:Hs; [| reflexivity].
    simpl. apply bool_decide_eq_true. apply (Hcontract i id Hi Hs). }
  assert (Hsome : forall response : Response PlaceRecord,
            is_Some (fetched response) -> request_succeeds response = true).
  { intros response [record Hrecord]. rewrite fetched_delivered_record in Hrecord.
    destruct (request_succeeds response); [reflexivity | discriminate]. }
  exists (failed_ids service API_key n ids), (stored service pickle_dumps folder API_key n ids (disk w)).
  split.
  { unfold data_from_ids_to_files.
    rewrite (data_to_files_loop_run ids [] w n eq_refl Hformed). reflexivity. }
  split; [apply failed_ids_failing_requests |].
  split.
  { intros id. rewrite elem_of_failed_ids. split; intros (i & Hi & Hf); exists i; split; auto.
    - rewrite check_fails_request_succeeds in Hf. apply negb_true_iff in Hf. exact Hf.
    - rewrite check_fails_request_succeeds, Hf. reflexivity. }
  split.
  { intros i id record Hi Hs Hrecord Hlater.
    apply (stored_last ids n (disk w) i id record Hi).
    - rewrite fetched_delivered_record, Hs. exact Hrecord.
    - intros j id' Hlt Hj Hfetched Hpath.
      apply pkl_path_inj in Hpath. subst id'.
      pose proof (Hlater j Hlt Hj) as Hfails.
      rewrite (Hsome _ Hfetched) in Hfails. discriminate. }
  split.
  { intros path Hother. apply stored_untouched.
    intros i id Hi Hfetched. apply (Hother i id Hi). apply Hsome, Hfetched. }
  intros x y record -> Hx Hy Hrecord.
  cbn [failed_ids stored].
  rewrite !check_fails_request_succeeds, !fetched_delivered_record, Hx, Hy, Hrecord.
  auto.
Qed.

End DetailFacts.

(** ** Paths and directory entries *)

Lemma no_slash_app (s t : string) : no_slash (s +:+ t) = no_slash s && no_slash t.
Proof.
  induction s as [| c s IH]; [reflexivity |]. rewrite string_app_cons. simpl.
  rewrite IH, andb_assoc. reflexivity.
Qed.

Lemma first_component_no_slash (s : string) : no_slash s = true -> first_component s = s.
Proof.
  induction s as [| c s IH]; [reflexivity |]. simpl. intros H.
  apply andb_prop in H as [Hc Hs]. destruct (Ascii.eqb c slash); [discriminate |].
  rewrite (IH Hs). reflexivity.
Qed.

Lemma no_slash_first_component (s : string) : no_slash (first_component s) = true.
Proof.
  induction s as [| c s IH]; [reflexivity |]. simpl.
  destruct (Ascii.eqb c slash) eqn:Hc; [reflexivity |]. simpl. rewrite Hc, IH. reflexivity.
Qed.

Lemma no_slash_starts (s : string) : no_slash s = true -> starts_with_slash s = false.
Proof.
  destruct s as [| c s]; [reflexivity |]. simpl. intros H.
  apply andb_prop in H as [Hc _]. destruct (Ascii.eqb c slash); [discriminate | reflexivity].
Qed.

Lemma strip_prefix_app (p s : string) : strip_prefix p (p +:+ s) = Some s.
Proof.
  induction p as [| c p IH]; [reflexivity |]. rewrite string_app_cons. simpl.
  rewrite Ascii.eqb_refl. exact IH.
Qed.

Lemma dir_prefix_plain (folder : string) :
  ends_with_slash folder = false -> dir_prefix folder = folder +:+ "/".
Proof. intros H. unfold dir_prefix. rewrite H. reflexivity. Qed.

Lemma os_path_join_plain (folder name : string) :
  folder <> "" -> ends_with_slash folder = false -> no_slash name = true ->
  os_path_join folder name = folder +:+ "/" +:+ name.
Proof.
  intros Hne Hend Hname. unfold os_path_join.
  rewrite (no_slash_starts _ Hname), Hend. destruct folder; [congruence | reflexivity].
Qed.

Lemma entry_name_child (folder name : string) :
  ends_with_slash folder = false -> no_slash name = true -> name <> "" ->
  entry_name folder (folder +:+ "/" +:+ name) = Some name.
Proof.
  intros Hend Hname Hne. unfold entry_name.
  rewrite (dir_prefix_plain _ Hend), <- string_app_assoc, strip_prefix_app.
  rewrite (first_component_no_slash _ Hname). destruct name; [congruence | reflexivity].
Qed.

Lemma entry_name_plain (folder path name : string) :
  entry_name folder path = Some name -> no_slash name = true /\ name <> "".
Proof.
  unfold entry_name. destruct (strip_prefix (dir_prefix folder) path) as [rest |]; [| discriminate].
  pose proof (no_slash_first_component rest) as H.
  destruct (first_component rest) as [| c s]; [discriminate |].
  intros Heq. injection Heq as <-. split; [exact H | discriminate].
Qed.

(** ** Reading a folder of records back *)

Section ReadBackFacts.

Context {PlaceRecord : Type}.
Variable pickle_loads : string -> result PlaceRecord.
Variable folder : string.

Lemma elem_of_listdir (w : World) (name : string) :
  name ∈ remove_dups (omap (entry_name folder) (map fst (map_to_list (disk w)))) <->
  exists path, is_Some (disk w !! path) /\ entry_name folder path = Some name.
Proof.
  rewrite elem_of_remove_dups, list_elem_of_omap. split.
  - intros (path & Hin & Hname). exists path. split; [| exact Hname].
    apply list_elem_of_In, in_map_iff in Hin as ([path' data] & Hfst & Hin).
    simpl in Hfst. subst path'. apply list_elem_of_In, elem_of_map_to_list in Hin. eauto.
  - intros (path & [data Hdata] & Hname). exists path. split; [| exact Hname].
    apply list_elem_of_In, in_map_iff. exists (path, data). split; [reflexivity |].
    apply list_elem_of_In, elem_of_map_to_list. exact Hdata.
Qed.

Lemma regular_files_run (names : list string) (w : World) :
  regular_files folder names w =
    (Ok (List.filter (fun f => bool_decide (is_Some (disk w !! os_path_join folder f))) names), w).
Proof.
  induction names as [| f names IH]; [reflexivity |].
  simpl regular_files. unfold bind at 1. unfold os_path_isfile at 1.
  unfold bind at 1. rewrite IH. unfold ret. simpl.
  destruct (bool_decide (is_Some (disk w !! os_path_join folder f))); reflexivity.
Qed.

Lemma load_files_run (files : list string) (w : World) :
  forall acc : list PlaceRecord,
  (forall f, f ∈ files ->
     exists data v, disk w !! os_path_join folder f = Some data /\ pickle_loads data = Ok v) ->
  exists records,
    load_files pickle_loads folder files acc w = (Ok (acc ++ records), w) /\
    forall f data v, f ∈ files -> disk w !! os_path_join folder f = Some data ->
                     pickle_loads data = Ok v -> v ∈ records.
Proof.
  induction files as [| f files IH]; intros acc Hload.
  - exists []. simpl. rewrite app_nil_r. split; [reflexivity |].
    intros f data v H. inversion H.
  - destruct (Hload f) as (data & v & Hdata & Hv); [left |].
    destruct (IH (acc ++ [v])) as (records & Hrun & Hmem).
    { intros f' Hf'. apply Hload. right. exact Hf'. }
    exists (v :: records). split.
    + simpl load_files. unfold bind at 1. unfold read_file at 1. rewrite Hdata.
      rewrite bind_lift, Hv, Hrun, <- app_assoc. reflexivity.
    + intros f' data' v' Hin Hdata' Hv'. apply elem_of_cons in Hin as [-> | Hin].
      * rewrite Hdata in Hdata'. injection Hdata' as <-. rewrite Hv in Hv'.
        injection Hv' as <-. left.
      * right. apply (Hmem f' data' v' Hin Hdata' Hv').
Qed.

(** Reading back a folder whose files all load gives every record of it. *)
Lemma pkl_files_read_back (w : World) (name : string) (record : PlaceRecord) (data : string) :
  folder <> "" -> ends_with_slash folder = false ->
  (forall f content, no_slash f = true -> disk w !! (folder +:+ "/" +:+ f) = Some content ->
     exists v, pickle_loads content = Ok v) ->
  no_slash name = true -> name <> "" ->
  disk w !! (folder +:+ "/" +:+ name) = Some data ->
  pickle_loads data = Ok record ->
  exists records,
    pkl_files_to_list_of_dicts pickle_loads folder w = (Ok records, w) /\ record ∈ records.
Proof.
  intros Hne Hend Hall Hname Hname' Hdata Hload.
  unfold pkl_files_to_list_of_dicts. unfold bind at 1. unfold os_listdir at 1.
  set (names := remove_dups (omap (entry_name folder) (map fst (map_to_list (disk w))))).
  unfold bind at 1. rewrite regular_files_run.
  set (files := List.filter _ names).
  assert (Hfiles : forall f, f ∈ files <->
            f ∈ names /\ is_Some (disk w !! os_path_join folder f)).
  { intros f. subst files. rewrite list_elem_of_In, filter_In, <- list_elem_of_In.
    rewrite bool_decide_eq_true. reflexivity. }
  destruct (load_files_run files w []) as (records & Hrun & Hmem).
  { intros f Hf. apply Hfiles in Hf as [Hin [content Hcontent]].
    apply elem_of_listdir in Hin as (path & _ & Hentry).
    apply entry_name_plain in Hentry as [Hplain _].
    rewrite (os_path_join_plain _ _ Hne Hend Hplain) in Hcontent |- *.
    destruct (Hall f content Hplain Hcontent) as [v Hv]. eauto. }
  exists records. split; [exact Hrun |].
  apply (Hmem name data record).
  - apply Hfiles. split.
    + apply elem_of_listdir. exists (folder +:+ "/" +:+ name). split; [eauto |].
      apply entry_name_child; assumption.
    + rewrite (os_path_join_plain _ _ Hne Hend Hname). eauto.
  - rewrite (os_path_join_plain _ _ Hne Hend Hname). exact Hdata.
  - exact Hload.
Qed.

End ReadBackFacts.

(** ** Persisting a record and reading it back *)

Section RoundTrip.

Context {PlaceRecord : Type}.
Variable service : nat -> Request -> Response PlaceRecord.
Variable pickle_dumps : PlaceRecord -> string.
Variable pickle_loads : string -> result PlaceRecord.
Variables folder API_key : string.

(** C9: a record that [data_from_ids_to_files] persists, as the file
    [<folder>/<id>.pkl], is among the records that
    [pkl_files_to_list_of_dicts] reads back from the folder, equal to the
    original.  The environment is the documented one: [pickle.loads] undoes
    [pickle.dumps], the folder is given with no final slash, the identifier
    is a file name (it has no slash), and the files that were in the folder
    before are pickled records too. *)
Theorem pickled_record_reads_back (ids : list string) (w : World)
    (i : nat) (id : string) (record : PlaceRecord) :
  let n := length (sent w) in
  (forall v, pickle_loads (pickle_dumps v) = Ok v) ->
  folder <> "" -> ends_with_slash folder = false ->
  no_slash id = true ->
  (forall f content, no_slash f = true -> disk w !! (folder +:+ "/" +:+ f) = Some content ->
     exists v, pickle_loads content = Ok v) ->
  (forall j id', ids !! j = Some id' ->
     detail_formed (service (n + j)%nat (detail_url API_key id')) = true) ->
  ids !! i = Some id ->
  fetched (service (n + i)%nat (detail_url API_key id)) = Some record ->
  (forall j, (i < j)%nat -> ids !! j = Some id ->
     fetched (service (n + j)%nat (detail_url API_key id)) = None) ->
  exists errs w' records,
    data_from_ids_to_files service pickle_dumps ids folder API_key w = (Ok errs, w') /\
    disk w' !! pkl_path folder id = Some (pickle_dumps record) /\
    pkl_files_to_list_of_dicts pickle_loads folder w' = (Ok records, w') /\
    record ∈ records.
Proof.
  intros n Hpickle Hne Hend Hid Hdisk Hformed Hi Hfetch Hlast.
  set (d' := stored service pickle_dumps folder API_key n ids (disk w)).
  set (w' := mkWorld d' (sent w ++ map (detail_url API_key) ids)).
  assert (Hfile : d' !! pkl_path folder id = Some (pickle_dumps record)).
  { apply (stored_last service pickle_dumps folder API_key ids n (disk w) i id record Hi Hfetch).
    intros j id' Hlt Hj [record' Hsome] Hpath.
    apply pkl_path_inj in Hpath. subst id'.
    rewrite (Hlast j Hlt Hj) in Hsome. discriminate. }
  assert (Hloadable : forall f content, no_slash f = true ->
            disk w' !! (folder +:+ "/" +:+ f) = Some content ->
            exists v, pickle_loads content = Ok v).
  { intros f content Hf Hcontent. simpl in Hcontent.
    destruct (stored_cases service pickle_dumps folder API_key ids n (disk w)
                (folder +:+ "/" +:+ f)) as [Hsame | [record' Hnew]].
    - fold d' in Hsame. rewrite Hsame in Hcontent. apply (Hdisk f content Hf Hcontent).
    - fold d' in Hnew. rewrite Hnew in Hcontent. injection Hcontent as <-.
      exists record'. apply Hpickle. }
  assert (Hname : no_slash (id +:+ ".pkl") = true).
  { rewrite no_slash_app, Hid. reflexivity. }
  assert (Hname' : id +:+ ".pkl" <> "").
  { intros H. apply (f_equal String.length) in H. rewrite string_length_app in H.
    simpl in H. lia. }
  destruct (pkl_files_read_back pickle_loads folder w' (id +:+ ".pkl") record
              (pickle_dumps record) Hne Hend Hloadable Hname Hname' Hfile (Hpickle record))
    as (records & Hread & Hin).
  exists (failed_ids service API_key n ids), w', records.
  split.
  { unfold data_from_ids_to_files.
    rewrite (data_to_files_loop_run service pickle_dumps folder API_key ids [] w n eq_refl Hformed).
    reflexivity. }
  auto.
Qed.

End RoundTrip.

(** ** The identifier aggregator *)

Lemma ids_of_lines_raises (lines : list string) :
  forall (ids : list string) (e : exn), ids_of_lines lines ids = Raise e -> e = IndexError.
Proof.
  induction lines as [| line lines IH]; intros ids e; simpl; [discriminate |].
  unfold getitem. destruct (split line !! 1%nat) as [id |]; simpl.
  - apply IH.
  - intros H. injection H as <-. reflexivity.
Qed.

Lemma split_starts (c : ascii) (rest : string) :
  isspace c = false -> split (String c rest) <> [].
Proof.
  intros Hc. simpl. rewrite Hc.
  destruct rest as [| c' rest']; [discriminate |].
  destruct (isspace c'); [discriminate |].
  destruct (split (String c' rest')); discriminate.
Qed.

(** [split] returns as many words as the text has tokens. *)
Lemma length_split (s : string) : length (split s) = token_count s.
Proof.
  unfold token_count. induction s as [| c rest IH]; [reflexivity |].
  cbn [tokens_from]. destruct (isspace c) eqn:Hc.
  - simpl. rewrite Hc. exact IH.
  - destruct rest as [| c' rest'].
    + simpl. rewrite Hc. reflexivity.
    + cbn [tokens_from] in IH |- *.
      change (split (String c (String c' rest')))
        with (if isspace c then split (String c' rest')
              else if isspace c' then String c EmptyString :: split (String c' rest')
                   else match split (String c' rest') with
                        | t :: ts => String c t :: ts
                        | [] => [String c EmptyString]
                        end).
      rewrite Hc. destruct (isspace c') eqn:Hc'.
      * cbn [length]. rewrite IH. reflexivity.
      * pose proof (split_starts c' rest' Hc') as Hne.
        destruct (split (String c' rest')) as [| t ts]; [congruence |].
        cbn [length] in IH |- *. rewrite IH. reflexivity.
Qed.

Lemma ids_of_lines_malformed (lines : list string) :
  forall ids : list string,
  (exists line, line ∈ lines /\ malformed line = true) ->
  ids_of_lines lines ids = Raise IndexError.
Proof.
  induction lines as [| line lines IH]; intros ids (bad & Hin & Hbad).
  - inversion Hin.
  - simpl. unfold getitem. destruct (split line !! 1%nat) as [id |] eqn:Hsecond; simpl.
    + apply IH. exists bad. split; [| exact Hbad].
      apply elem_of_cons in Hin as [-> | Hin]; [| exact Hin].
      unfold malformed in Hbad. apply Nat.ltb_lt in Hbad. rewrite <- length_split in Hbad.
      apply lookup_lt_Some in Hsecond. lia.
    + reflexivity.
Qed.

Lemma ids_of_files_malformed (files : list string) (w : World) :
  forall ids : list string,
  (forall f, f ∈ files -> is_Some (disk w !! f)) ->
  (exists f content line,
     f ∈ files /\ disk w !! f = Some content /\
     line ∈ readlines content /\ malformed line = true) ->
  ids_of_files files ids w = (Raise IndexError, w).
Proof.
  induction files as [| file_name files IH]; intros ids Hthere (f & content & line & Hf & Hc & Hl & Hbad).
  - inversion Hf.
  - simpl ids_of_files. unfold bind at 1. unfold read_file at 1.
    destruct (Hthere file_name) as [content0 Hcontent0]; [left |]. rewrite Hcontent0.
    rewrite bind_lift.
    destruct (ids_of_lines (readlines content0) ids) as [ids' | e] eqn:Hlines.
    + apply IH.
      * intros f' Hf'. apply Hthere. right. exact Hf'.
      * exists f, content, line. split; [| auto].
        apply elem_of_cons in Hf as [-> | Hf]; [| exact Hf].
        rewrite Hc in Hcontent0. injection Hcontent0 as <-.
        rewrite ids_of_lines_malformed in Hlines by eauto. discriminate.
    + rewrite (ids_of_lines_raises _ _ _ Hlines). reflexivity.
Qed.

(** C8, amended: when every file can be opened and holds ASCII text, and
    some line of some file has no second token,
    [get_unique_ids_from_files] fails, with the built-in [IndexError], and
    returns no identifiers; no line is skipped. *)
Theorem get_unique_ids_from_files_malformed_line (files : list string) (w : World) :
  (forall f, f ∈ files ->
     exists content, disk w !! f = Some content /\ ascii_text content = true) ->
  (exists f content line,
     f ∈ files /\ disk w !! f = Some content /\
     line ∈ readlines content /\ malformed line = true) ->
  get_unique_ids_from_files files w = (Raise IndexError, w).
Proof.
  intros Hascii Hbad.
  assert (Hthere : forall f, f ∈ files -> is_Some (disk w !! f)).
  { intros f Hf. destruct (Hascii f Hf) as (content & Hcontent & _). eauto. }
  unfold get_unique_ids_from_files.
  apply bind_raise. apply ids_of_files_malformed; assumption.
Qed.

(** ** What the fault-tolerant paths catch *)

Section FaultTolerance.

Context {PlaceRecord : Type}.
Variable service : nat -> Request -> Response PlaceRecord.
Variable pickle_dumps : PlaceRecord -> string.
Variables place_type file_name folder API_key : string.


End FaultTolerance.

(** ** Sample runs *)

Module SampleRuns.
Import Samples.

Lemma get_ids_from_grid_fail_fast_witness :
  exists l, fst (get_ids_from_grid finding [p0; p1] "restaurant" "K" empty_world) = Ok l /\
    NoDup l /\
    forall id, id ∈ l <->
      exists i p body places place,
        [p0; p1] !! i = Some p /\
        finding (0 + i)%nat (nearby_url "restaurant" "K" p) = Some body /\
        results body = Some places /\ place ∈ places /\ place_id place = Some id.
Proof.
  pose proof (get_ids_from_grid_fail_fast finding "restaurant" "K" [p0; p1] empty_world) as H.
  cbv zeta in H. destruct H as (_ & _ & _ & H). apply H.
  intros [| [| i]] p Hp; simpl in Hp; try discriminate; injection Hp as <-; reflexivity.
Defined.

Lemma ids_to_file_from_grid_stops_at_first_success_witness :
  exists k p body places,
    (k <= 2)%nat /\ [p0; p1; p2; p0] !! k = Some p /\
    (forall i q, (i < k)%nat -> [p0; p1; p2; p0] !! i = Some q ->
       check_fails (flaky (0 + i)%nat (nearby_url "restaurant" "K" q)) = true) /\
    check_fails (flaky (0 + k)%nat (nearby_url "restaurant" "K" p)) = false /\
    flaky (0 + k)%nat (nearby_url "restaurant" "K" p) = Some body /\
    results body = Some places /\
    ids_to_file_from_grid flaky [p0; p1; p2; p0] "restaurant" "ids.txt" "K" empty_world =
      (Ok (Some (take k [p0; p1; p2; p0])),
       mkWorld (<["ids.txt" := id_lines k (omap place_id places)]> ∅)
               ([] ++ map (nearby_url "restaurant" "K") (take (S k) [p0; p1; p2; p0]))).
Proof.
  apply (ids_to_file_from_grid_stops_at_first_success flaky "restaurant" "ids.txt" "K"
           [p0; p1; p2; p0] empty_world 2 p2).
  - reflexivity.
  - reflexivity.
  - intros [| [| [| [| i]]]] q Hq; simpl in Hq; try discriminate; injection Hq as <-;
      vm_compute; auto.
Defined.

Lemma ids_to_file_from_grid_all_fail_returns_None_witness :
  ids_to_file_from_grid failing [p0; p1] "restaurant" "ids.txt" "K" empty_world =
    (Ok None,
     mkWorld (<["ids.txt" := ""]> ∅) ([] ++ map (nearby_url "restaurant" "K") [p0; p1])).
Proof.
  apply (ids_to_file_from_grid_all_fail_returns_None failing "restaurant" "ids.txt" "K"
           [p0; p1] empty_world).
  intros [| [| i]] p Hp; simpl in Hp; try discriminate; injection Hp as <-; reflexivity.
Defined.

Lemma data_from_ids_to_files_processes_all_witness :
  data_from_ids_to_files MoreSamples.grudging dumps ["x"; "y"] "places" "K" empty_world =
    (Ok ["x"],
     mkWorld {[ "places/y.pkl" := "record of y" ]} [PlaceDetails "x" "K"; PlaceDetails "y" "K"]).
Proof.
  pose proof (data_from_ids_to_files_processes_all MoreSamples.grudging dumps "places" "K"
                ["x"; "y"] empty_world) as H.
  cbv zeta in H. destruct H as (errs & d' & Hrun & _ & _ & _ & _ & Hxy).
  - intros [| [| i]] id Hid Hs; simpl in Hid; try discriminate; injection Hid as <-;
      eexists; reflexivity.
  - destruct (Hxy "x" "y" "record of y" eq_refl eq_refl eq_refl eq_refl) as [-> ->].
    exact Hrun.
Defined.

Lemma pickled_record_reads_back_witness :
  exists errs w' records,
    data_from_ids_to_files flaky dumps ["x"; "y"; "z"] "places" "K" empty_world = (Ok errs, w') /\
    disk w' !! pkl_path "places" "z" = Some (dumps "record of z") /\
    pkl_files_to_list_of_dicts loads "places" w' = (Ok records, w') /\
    "record of z" ∈ records.
Proof.
  apply (pickled_record_reads_back flaky dumps loads "places" "K"
           ["x"; "y"; "z"] empty_world 2 "z" "record of z").
  - intros v. reflexivity.
  - discriminate.
  - reflexivity.
  - reflexivity.
  - intros f content _ _. exists content. reflexivity.
  - intros [| [| [| j]]] id Hid; simpl in Hid; try discriminate; injection Hid as <-;
      reflexivity.
  - reflexivity.
  - reflexivity.
  - intros [| [| [| j]]] Hlt Hj; simpl in Hj; try discriminate; lia.
Defined.



(** C8 as stated fails: the malformed line is answered with an
    [IndexError], which names neither the file nor the line, and not with a
    [ParseError]. *)
Lemma malformed_line_raises_IndexError :
  fst (get_unique_ids_from_files ["ids.txt"] broken_ids) = Raise IndexError /\
  ~ (exists e, fst (get_unique_ids_from_files ["ids.txt"] broken_ids) = Raise e /\
               exn_class e = "ParseError").
Proof.
  assert (H : fst (get_unique_ids_from_files ["ids.txt"] broken_ids) = Raise IndexError)
    by (vm_compute; reflexivity).
  split; [exact H |].
  intros (e & He & Hclass). rewrite H in He. injection He as <-. discriminate Hclass.
Qed.

Lemma get_unique_ids_from_files_malformed_line_witness :
  get_unique_ids_from_files ["ids.txt"] broken_ids = (Raise IndexError, broken_ids).
Proof.
  apply (get_unique_ids_from_files_malformed_line ["ids.txt"] broken_ids).
  - intros f Hf. apply list_elem_of_singleton in Hf as ->. eexists. split; reflexivity.
  - exists "ids.txt", ("0 abc" +:+ newline +:+ "1" +:+ newline), ("1" +:+ newline).
    split; [left |]. split; [reflexivity |]. split; [right; left | reflexivity].
Defined.

End SampleRuns.

(** * Further properties *)

(** ** Grids with steps and grids without points *)

Module GridMore.
Import PyFloat Geopy Grid GridFacts.

Lemma lookup_map {A B} (f : A -> B) (l : list A) (i : nat) :
  map f l !! i = f <$> (l !! i).
Proof.
  revert i. induction l as [| x l IH]; intros [| i]; simpl; try reflexivity. apply IH.
Qed.

Lemma lookup_range (n : Z) (i : nat) :
  (i < Z.to_nat n)%nat -> range n !! i = Some (Z.of_nat i).
Proof.
  intros Hi. unfold range. rewrite lookup_map, lookup_seq_lt by exact Hi. reflexivity.
Qed.

(** The element [b] of row [a] of rows of length [k] laid end to end. *)
Lemma lookup_rows {A B} (g : A -> list B) (k : nat) (xs : list A) :
  (forall x, length (g x) = k) ->
  forall (a b : nat) (x : A),
  xs !! a = Some x -> (b < k)%nat -> flat_map g xs !! (a * k + b)%nat = g x !! b.
Proof.
  intros Hg. induction xs as [| x0 xs IH]; intros a b x Ha Hb.
  - rewrite lookup_nil in Ha. discriminate.
  - simpl flat_map. destruct a as [| a]; simpl in Ha.
    + injection Ha as ->. simpl. apply lookup_app_l. rewrite Hg. exact Hb.
    + rewrite lookup_app_r by (rewrite Hg; lia).
      rewrite Hg. replace (S a * k + b - k)%nat with (a * k + b)%nat by lia.
      apply IH; assumption.
Qed.

Lemma for_each_no_points {A B} (xs : list A) (body : A -> list B -> result (list B)) :
  (forall x acc, body x acc = Ok acc) -> forall acc, for_each body xs acc = Ok acc.
Proof.
  intros Hbody. induction xs as [| x xs IH]; intros acc; simpl; [reflexivity |].
  rewrite Hbody. apply IH.
Qed.

(** With at least one step along each axis, the grid that [gridMaker]
    returns has [(npx + 1) * (npy + 1)] points, and the point at the index
    [i * (npy + 1) + j] is the point [(i, j)] of the lattice: the points
    come row by row, [i] outer and [j] inner.  The corners are those that
    geopy has accepted. *)
Theorem gridMaker_point_at_index (geodesic_km : Point -> Point -> float)
    (c t b : float * float) (x_step y_step : float)
    (center top_left bottom_right : Point) (npx npy : Z) :
  geopy_Point (fst c) (snd c) = Ok center ->
  geopy_Point (fst t) (snd t) = Ok top_left ->
  geopy_Point (fst b) (snd b) = Ok bottom_right ->
  grid_steps (geodesic_km center bottom_right) (geodesic_km center top_left)
             x_step y_step = Ok (npx, npy) ->
  1 <= npx -> 1 <= npy ->
  exists grid,
    gridMaker geodesic_km c t b x_step y_step = Ok grid /\
    length grid = Z.to_nat ((npx + 1) * (npy + 1)) /\
    forall i j, 0 <= i <= npx -> 0 <= j <= npy ->
      exists point,
        lattice_point center top_left bottom_right npx npy i j = Some point /\
        grid !! Z.to_nat (i * (npy + 1) + j) = Some point.
Proof.
  intros Hc Ht Hb Hsteps Hx Hy.
  destruct (gridMaker_regular_grid geodesic_km c t b x_step y_step center top_left
              bottom_right npx npy Hc Ht Hb Hsteps Hx Hy)
    as (grid & Hrun & Hgrid & Hpoints & Hlen & _).
  exists grid. split; [exact Hrun |]. split; [exact Hlen |].
  intros i j Hi Hj.
  exists (point_value (lattice_point center top_left bottom_right npx npy i j)).
  split; [apply Hpoints; assumption |].
  rewrite Hgrid.
  replace (Z.to_nat (i * (npy + 1) + j))
    with (Z.to_nat i * Z.to_nat (npy + 1) + Z.to_nat j)%nat by nia.
  rewrite (lookup_rows _ (Z.to_nat (npy + 1)) _ ltac:(intros; rewrite length_map; apply length_range)
             (Z.to_nat i) (Z.to_nat j) i).
  - rewrite lookup_map, lookup_range by lia. simpl. rewrite Z2Nat.id by lia. reflexivity.
  - rewrite lookup_range by lia. rewrite Z2Nat.id by lia. reflexivity.
  - lia.
Qed.

Lemma feqb_or_zero (x y : float) : feqb x (or_zero y) = feqb x y.
Proof. destruct x, y; reflexivity. Qed.

(** With at least one step along each axis and finite differences between
    the corners, the first point of the grid that [gridMaker] returns is the
    centre as geopy has normalised it: its latitude equals the latitude
    given, its longitude equals the longitude of the point of geopy, which
    is the longitude given when that one is within 180 degrees. *)
Theorem gridMaker_first_point_is_centre (geodesic_km : Point -> Point -> float)
    (c t b : float * float) (x_step y_step : float)
    (center top_left bottom_right : Point) (npx npy : Z) :
  geopy_Point (fst c) (snd c) = Ok center ->
  geopy_Point (fst t) (snd t) = Ok top_left ->
  geopy_Point (fst b) (snd b) = Ok bottom_right ->
  grid_steps (geodesic_km center bottom_right) (geodesic_km center top_left)
             x_step y_step = Ok (npx, npy) ->
  1 <= npx -> 1 <= npy ->
  is_finite (longitude center) = true ->
  is_finite (fsub (latitude bottom_right) (latitude center)) = true ->
  is_finite (fsub (longitude bottom_right) (longitude center)) = true ->
  is_finite (fsub (latitude top_left) (latitude center)) = true ->
  is_finite (fsub (longitude top_left) (longitude center)) = true ->
  exists lat lon rest,
    gridMaker geodesic_km c t b x_step y_step = Ok ((lat, lon) :: rest) /\
    feqb lat (fst c) = true /\ feqb lon (longitude center) = true /\
    (SFltb (of_Z 180) (SFabs (snd c)) = false -> feqb lon (snd c) = true).
Proof.
  intros Hc Ht Hb Hsteps Hx Hy Hc2 Hb1 Hb2 Ht1 Ht2.
  destruct (gridMaker_regular_grid geodesic_km c t b x_step y_step center top_left
              bottom_right npx npy Hc Ht Hb Hsteps Hx Hy)
    as (grid & Hrun & _ & _ & _ & Hfirst).
  destruct (Hfirst Hc2 Hb1 Hb2 Ht1 Ht2) as (lat & lon & rest & -> & Hlat & Hlon).
  destruct (geopy_Point_accepted _ _ _ Hc) as (Hclat & _ & Hclon).
  exists lat, lon, rest. split; [exact Hrun |].
  split; [rewrite Hclat, feqb_or_zero in Hlat; exact Hlat |].
  split; [exact Hlon |].
  intros Hrange. rewrite (Hclon Hrange), feqb_or_zero in Hlon. exact Hlon.
Qed.

(** When the number of steps along one axis is negative (a step of the
    opposite sign of the distance), [gridMaker] raises nothing and returns a
    grid without points. *)
Theorem gridMaker_negative_count_empty (geodesic_km : Point -> Point -> float)
    (c t b : float * float) (x_step y_step : float)
    (center top_left bottom_right : Point) (npx npy : Z) :
  geopy_Point (fst c) (snd c) = Ok center ->
  geopy_Point (fst t) (snd t) = Ok top_left ->
  geopy_Point (fst b) (snd b) = Ok bottom_right ->
  grid_steps (geodesic_km center bottom_right) (geodesic_km center top_left)
             x_step y_step = Ok (npx, npy) ->
  npx < 0 \/ npy < 0 ->
  gridMaker geodesic_km c t b x_step y_step = Ok [].
Proof.
  intros Hc Ht Hb Hsteps Hneg.
  rewrite (gridMaker_accepted _ _ _ _ _ _ _ _ _ Hc Ht Hb), Hsteps, rbind_ok.
  simpl fst. simpl snd.
  destruct (Z_lt_dec npx 0) as [Hx | Hx].
  - rewrite (range_nonpos (npx + 1)) by lia. reflexivity.
  - assert (Hy : npy < 0) by lia.
    rewrite (range_nonpos (npy + 1)) by lia.
    apply for_each_no_points. reflexivity.
Qed.

(** A corner that geopy refuses (a coordinate that is not finite, a
    latitude beyond 90 degrees) makes [gridMaker] raise [ValueError],
    whatever the steps: the corners are checked before the steps are read. *)
Theorem gridMaker_refused_corner_raises (geodesic_km : Point -> Point -> float)
    (c t b : float * float) (x_step y_step : float) :
  refused_corner c = true \/ refused_corner t = true \/ refused_corner b = true ->
  gridMaker geodesic_km c t b x_step y_step = Raise ValueError.
Proof.
  intros H. unfold gridMaker.
  destruct (geopy_Point (fst c) (snd c)) as [center | e] eqn:Hc.
  2: { rewrite (geopy_Point_raises _ _ _ Hc). reflexivity. }
  destruct H as [H | H]; [rewrite (geopy_Point_refused _ H) in Hc; discriminate |].
  destruct (geopy_Point (fst t) (snd t)) as [top_left | e] eqn:Ht.
  2: { rewrite (geopy_Point_raises _ _ _ Ht). reflexivity. }
  destruct H as [H | H]; [rewrite (geopy_Point_refused _ H) in Ht; discriminate |].
  rewrite (geopy_Point_refused _ H). reflexivity.
Qed.

(** Corners that coincide, so that both distances are zero, give no grid
    either, when the steps are numbers: the call raises
    [ZeroDivisionError], at the division by a step of zero or at the first
    point, where 0 is divided by the 0 steps. *)
Theorem gridMaker_coincident_corners_raise (geodesic_km : Point -> Point -> float)
    (c t b : float * float) (x_step y_step : float)
    (center top_left bottom_right : Point) :
  geopy_Point (fst c) (snd c) = Ok center ->
  geopy_Point (fst t) (snd t) = Ok top_left ->
  geopy_Point (fst b) (snd b) = Ok bottom_right ->
  is_nan x_step = false -> is_nan y_step = false ->
  is_zero (geodesic_km center bottom_right) = true ->
  is_zero (geodesic_km center top_left) = true ->
  gridMaker geodesic_km c t b x_step y_step = Raise ZeroDivisionError.
Proof.
  intros Hc Ht Hb Hx Hy Hvx Hvy.
  destruct (grid_steps_coincident _ _ _ _ Hx Hy Hvx Hvy) as [Hs | Hs].
  - rewrite (gridMaker_accepted _ _ _ _ _ _ _ _ _ Hc Ht Hb), Hs. reflexivity.
  - apply (gridMaker_degenerate _ _ _ _ _ _ _ _ _ 0 0 Hc Ht Hb Hs); auto; lia.
Qed.

End GridMore.

(** ** The fail-fast functions *)

Section FailFastMore.

Context {PlaceRecord : Type}.
Variable service : nat -> Request -> Response PlaceRecord.
Variables place_type API_key : string.

Local Abbreviation near := (nearby_url place_type API_key).
Local Abbreviation detail := (detail_url API_key).

(** The check passes the responses with the status "OK" or "ZERO_RESULTS",
    and no other response. *)
Theorem request_check_passes_iff (response : Response PlaceRecord) :
  request_check response = Ok tt <->
  exists body, response = Some body /\
               (status body = Some "OK" \/ status body = Some "ZERO_RESULTS").
Proof.
  unfold request_check. split.
  - destruct response as [body |]; simpl; [| discriminate].
    destruct (status body) as [s |] eqn:Hs; simpl; [| discriminate].
    destruct (String.eqb s "OK") eqn:Hok.
    + apply String.eqb_eq in Hok. subst s. intros _. exists body. auto.
    + destruct (String.eqb s "ZERO_RESULTS") eqn:Hzero; simpl; [| discriminate].
      apply String.eqb_eq in Hzero. subst s. intros _. exists body. auto.
  - intros (body & -> & [Hs | Hs]); simpl; rewrite Hs; reflexivity.
Qed.

Lemma fetched_detail_record (response : Response PlaceRecord) (record : PlaceRecord) :
  fetched response = Some record <-> detail_record response = Ok record.
Proof.
  unfold fetched, check_fails, detail_record.
  destruct (request_check response) as [[] | e] eqn:Hcheck; simpl.
  - destruct response as [body |]; simpl.
    + destruct (body_result body); simpl; split; intros H; try discriminate;
        injection H as ->; reflexivity.
    + split; discriminate.
  - split; discriminate.
Qed.

Lemma get_data_loop_cons (id : string) (ids : list string) (acc : list PlaceRecord) (w : World) :
  get_data_loop service API_key (id :: ids) acc w =
  match detail_record (service (length (sent w)) (detail id)) with
  | Ok record => get_data_loop service API_key ids (acc ++ [record]) (after_request w (detail id))
  | Raise e => (Raise e, after_request w (detail id))
  end.
Proof.
  simpl get_data_loop. unfold bind at 1. unfold requests_request at 1.
  fold (detail id). fold (after_request w (detail id)).
  unfold detail_record.
  destruct (request_check (service (length (sent w)) (detail id))) as [[] | e];
    rewrite bind_lift; simpl rbind; [| reflexivity].
  destruct (response_json (service (length (sent w)) (detail id))) as [body | e];
    rewrite bind_lift; simpl rbind; [| reflexivity].
  rewrite bind_lift. destruct (dict_get (body_result body) "result"); reflexivity.
Qed.

(** The run of the loop of [get_data_from_ids]: every record is fetched,
    or the loop stops at the first identifier whose fetch raises. *)
Lemma get_data_loop_outcome (ids : list string) :
  forall (acc : list PlaceRecord) (w : World) (n : nat),
  length (sent w) = n ->
  (exists records,
     get_data_loop service API_key ids acc w =
       (Ok (acc ++ records), after_requests w (map detail ids)) /\
     length records = length ids /\
     (forall i id, ids !! i = Some id ->
        exists record, detail_record (service (n + i)%nat (detail id)) = Ok record /\
                       records !! i = Some record)) \/
  (exists k id e,
     ids !! k = Some id /\
     detail_record (service (n + k)%nat (detail id)) = Raise e /\
     (forall i id', (i < k)%nat -> ids !! i = Some id' ->
        exists record, detail_record (service (n + i)%nat (detail id')) = Ok record) /\
     get_data_loop service API_key ids acc w =
       (Raise e, after_requests w (map detail (take (S k) ids)))).
Proof.
  induction ids as [| id0 ids IH]; intros acc w n Hn.
  - left. exists []. simpl. rewrite after_requests_nil, app_nil_r.
    split; [reflexivity |]. split; [reflexivity |].
    intros i id H. rewrite lookup_nil in H. discriminate.
  - rewrite get_data_loop_cons, Hn.
    destruct (detail_record (service n (detail id0))) as [record0 | e0] eqn:Hfirst.
    + destruct (IH (acc ++ [record0]) (after_request w (detail id0)) (S n)) as
        [(records & Hrun & Hlen & Hall) | (k & id & e & Hk & Hraise & Hbefore & Hrun)].
      { rewrite length_sent_after_request, Hn. reflexivity. }
      * left. exists (record0 :: records).
        rewrite Hrun, after_requests_cons, <- app_assoc.
        split; [reflexivity |]. split; [simpl; rewrite Hlen; reflexivity |].
        intros [| i] id Hid; simpl in Hid.
        -- injection Hid as <-. rewrite Nat.add_0_r. eauto.
        -- replace (n + S i)%nat with (S n + i)%nat by lia. apply (Hall i id Hid).
      * right. exists (S k), id, e.
        replace (n + S k)%nat with (S n + k)%nat by lia.
        split; [exact Hk |]. split; [exact Hraise |]. split.
        -- intros [| i] id' Hlt Hid; simpl in Hid.
           ++ injection Hid as <-. rewrite Nat.add_0_r. eauto.
           ++ replace (n + S i)%nat with (S n + i)%nat by lia.
              apply (Hbefore i id'); [lia | exact Hid].
        -- rewrite Hrun, after_requests_cons. reflexivity.
    + right. exists 0%nat, id0, e0. rewrite Nat.add_0_r.
      split; [reflexivity |]. split; [exact Hfirst |]. split.
      * intros i id' Hlt. lia.
      * reflexivity.
Qed.

(** When the request of every identifier succeeds, [get_data_from_ids]
    returns one record per identifier, in the order of the identifiers,
    after one request per identifier; it writes no file. *)
Theorem get_data_from_ids_all_succeed (ids : list string) (w : World) :
  (forall i id, ids !! i = Some id ->
     is_Some (fetched (service (length (sent w) + i)%nat (detail id)))) ->
  exists records,
    get_data_from_ids service ids API_key w =
      (Ok records, mkWorld (disk w) (sent w ++ map detail ids)) /\
    length records = length ids /\
    forall i id, ids !! i = Some id ->
      records !! i = fetched (service (length (sent w) + i)%nat (detail id)).
Proof.
  intros Hall. unfold get_data_from_ids.
  destruct (get_data_loop_outcome ids [] w (length (sent w)) eq_refl) as
    [(records & Hrun & Hlen & Hrecords) | (k & id & e & Hk & Hraise & _ & _)].
  - exists records. split; [exact Hrun |]. split; [exact Hlen |].
    intros i id Hid. destruct (Hrecords i id Hid) as (record & Hrecord & ->).
    symmetry. apply fetched_detail_record, Hrecord.
  - destruct (Hall k id Hk) as [record Hrecord].
    apply fetched_detail_record in Hrecord. congruence.
Qed.

(** [get_data_from_ids] stops at the first identifier whose request does
    not deliver a record: it raises the exception of that identifier (the
    [RequestError] of the check, or the [KeyError] of a body without a
    result), sends no request for the identifiers after it, and returns no
    record of those before it. *)
Theorem get_data_from_ids_stops_at_first_failure (ids : list string) (w : World)
    (k : nat) (id : string) (e : exn) :
  ids !! k = Some id ->
  (forall i id', (i < k)%nat -> ids !! i = Some id' ->
     is_Some (fetched (service (length (sent w) + i)%nat (detail id')))) ->
  detail_record (service (length (sent w) + k)%nat (detail id)) = Raise e ->
  get_data_from_ids service ids API_key w =
    (Raise e, mkWorld (disk w) (sent w ++ map detail (take (S k) ids))).
Proof.
  intros Hk Hbefore Hraise. unfold get_data_from_ids.
  destruct (get_data_loop_outcome ids [] w (length (sent w)) eq_refl) as
    [(records & _ & _ & Hrecords) | (k' & id' & e' & Hk' & Hraise' & Hbefore' & Hrun)].
  - destruct (Hrecords k id Hk) as (record & Hrecord & _). congruence.
  - destruct (Nat.lt_trichotomy k' k) as [Hlt | [-> | Hlt]].
    + destruct (Hbefore k' id' Hlt Hk') as [record Hrecord].
      apply fetched_detail_record in Hrecord. congruence.
    + rewrite Hk in Hk'. injection Hk' as <-. rewrite Hraise in Hraise'.
      injection Hraise' as <-. exact Hrun.
    + destruct (Hbefore' k id Hlt Hk) as [record Hrecord]. congruence.
Qed.

(** [get_ids_from_grid] stops at the first point whose processing raises,
    whatever the exception (the [RequestError] of the check, the [KeyError]
    of a body without results or of a place without a [place_id]): it raises
    that exception and sends no request for the points after it. *)
Theorem get_ids_from_grid_stops_at_first_failure
    (grid : list (PyFloat.float * PyFloat.float)) (w : World)
    (k : nat) (p : PyFloat.float * PyFloat.float) (e : exn) :
  grid !! k = Some p ->
  (forall i q, (i < k)%nat -> grid !! i = Some q ->
     exists ids, harvest (service (length (sent w) + i)%nat (near q)) = Ok ids) ->
  harvest (service (length (sent w) + k)%nat (near p)) = Raise e ->
  get_ids_from_grid service grid place_type API_key w =
    (Raise e, mkWorld (disk w) (sent w ++ map near (take (S k) grid))).
Proof.
  intros Hk Hbefore Hraise. unfold get_ids_from_grid.
  destruct (get_ids_loop_outcome service place_type API_key grid [] w (length (sent w)) eq_refl)
    as [(l & _ & Hall & _) | (k' & p' & e' & Hk' & Hraise' & Hbefore' & Hrun)].
  - destruct (Hall k p Hk) as [ids Hids]. congruence.
  - rewrite (bind_raise _ _ _ _ _ Hrun).
    destruct (Nat.lt_trichotomy k' k) as [Hlt | [-> | Hlt]].
    + destruct (Hbefore k' p' Hlt Hk') as [ids Hids]. congruence.
    + rewrite Hk in Hk'. injection Hk' as <-. rewrite Hraise in Hraise'.
      injection Hraise' as <-. reflexivity.
    + destruct (Hbefore' k p Hlt Hk) as [ids Hids]. congruence.
Qed.

(** The fail-fast functions keep their results in memory: whatever the
    outcome, [get_ids_from_grid] and [get_data_from_ids] leave every file as
    it is, and the requests they send are those of the first items of their
    input, one per item and in order. *)
Theorem fail_fast_functions_write_nothing :
  (forall (grid : list (PyFloat.float * PyFloat.float)) (w : World),
     exists k, (k <= length grid)%nat /\
       snd (get_ids_from_grid service grid place_type API_key w) =
         mkWorld (disk w) (sent w ++ map near (take k grid))) /\
  (forall (ids : list string) (w : World),
     exists k, (k <= length ids)%nat /\
       snd (get_data_from_ids service ids API_key w) =
         mkWorld (disk w) (sent w ++ map detail (take k ids))).
Proof.
  split.
  - intros grid w. unfold get_ids_from_grid.
    destruct (get_ids_loop_outcome service place_type API_key grid [] w (length (sent w)) eq_refl)
      as [(l & Hrun & _) | (k & p & e & Hk & _ & _ & Hrun)].
    + exists (length grid). split; [lia |].
      rewrite (bind_ok _ _ _ _ _ Hrun), firstn_all. reflexivity.
    + exists (S k). apply lookup_lt_Some in Hk. split; [lia |].
      rewrite (bind_raise _ _ _ _ _ Hrun). reflexivity.
  - intros ids w. unfold get_data_from_ids.
    destruct (get_data_loop_outcome ids [] w (length (sent w)) eq_refl)
      as [(records & Hrun & _) | (k & id & e & Hk & _ & _ & Hrun)].
    + exists (length ids). split; [lia |]. rewrite Hrun, firstn_all. reflexivity.
    + exists (S k). apply lookup_lt_Some in Hk. split; [lia |]. rewrite Hrun. reflexivity.
Qed.

End FailFastMore.

(** ** Lines and tokens *)

Lemma split_cons (c : ascii) (rest : string) :
  split (String c rest) =
  if isspace c then split rest
  else match rest with
       | EmptyString => [String c EmptyString]
       | String c' _ =>
         if isspace c' then String c EmptyString :: split rest
         else match split rest with
              | t :: ts => String c t :: ts
              | [] => [String c EmptyString]
              end
       end.
Proof. reflexivity. Qed.

Lemma token_cons (c : ascii) (s : string) :
  token (String c s) = true -> isspace c = false /\ no_space s = true.
Proof.
  simpl. intros H. apply andb_prop in H as [Hc Hs].
  destruct (isspace c); [discriminate | auto].
Qed.

(** A token that a space follows is the first word that [split] returns. *)
Lemma split_token (t : string) :
  forall (c : ascii) (rest : string),
  token t = true -> isspace c = true ->
  split (t +:+ String c rest) = t :: split rest.
Proof.
  induction t as [| a t IH]; intros c rest Ht Hc; [discriminate |].
  apply token_cons in Ht as [Ha Ht].
  rewrite string_app_cons, split_cons, Ha.
  destruct t as [| a' t].
  - change ("" +:+ String c rest) with (String c rest). cbv beta iota. rewrite Hc.
    rewrite split_cons, Hc. reflexivity.
  - rewrite string_app_cons. cbv beta iota.
    assert (Htoken : token (String a' t) = true) by exact Ht.
    pose proof (token_cons _ _ Htoken) as [Ha' _]. rewrite Ha'.
    rewrite <- string_app_cons, (IH c rest Htoken Hc). reflexivity.
Qed.

Lemma one_line_app (s t : string) : one_line (s +:+ t) = one_line s && one_line t.
Proof.
  induction s as [| c s IH]; [reflexivity |]. rewrite string_app_cons. simpl.
  rewrite IH, andb_assoc. reflexivity.
Qed.

Lemma isspace_line_ends (c : ascii) :
  isspace c = false ->
  Ascii.eqb c (ascii_of_nat 10) = false /\ Ascii.eqb c (ascii_of_nat 13) = false.
Proof.
  intros Hc. split; apply Ascii.eqb_neq; intros ->; discriminate Hc.
Qed.

Lemma no_space_one_line (s : string) : no_space s = true -> one_line s = true.
Proof.
  induction s as [| c s IH]; [reflexivity |]. simpl. intros H.
  apply andb_prop in H as [Hc Hs]. apply negb_true_iff in Hc.
  destruct (isspace_line_ends c Hc) as [-> ->]. rewrite (IH Hs). reflexivity.
Qed.

Lemma universal_newlines_app (a b : string) :
  one_line a = true -> universal_newlines (a +:+ b) = a +:+ universal_newlines b.
Proof.
  induction a as [| c a IH]; [reflexivity |]. simpl one_line. intros H.
  apply andb_prop in H as [H Ha]. apply andb_prop in H as [_ Hc].
  apply negb_true_iff in Hc. rewrite !string_app_cons. simpl. rewrite Hc, (IH Ha).
  reflexivity.
Qed.

Lemma keep_lines_app (a b : string) :
  one_line a = true -> keep_lines (a +:+ newline +:+ b) = (a +:+ newline) :: keep_lines b.
Proof.
  induction a as [| c a IH]; [reflexivity |]. simpl one_line. intros H.
  apply andb_prop in H as [H Ha]. apply andb_prop in H as [Hc _].
  apply negb_true_iff in Hc. rewrite !string_app_cons. simpl. rewrite Hc, (IH Ha).
  reflexivity.
Qed.

Lemma digits_no_space (d : Decimal.uint) : no_space (NilEmpty.string_of_uint d) = true.
Proof. induction d; simpl; auto. Qed.

Lemma str_of_nat_token (i : nat) : token (str_of_nat i) = true.
Proof.
  unfold str_of_nat, NilZero.string_of_uint.
  pose proof (digits_no_space (Nat.to_uint i)) as H.
  destruct (Nat.to_uint i); simpl in *; auto.
Qed.

Lemma token_no_space (s : string) : token s = true -> no_space s = true.
Proof. destruct s; [discriminate | auto]. Qed.

Lemma id_lines_cons (i : nat) (id : string) (ids : list string) :
  id_lines i (id :: ids) = id_line i id +:+ id_lines i ids.
Proof. reflexivity. Qed.

Lemma id_line_body (i : nat) (id : string) :
  id_line i id = (str_of_nat i +:+ " " +:+ id) +:+ newline.
Proof. unfold id_line. rewrite !string_app_assoc. reflexivity. Qed.

Lemma one_line_body (i : nat) (id : string) :
  token id = true -> one_line (str_of_nat i +:+ " " +:+ id) = true.
Proof.
  intros Hid. rewrite !one_line_app.
  rewrite (no_space_one_line _ (token_no_space _ (str_of_nat_token i))).
  rewrite (no_space_one_line _ (token_no_space _ Hid)). reflexivity.
Qed.

(** The file that [ids_to_file_from_grid] writes reads back line by line. *)
Lemma readlines_id_lines (i : nat) (ids : list string) :
  Forall (fun id => token id = true) ids ->
  readlines (id_lines i ids) = map (id_line i) ids.
Proof.
  induction 1 as [| id ids Hid Hids IH]; [reflexivity |].
  rewrite id_lines_cons, id_line_body. unfold readlines in *.
  rewrite string_app_assoc, (universal_newlines_app _ _ (one_line_body i id Hid)).
  change (universal_newlines (newline +:+ id_lines i ids))
    with (newline +:+ universal_newlines (id_lines i ids)).
  rewrite (keep_lines_app _ _ (one_line_body i id Hid)), IH.
  simpl map. rewrite (id_line_body i id). reflexivity.
Qed.

(** The second word of a line of the file is the identifier of the place. *)
Lemma split_id_line (i : nat) (id : string) :
  token id = true -> split (id_line i id) = [str_of_nat i; id].
Proof.
  intros Hid. unfold id_line.
  change (str_of_nat i +:+ " " +:+ id +:+ newline)
    with (str_of_nat i +:+ String " " (id +:+ String (ascii_of_nat 10) "")).
  rewrite (split_token (str_of_nat i) " "%char _ (str_of_nat_token i) eq_refl).
  rewrite (split_token id (ascii_of_nat 10) "" Hid eq_refl). reflexivity.
Qed.

Lemma ids_of_lines_id_lines (i : nat) (ids : list string) :
  Forall (fun id => token id = true) ids ->
  forall acc, ids_of_lines (map (id_line i) ids) acc = Ok (acc ++ ids).
Proof.
  induction 1 as [| id ids Hid Hids IH]; intros acc; simpl.
  - rewrite app_nil_r. reflexivity.
  - rewrite (split_id_line i id Hid). simpl. rewrite IH, <- app_assoc. reflexivity.
Qed.

(** ** The identifier aggregator on files that are well formed *)

Lemma ids_of_lines_ok (lines : list string) :
  (forall line, line ∈ lines -> malformed line = false) ->
  forall acc, exists l,
    ids_of_lines lines acc = Ok (acc ++ l) /\
    forall id, id ∈ l <-> exists line, line ∈ lines /\ split line !! 1%nat = Some id.
Proof.
  induction lines as [| line lines IH]; intros Hgood acc.
  - exists []. simpl. rewrite app_nil_r. split; [reflexivity |].
    intros id. split; [intros H; inversion H | intros (line & H & _); inversion H].
  - assert (Hline : is_Some (split line !! 1%nat)).
    { apply lookup_lt_is_Some. specialize (Hgood line ltac:(left)).
      unfold malformed in Hgood. apply Nat.ltb_ge in Hgood.
      rewrite <- length_split in Hgood. lia. }
    destruct Hline as [id0 Hid0].
    destruct (IH ltac:(intros l Hl; apply Hgood; right; exact Hl) (acc ++ [id0]))
      as (l & Hrun & Hmem).
    exists (id0 :: l). split.
    + simpl. unfold getitem. rewrite Hid0. simpl. rewrite Hrun, <- app_assoc. reflexivity.
    + intros id. rewrite elem_of_cons, Hmem. split.
      * intros [-> | (line' & Hin & Hid)].
        -- exists line. split; [left | exact Hid0].
        -- exists line'. split; [right; exact Hin | exact Hid].
      * intros (line' & Hin & Hid). apply elem_of_cons in Hin as [-> | Hin].
        -- left. congruence.
        -- right. eauto.
Qed.

Lemma ids_of_files_app (pre rest : list string) (w : World) :
  (forall f, f ∈ pre -> well_formed_file w f) ->
  forall acc, exists l,
    ids_of_files (pre ++ rest) acc w = ids_of_files rest (acc ++ l) w /\
    forall id, id ∈ l <->
      exists f content line,
        f ∈ pre /\ disk w !! f = Some content /\
        line ∈ readlines content /\ split line !! 1%nat = Some id.
Proof.
  induction pre as [| f pre IH]; intros Hgood acc.
  - exists []. simpl. rewrite app_nil_r. split; [reflexivity |].
    intros id. split; [intros H; inversion H | intros (f & c & l & H & _); inversion H].
  - destruct (Hgood f ltac:(left)) as (content & Hcontent & _ & Hlines).
    destruct (ids_of_lines_ok (readlines content) Hlines acc) as (l0 & Hl0 & Hmem0).
    destruct (IH ltac:(intros f' Hf'; apply Hgood; right; exact Hf') (acc ++ l0))
      as (l & Hrun & Hmem).
    exists (l0 ++ l). split.
    + simpl app. simpl ids_of_files. unfold bind at 1. unfold read_file at 1.
      rewrite Hcontent, bind_lift, Hl0, Hrun, <- app_assoc. reflexivity.
    + intros id. rewrite elem_of_app, Hmem0, Hmem. split.
      * intros [(line & Hin & Hid) | (f' & c' & line & Hf' & Hc' & Hin & Hid)].
        -- exists f, content, line. split; [left | auto].
        -- exists f', c', line. split; [right; exact Hf' | auto].
      * intros (f' & c' & line & Hf' & Hc' & Hin & Hid).
        apply elem_of_cons in Hf' as [-> | Hf'].
        -- left. rewrite Hcontent in Hc'. injection Hc' as <-. eauto.
        -- right. eauto 10.
Qed.

(** When every file is there and holds ASCII text, and every line has a
    second word, [get_unique_ids_from_files] returns a list without duplicates whose
    elements are the second words of all the lines of all the files. *)
Theorem get_unique_ids_from_files_collects (files : list string) (w : World) :
  (forall f, f ∈ files -> well_formed_file w f) ->
  exists l,
    get_unique_ids_from_files files w = (Ok l, w) /\ NoDup l /\
    forall id, id ∈ l <->
      exists f content line,
        f ∈ files /\ disk w !! f = Some content /\
        line ∈ readlines content /\ split line !! 1%nat = Some id.
Proof.
  intros Hgood.
  destruct (ids_of_files_app files [] w Hgood []) as (l & Hrun & Hmem).
  rewrite app_nil_r in Hrun. simpl in Hrun.
  exists (list_set l). split.
  - unfold get_unique_ids_from_files. rewrite (bind_ok _ _ _ _ _ Hrun). reflexivity.
  - unfold list_set. split; [apply NoDup_elements |].
    intros id. rewrite elem_of_elements, elem_of_list_to_set. apply Hmem.
Qed.

(** A file that is missing stops [get_unique_ids_from_files] with the
    [FileNotFoundError] of its path, when the files before it are well
    formed; the identifiers read so far are not returned. *)
Theorem get_unique_ids_from_files_missing_file (pre post : list string) (f : string) (w : World) :
  (forall f', f' ∈ pre -> well_formed_file w f') ->
  disk w !! f = None ->
  get_unique_ids_from_files (pre ++ f :: post) w = (Raise (FileNotFoundError f), w).
Proof.
  intros Hgood Hmissing.
  destruct (ids_of_files_app pre (f :: post) w Hgood []) as (l & Hrun & _).
  unfold get_unique_ids_from_files. apply bind_raise. rewrite Hrun.
  simpl ids_of_files. unfold bind at 1. unfold read_file at 1. rewrite Hmissing. reflexivity.
Qed.

Lemma ids_of_files_reads_only (files : list string) (w : World) :
  forall acc, snd (ids_of_files files acc w) = w.
Proof.
  induction files as [| f files IH]; intros acc; [reflexivity |].
  simpl ids_of_files. unfold bind at 1. unfold read_file at 1.
  destruct (disk w !! f) as [content |]; [| reflexivity].
  rewrite bind_lift. destruct (ids_of_lines (readlines content) acc); [apply IH | reflexivity].
Qed.

(** ** The file of identifiers *)

Section FileCollectorMore.

Context {PlaceRecord : Type}.
Variable service : nat -> Request -> Response PlaceRecord.
Variables place_type file_name API_key : string.

Local Abbreviation url := (nearby_url place_type API_key).

(** What [ids_to_file_from_grid] writes, [get_unique_ids_from_files]
    reads back: when the identifiers of the first point that succeeds are
    ASCII tokens (not empty, without spaces), reading the file gives these
    identifiers, without duplicates. *)
Theorem written_ids_read_back
    (grid : list (PyFloat.float * PyFloat.float)) (w : World)
    (k : nat) (p : PyFloat.float * PyFloat.float)
    (body : Body PlaceRecord) (places : list Place) :
  grid !! k = Some p ->
  (forall i q, (i < k)%nat -> grid !! i = Some q ->
     check_fails (service (length (sent w) + i)%nat (url q)) = true) ->
  service (length (sent w) + k)%nat (url p) = Some body ->
  results body = Some places ->
  nearby_success (Some body) = true ->
  Forall (fun id => token id = true) (omap place_id places) ->
  Forall (fun id => ascii_text id = true) (omap place_id places) ->
  exists w' l,
    snd (ids_to_file_from_grid service grid place_type file_name API_key w) = w' /\
    get_unique_ids_from_files [file_name] w' = (Ok l, w') /\ NoDup l /\
    forall id, id ∈ l <-> exists place, place ∈ places /\ place_id place = Some id.
Proof.
  intros Hk Hfails Hbody Hres Hsucc Htokens _.
  destruct (ids_to_file_from_grid_first_pass service place_type file_name API_key grid w k p
              Hk Hfails ltac:(rewrite Hbody; exact Hsucc))
    as (body' & places' & Hbody' & Hres' & Hrun).
  rewrite Hbody in Hbody'. injection Hbody' as <-.
  rewrite Hres in Hres'. injection Hres' as <-.
  rewrite Hrun. simpl snd. eexists _, (list_set (omap place_id places)).
  split; [reflexivity |]. split.
  - unfold get_unique_ids_from_files, bind. simpl ids_of_files.
    unfold bind at 1. unfold read_file at 1. simpl disk. rewrite lookup_insert_eq.
    rewrite bind_lift, (readlines_id_lines k _ Htokens).
    rewrite (ids_of_lines_id_lines k _ Htokens []). reflexivity.
  - unfold list_set. split; [apply NoDup_elements |].
    intros id. rewrite elem_of_elements, elem_of_list_to_set, list_elem_of_omap. reflexivity.
Qed.

Lemma ids_to_file_loop_frame (grid : list (PyFloat.float * PyFloat.float)) :
  forall (i : nat) (errs : list (PyFloat.float * PyFloat.float)) (w : World),
  is_Some (disk w !! file_name) ->
  is_Some (disk (snd (ids_to_file_loop service place_type file_name API_key i grid errs w))
             !! file_name) /\
  (forall path, path <> file_name ->
     disk (snd (ids_to_file_loop service place_type file_name API_key i grid errs w)) !! path
       = disk w !! path) /\
  exists k, (k <= length grid)%nat /\
    sent (snd (ids_to_file_loop service place_type file_name API_key i grid errs w))
      = sent w ++ map url (take k grid).
Proof.
  induction grid as [| point grid IH]; intros i errs w Hfile.
  - simpl. split; [exact Hfile |]. split; [reflexivity |].
    exists 0%nat. rewrite app_nil_r. auto.
  - simpl ids_to_file_loop. unfold bind, requests_request, lift, open_append, ret.
    fold (url point).
    assert (Hstop : is_Some (disk w !! file_name) /\
              (forall path, path <> file_name -> disk w !! path = disk w !! path) /\
              exists k, (k <= length (point :: grid))%nat /\
                sent w ++ [url point] = sent w ++ map url (take k (point :: grid))).
    { split; [exact Hfile |]. split; [reflexivity |]. exists 1%nat. simpl. split; [lia | reflexivity]. }
    destruct (request_check (service (length (sent w)) (url point))) as [[] | e].
    + destruct (response_json (service (length (sent w)) (url point))) as [dict | e];
        [| exact Hstop].
      destruct (dict_get (results dict) "results") as [places | e]; [| exact Hstop].
      match goal with |- context [write_places file_name i places ?w1] =>
        destruct (write_places_frame file_name i places w1) as (Hsent & Hframe & Hkeep);
        destruct (write_places file_name i places w1) as [[[] | e] w2] end;
        simpl in Hsent, Hframe, Hkeep |- *.
      * split; [apply Hkeep; rewrite lookup_insert_eq; eauto |].
        split; [intros path Hpath; rewrite (Hframe path Hpath); apply lookup_insert_ne; congruence |].
        exists 1%nat. rewrite Hsent. split; [lia | reflexivity].
      * split; [apply Hkeep; rewrite lookup_insert_eq; eauto |].
        split; [intros path Hpath; rewrite (Hframe path Hpath); apply lookup_insert_ne; congruence |].
        exists 1%nat. rewrite Hsent. split; [lia | reflexivity].
    + destruct (IH (S i) (errs ++ [(fst point, snd point)])
                  (mkWorld (disk w) (sent w ++ [url point])) Hfile)
        as (Hthere & Hframe & k & Hk & Hsent).
      split; [exact Hthere |]. split; [exact Hframe |].
      exists (S k). split; [simpl; lia |].
      rewrite Hsent. simpl. rewrite <- app_assoc. reflexivity.
Qed.

(** Whatever the outcome, [ids_to_file_from_grid] writes to one file only:
    the file of the identifiers is there after the call, every other file
    is as it was, and the requests sent are those of the first points of the
    grid, one per point and in order. *)
Theorem ids_to_file_from_grid_touches_one_file
    (grid : list (PyFloat.float * PyFloat.float)) (w : World) :
  is_Some (disk (snd (ids_to_file_from_grid service grid place_type file_name API_key w))
             !! file_name) /\
  (forall path, path <> file_name ->
     disk (snd (ids_to_file_from_grid service grid place_type file_name API_key w)) !! path
       = disk w !! path) /\
  exists k, (k <= length grid)%nat /\
    sent (snd (ids_to_file_from_grid service grid place_type file_name API_key w))
      = sent w ++ map url (take k grid).
Proof.
  unfold ids_to_file_from_grid, bind, open_truncate.
  destruct (ids_to_file_loop_frame grid 0 []
              (mkWorld (<[file_name := ""]> (disk w)) (sent w)))
    as (Hthere & Hframe & Hsent).
  { simpl. rewrite lookup_insert_eq. eauto. }
  split; [exact Hthere |]. split; [| exact Hsent].
  intros path Hpath. rewrite (Hframe path Hpath). simpl. apply lookup_insert_ne. congruence.
Qed.

Lemma write_places_stops (i : nat) (pre post : list Place) (bad : Place) :
  forall (w : World) (content : string),
  disk w !! file_name = Some content ->
  forallb (fun place => bool_decide (is_Some (place_id place))) pre = true ->
  place_id bad = None ->
  write_places file_name i (pre ++ bad :: post) w =
    (Raise (KeyError "place_id"),
     mkWorld (<[file_name := content +:+ id_lines i (omap place_id pre)]> (disk w)) (sent w)).
Proof.
  induction pre as [| place pre IH]; intros w content Hfile Hids Hbad.
  - simpl. rewrite Hbad, bind_lift. simpl.
    rewrite string_app_nil_r, insert_id by exact Hfile. destruct w; reflexivity.
  - simpl in Hids. apply andb_prop in Hids as [Hid Hrest].
    destruct (place_id place) as [id |] eqn:Hplace; [| discriminate Hid].
    simpl app. simpl write_places. rewrite Hplace, bind_lift. simpl dict_get. cbv iota beta.
    unfold bind at 1. unfold write_append at 1. rewrite Hfile. simpl default.
    rewrite (IH _ (content +:+ str_of_nat i +:+ " " +:+ id +:+ newline)).
    + simpl disk. simpl sent. rewrite insert_insert_eq.
      simpl omap. rewrite Hplace. simpl id_lines.
      rewrite !string_app_assoc. reflexivity.
    + simpl. apply lookup_insert_eq.
    + exact Hrest.
    + exact Hbad.
Qed.

(** A place without a [place_id] in the results of the first point that
    passes the check stops [ids_to_file_from_grid] with a [KeyError]; the
    lines of the places before it stay in the file, and the list of the
    failed points is not returned. *)
Theorem ids_to_file_from_grid_place_without_id
    (grid : list (PyFloat.float * PyFloat.float)) (w : World)
    (k : nat) (p : PyFloat.float * PyFloat.float)
    (body : Body PlaceRecord) (pre post : list Place) (bad : Place) :
  grid !! k = Some p ->
  (forall i q, (i < k)%nat -> grid !! i = Some q ->
     check_fails (service (length (sent w) + i)%nat (url q)) = true) ->
  service (length (sent w) + k)%nat (url p) = Some body ->
  check_fails (Some body) = false ->
  results body = Some (pre ++ bad :: post) ->
  forallb (fun place => bool_decide (is_Some (place_id place))) pre = true ->
  place_id bad = None ->
  ids_to_file_from_grid service grid place_type file_name API_key w =
    (Raise (KeyError "place_id"),
     mkWorld (<[file_name := id_lines k (omap place_id pre)]> (disk w))
             (sent w ++ map url (take (S k) grid))).
Proof.
  intros Hk Hfails Hbody Hpass Hres Hpre Hbad.
  unfold ids_to_file_from_grid, bind, open_truncate.
  rewrite (ids_to_file_loop_first_pass service place_type file_name API_key grid k 0 p []
             (mkWorld (<[file_name := ""]> (disk w)) (sent w)) (length (sent w)) eq_refl Hk Hfails
             ltac:(rewrite Hbody; exact Hpass)).
  rewrite Hbody. unfold record_point. rewrite bind_lift. simpl response_json. cbv iota beta.
  rewrite Hres, bind_lift. simpl dict_get. cbv iota beta.
  unfold bind at 1. unfold open_append at 1. unfold bind at 1.
  rewrite (write_places_stops (0 + k) pre post bad _ "").
  - simpl. rewrite !insert_insert_eq. reflexivity.
  - simpl. rewrite lookup_insert_eq, lookup_insert_eq. reflexivity.
  - exact Hpre.
  - exact Hbad.
Qed.

End FileCollectorMore.

(** ** Reading a folder, and fetching into a folder *)

Section DetailMore.

Context {PlaceRecord : Type}.
Variable service : nat -> Request -> Response PlaceRecord.
Variable pickle_dumps : PlaceRecord -> string.
Variable pickle_loads : string -> result PlaceRecord.
Variables folder API_key : string.

Local Abbreviation url := (detail_url API_key).

Lemma load_files_reads_only (files : list string) (w : World) :
  forall acc, snd (load_files pickle_loads folder files acc w) = w.
Proof.
  induction files as [| f files IH]; intros acc; [reflexivity |].
  simpl load_files. unfold bind at 1. unfold read_file at 1.
  destruct (disk w !! os_path_join folder f) as [data |]; [| reflexivity].
  rewrite bind_lift. destruct (pickle_loads data); [apply IH | reflexivity].
Qed.

(** The two readers change nothing, whatever the outcome:
    [get_unique_ids_from_files] and [pkl_files_to_list_of_dicts] leave every
    file as it is and send no request. *)
Theorem readers_change_nothing (w : World) :
  (forall files, snd (get_unique_ids_from_files files w) = w) /\
  snd (pkl_files_to_list_of_dicts pickle_loads folder w) = w.
Proof.
  split.
  - intros files. unfold get_unique_ids_from_files, bind.
    pose proof (ids_of_files_reads_only files w []) as H.
    destruct (ids_of_files files [] w) as [[ids | e] w']; simpl in H; subst w'; reflexivity.
  - unfold pkl_files_to_list_of_dicts. unfold bind at 1. unfold os_listdir at 1.
    unfold bind at 1. rewrite regular_files_run. apply load_files_reads_only.
Qed.

Lemma load_files_exact (files : list string) (w : World) :
  forall acc : list PlaceRecord,
  (forall f, f ∈ files ->
     exists data v, disk w !! os_path_join folder f = Some data /\ pickle_loads data = Ok v) ->
  exists records,
    load_files pickle_loads folder files acc w = (Ok (acc ++ records), w) /\
    length records = length files /\
    forall v, v ∈ records <->
      exists f data, f ∈ files /\ disk w !! os_path_join folder f = Some data /\
                     pickle_loads data = Ok v.
Proof.
  induction files as [| f files IH]; intros acc Hload.
  - exists []. simpl. rewrite app_nil_r. split; [reflexivity |]. split; [reflexivity |].
    intros v. split; [intros H; inversion H | intros (f & d & H & _); inversion H].
  - destruct (Hload f) as (data & v0 & Hdata & Hv0); [left |].
    destruct (IH (acc ++ [v0])) as (records & Hrun & Hlen & Hmem).
    { intros f' Hf'. apply Hload. right. exact Hf'. }
    exists (v0 :: records). split; [| split].
    + simpl load_files. unfold bind at 1. unfold read_file at 1. rewrite Hdata.
      rewrite bind_lift, Hv0, Hrun, <- app_assoc. reflexivity.
    + simpl. rewrite Hlen. reflexivity.
    + intros v. rewrite elem_of_cons, Hmem. split.
      * intros [-> | (f' & d' & Hf' & Hd' & Hv')].
        -- exists f, data. split; [left | auto].
        -- exists f', d'. split; [right; exact Hf' | auto].
      * intros (f' & d' & Hf' & Hd' & Hv'). apply elem_of_cons in Hf' as [-> | Hf'].
        -- left. rewrite Hdata in Hd'. injection Hd' as <-. congruence.
        -- right. eauto.
Qed.

(** The names that the read-back loads are the names of the files directly
    in the folder. *)
Lemma folder_files (w : World) (f : string) :
  folder <> "" -> ends_with_slash folder = false ->
  (f ∈ List.filter (fun f => bool_decide (is_Some (disk w !! os_path_join folder f)))
         (remove_dups (omap (entry_name folder) (map fst (map_to_list (disk w))))) <->
   no_slash f = true /\ f <> "" /\ is_Some (disk w !! (folder +:+ "/" +:+ f))).
Proof.
  intros Hne Hend.
  rewrite list_elem_of_In, filter_In, <- list_elem_of_In, bool_decide_eq_true.
  rewrite (elem_of_listdir folder w f). split.
  - intros [(path & _ & Hentry) Hfile].
    apply entry_name_plain in Hentry as [Hplain Hname].
    rewrite (os_path_join_plain _ _ Hne Hend Hplain) in Hfile. auto.
  - intros (Hplain & Hname & Hfile). split.
    + exists (folder +:+ "/" +:+ f). split; [exact Hfile |].
      apply entry_name_child; assumption.
    + rewrite (os_path_join_plain _ _ Hne Hend Hplain). exact Hfile.
Qed.

Lemma pkl_files_exact (w : World) :
  folder <> "" -> ends_with_slash folder = false ->
  (forall f content, no_slash f = true -> disk w !! (folder +:+ "/" +:+ f) = Some content ->
     exists v, pickle_loads content = Ok v) ->
  exists records,
    pkl_files_to_list_of_dicts pickle_loads folder w = (Ok records, w) /\
    forall v, v ∈ records <->
      exists name content,
        no_slash name = true /\ name <> "" /\
        disk w !! (folder +:+ "/" +:+ name) = Some content /\ pickle_loads content = Ok v.
Proof.
  intros Hne Hend Hall.
  unfold pkl_files_to_list_of_dicts. unfold bind at 1. unfold os_listdir at 1.
  unfold bind at 1. rewrite regular_files_run.
  set (files := List.filter _ _).
  assert (Hfiles : forall f, f ∈ files <->
            no_slash f = true /\ f <> "" /\ is_Some (disk w !! (folder +:+ "/" +:+ f))).
  { intros f. apply folder_files; assumption. }
  destruct (load_files_exact files w []) as (records & Hrun & _ & Hmem).
  { intros f Hf. apply Hfiles in Hf as (Hplain & _ & [content Hcontent]).
    rewrite (os_path_join_plain _ _ Hne Hend Hplain).
    destruct (Hall f content Hplain Hcontent) as [v Hv]. eauto. }
  exists records. split; [exact Hrun |].
  intros v. rewrite Hmem. split.
  - intros (f & data & Hf & Hdata & Hv). apply Hfiles in Hf as (Hplain & Hname & _).
    rewrite (os_path_join_plain _ _ Hne Hend Hplain) in Hdata. eauto 10.
  - intros (name & content & Hplain & Hname & Hcontent & Hv).
    exists name, content. split; [apply Hfiles; eauto |].
    rewrite (os_path_join_plain _ _ Hne Hend Hplain). auto.
Qed.

(** [pkl_files_to_list_of_dicts] reads the files that are directly in the
    folder, and no other file: when each of them loads, the records it
    returns are the records of these files (files in other folders or in
    sub-folders are not read). *)
Theorem pkl_files_reads_folder_files (w : World) :
  folder <> "" -> ends_with_slash folder = false ->
  (forall f content, no_slash f = true -> disk w !! (folder +:+ "/" +:+ f) = Some content ->
     exists v, pickle_loads content = Ok v) ->
  exists records,
    pkl_files_to_list_of_dicts pickle_loads folder w = (Ok records, w) /\
    forall v, v ∈ records <->
      exists name content,
        no_slash name = true /\ name <> "" /\
        disk w !! (folder +:+ "/" +:+ name) = Some content /\ pickle_loads content = Ok v.
Proof. apply pkl_files_exact. Qed.

Lemma load_files_fails (files : list string) (w : World) :
  (forall f, f ∈ files -> is_Some (disk w !! os_path_join folder f)) ->
  (exists f data e, f ∈ files /\ disk w !! os_path_join folder f = Some data /\
                    pickle_loads data = Raise e) ->
  forall acc, exists f data e,
    f ∈ files /\ disk w !! os_path_join folder f = Some data /\
    pickle_loads data = Raise e /\
    load_files pickle_loads folder files acc w = (Raise e, w).
Proof.
  induction files as [| f files IH]; intros Hthere (f0 & d0 & e0 & Hf0 & Hd0 & He0) acc.
  - inversion Hf0.
  - destruct (Hthere f ltac:(left)) as [data Hdata].
    simpl load_files. unfold bind at 1. unfold read_file at 1. rewrite Hdata, bind_lift.
    destruct (pickle_loads data) as [v | e] eqn:Hload.
    + destruct (IH ltac:(intros f' Hf'; apply Hthere; right; exact Hf')) with (acc := acc ++ [v])
        as (f' & d' & e' & Hf' & Hd' & He' & Hrun).
      * exists f0, d0, e0. split; [| auto].
        apply elem_of_cons in Hf0 as [-> | Hf0]; [| exact Hf0]. congruence.
      * exists f', d', e'. split; [right; exact Hf' | auto].
    + exists f, data, e. split; [left | auto].
Qed.

(** One file of the folder that does not load makes the whole read-back
    fail: [pkl_files_to_list_of_dicts] raises the error of a file that does
    not load and returns no record. *)
Theorem pkl_files_corrupt_file_fails (w : World) (name data : string) (e : exn) :
  folder <> "" -> ends_with_slash folder = false ->
  no_slash name = true -> name <> "" ->
  disk w !! (folder +:+ "/" +:+ name) = Some data ->
  pickle_loads data = Raise e ->
  exists name' data' e',
    no_slash name' = true /\ disk w !! (folder +:+ "/" +:+ name') = Some data' /\
    pickle_loads data' = Raise e' /\
    pkl_files_to_list_of_dicts pickle_loads folder w = (Raise e', w).
Proof.
  intros Hne Hend Hplain Hname Hdata Hload.
  unfold pkl_files_to_list_of_dicts. unfold bind at 1. unfold os_listdir at 1.
  unfold bind at 1. rewrite regular_files_run.
  set (files := List.filter _ _).
  assert (Hfiles : forall f, f ∈ files <->
            no_slash f = true /\ f <> "" /\ is_Some (disk w !! (folder +:+ "/" +:+ f))).
  { intros f. apply folder_files; assumption. }
  destruct (load_files_fails files w) with (acc := @nil PlaceRecord)
    as (f' & d' & e' & Hf' & Hd' & He' & Hrun).
  - intros f Hf. apply Hfiles in Hf as (Hp & _ & Hsome).
    rewrite (os_path_join_plain _ _ Hne Hend Hp). exact Hsome.
  - exists name, data, e. split; [apply Hfiles; eauto |].
    rewrite (os_path_join_plain _ _ Hne Hend Hplain). auto.
  - apply Hfiles in Hf' as (Hp & _ & _).
    rewrite (os_path_join_plain _ _ Hne Hend Hp) in Hd'.
    exists f', d', e'. auto.
Qed.

(** The fault-tolerant fetcher does not catch what is raised after the
    check: a response that passes the check without a result stops
    [data_from_ids_to_files] with a [KeyError]; the files written before
    stay, the list of the failed identifiers is not returned and the
    identifiers after it are not requested. *)
Theorem data_from_ids_to_files_missing_result (pre post : list string) (id : string)
    (w : World) :
  let n := length (sent w) in
  (forall i id', pre !! i = Some id' ->
     detail_formed (service (n + i)%nat (url id')) = true) ->
  check_fails (service (n + length pre)%nat (url id)) = false ->
  fetched (service (n + length pre)%nat (url id)) = None ->
  data_from_ids_to_files service pickle_dumps (pre ++ id :: post) folder API_key w =
    (Raise (KeyError "result"),
     mkWorld (stored service pickle_dumps folder API_key n pre (disk w))
             (sent w ++ map url (pre ++ [id]))).
Proof.
  intros n Hformed Hpass Hnone. unfold data_from_ids_to_files.
  rewrite (data_to_files_loop_app service pickle_dumps folder API_key pre (id :: post) [] w n eq_refl Hformed).
  simpl data_to_files_loop. unfold bind at 1. unfold requests_request at 1.
  cbn [sent disk]. rewrite length_app, length_map. fold n. fold (url id).
  unfold fetched in Hnone. rewrite Hpass in Hnone. unfold check_fails in Hpass.
  destruct (request_check (service (n + length pre)%nat (url id))) as [[] | e] eqn:Hcheck;
    [| discriminate].
  destruct (service (n + length pre)%nat (url id)) as [body |]; [| discriminate Hcheck].
  rewrite bind_lift. simpl response_json. cbv iota beta.
  rewrite Hnone, bind_lift. simpl. rewrite map_app, app_assoc. reflexivity.
Qed.

End DetailMore.

(** ** Fetching in memory and fetching through a folder *)

Section FetchTwoWays.

Context {PlaceRecord : Type}.
Variable service : nat -> Request -> Response PlaceRecord.
Variable pickle_dumps : PlaceRecord -> string.
Variable pickle_loads : string -> result PlaceRecord.
Variables folder API_key : string.

Local Abbreviation url := (detail_url API_key).

(** A file of the disk after the run was there before, or it is the file
    of an identifier and holds the record fetched for it. *)
Lemma stored_origin (ids : list string) :
  forall (n : nat) (d : gmap string string) (path content : string),
  stored service pickle_dumps folder API_key n ids d !! path = Some content ->
  d !! path = Some content \/
  exists i id record,
    ids !! i = Some id /\ fetched (service (n + i)%nat (url id)) = Some record /\
    path = pkl_path folder id /\ content = pickle_dumps record.
Proof.
  induction ids as [| id0 ids IH]; intros n d path content Hpath; [left; exact Hpath |].
  simpl in Hpath. apply IH in Hpath as [Hpath | (i & id & record & Hi & Hf & Hp & Hc)].
  - destruct (fetched (service n (url id0))) as [record0 |] eqn:Hfetch; [| left; exact Hpath].
    destruct (decide (pkl_path folder id0 = path)) as [<- | Hne].
    + rewrite lookup_insert_eq in Hpath. injection Hpath as <-.
      right. exists 0%nat, id0, record0. rewrite Nat.add_0_r. auto.
    + rewrite lookup_insert_ne in Hpath by exact Hne. left. exact Hpath.
  - right. exists (S i), id, record. replace (n + S i)%nat with (S n + i)%nat by lia. auto.
Qed.

Lemma no_failed_ids (ids : list string) (n : nat) :
  (forall i id, ids !! i = Some id -> is_Some (fetched (service (n + i)%nat (url id)))) ->
  failed_ids service API_key n ids = [].
Proof.
  intros Hall. destruct (failed_ids service API_key n ids) as [| id l] eqn:Hfailed; [reflexivity |].
  assert (Hin : id ∈ failed_ids service API_key n ids) by (rewrite Hfailed; left).
  apply elem_of_failed_ids in Hin as (i & Hi & Hfails).
  destruct (Hall i id Hi) as [record Hrecord].
  unfold fetched in Hrecord. rewrite Hfails in Hrecord. discriminate.
Qed.

(** The two detail fetchers agree: for identifiers that are distinct file
    names and whose requests all succeed, the records that
    [pkl_files_to_list_of_dicts] reads from the folder that
    [data_from_ids_to_files] has filled (it held no file before) are the
    records that [get_data_from_ids] returns, and no identifier is reported
    as failed. *)
Theorem folder_holds_the_fetched_records (ids : list string) (w : World) :
  let n := length (sent w) in
  NoDup ids ->
  (forall id, id ∈ ids -> no_slash id = true) ->
  (forall v, pickle_loads (pickle_dumps v) = Ok v) ->
  folder <> "" -> ends_with_slash folder = false ->
  (forall f, no_slash f = true -> disk w !! (folder +:+ "/" +:+ f) = None) ->
  (forall i id, ids !! i = Some id -> is_Some (fetched (service (n + i)%nat (url id)))) ->
  exists records w' read_back,
    get_data_from_ids service ids API_key w =
      (Ok records, mkWorld (disk w) (sent w ++ map url ids)) /\
    data_from_ids_to_files service pickle_dumps ids folder API_key w = (Ok [], w') /\
    pkl_files_to_list_of_dicts pickle_loads folder w' = (Ok read_back, w') /\
    forall v, v ∈ read_back <-> v ∈ records.
Proof.
  intros n Hnodup Hnames Hpickle Hne Hend Hempty Hall.
  destruct (get_data_loop_outcome service API_key ids [] w n eq_refl) as
    [(records & Hrun & Hlen & Hrecords) | (k & id & e & Hk & Hraise & _ & _)].
  2: { destruct (Hall k id Hk) as [record Hrecord].
       apply fetched_detail_record in Hrecord. congruence. }
  set (d' := stored service pickle_dumps folder API_key n ids (disk w)).
  set (w' := mkWorld d' (sent w ++ map url ids)).
  assert (Hloadable : forall f content, no_slash f = true ->
            disk w' !! (folder +:+ "/" +:+ f) = Some content ->
            exists v, pickle_loads content = Ok v).
  { intros f content Hf Hcontent. simpl in Hcontent.
    apply stored_origin in Hcontent as [Hold | (i & id & record & _ & _ & _ & ->)].
    - rewrite (Hempty f Hf) in Hold. discriminate.
    - eauto. }
  destruct (pkl_files_exact pickle_loads folder w' Hne Hend Hloadable) as (read_back & Hread & Hmem).
  exists records, w', read_back.
  split; [exact Hrun |]. split.
  { unfold data_from_ids_to_files.
    rewrite (data_to_files_loop_run service pickle_dumps folder API_key ids [] w n eq_refl).
    - rewrite (no_failed_ids ids n Hall). reflexivity.
    - intros i id Hi. unfold detail_formed.
      rewrite (bool_decide_eq_true_2 _ (Hall i id Hi)). apply orb_true_r. }
  split; [exact Hread |].
  intros v. rewrite Hmem. split.
  - intros (name & content & Hname & _ & Hcontent & Hv). simpl in Hcontent.
    apply stored_origin in Hcontent as [Hold | (i & id & record & Hi & Hfetch & _ & ->)].
    + rewrite (Hempty name Hname) in Hold. discriminate.
    + rewrite Hpickle in Hv. injection Hv as <-.
      destruct (Hrecords i id Hi) as (record' & Hrecord' & Hlookup).
      apply fetched_detail_record in Hfetch. rewrite Hfetch in Hrecord'.
      injection Hrecord' as <-. apply list_elem_of_lookup. eauto.
  - intros Hv. apply list_elem_of_lookup in Hv as [i Hi].
    assert (Hid : is_Some (ids !! i)).
    { apply lookup_lt_is_Some. rewrite <- Hlen. apply lookup_lt_Some in Hi. exact Hi. }
    destruct Hid as [id Hid].
    destruct (Hrecords i id Hid) as (record & Hrecord & Hlookup).
    rewrite Hi in Hlookup. injection Hlookup as <-.
    apply fetched_detail_record in Hrecord.
    exists (id +:+ ".pkl"), (pickle_dumps v).
    split; [rewrite no_slash_app, (Hnames id); [reflexivity | apply list_elem_of_lookup; eauto] |].
    split.
    { intros H. apply (f_equal String.length) in H. rewrite string_length_app in H.
      simpl in H. lia. }
    split; [| apply Hpickle].
    simpl. apply (stored_last service pickle_dumps folder API_key ids n (disk w) i id v Hid Hrecord).
    intros j id' Hlt Hj _ Hpath. apply pkl_path_inj in Hpath. subst id'.
    pose proof (NoDup_lookup ids i j id Hnodup Hid Hj). lia.
Qed.

End FetchTwoWays.

(** ** Sample runs of the further properties *)

Module ExtraRuns.
Import Samples MoreSamples.

Lemma gridMaker_point_at_index_witness :
  exists grid,
    Grid.gridMaker equator_km origin north east fifty_m fifty_m = Ok grid /\
    length grid = Z.to_nat ((2 + 1) * (2 + 1)) /\
    forall i j, 0 <= i <= 2 -> 0 <= j <= 2 ->
      exists point,
        lattice_point (mkPoint (fst origin) (snd origin)) (mkPoint (fst north) (snd north))
          (mkPoint (fst east) (snd east)) 2 2 i j = Some point /\
        grid !! Z.to_nat (i * (2 + 1) + j) = Some point.
Proof.
  apply (GridMore.gridMaker_point_at_index equator_km origin north east fifty_m fifty_m
           (mkPoint (fst origin) (snd origin)) (mkPoint (fst north) (snd north))
           (mkPoint (fst east) (snd east)) 2 2).
  - reflexivity.
  - reflexivity.
  - reflexivity.
  - vm_compute. reflexivity.
  - lia.
  - lia.
Defined.

Lemma gridMaker_first_point_is_centre_witness :
  exists lat lon rest,
    Grid.gridMaker equator_km far_east north_of_far_east east_of_far_east fifty_m fifty_m
      = Ok ((lat, lon) :: rest) /\
    PyFloat.feqb lat (fst far_east) = true /\
    PyFloat.feqb lon (PyFloat.of_Z (-179)) = true /\
    (SFltb (PyFloat.of_Z 180) (SFabs (snd far_east)) = false ->
     PyFloat.feqb lon (snd far_east) = true).
Proof.
  apply (GridMore.gridMaker_first_point_is_centre equator_km
           far_east north_of_far_east east_of_far_east fifty_m fifty_m
           (mkPoint (S754_zero false) (PyFloat.of_Z (-179)))
           (mkPoint thousandth (PyFloat.of_Z (-179)))
           (mkPoint (S754_zero false) minus_179_east) 2 2);
    try lia; vm_compute; reflexivity.
Defined.

Lemma gridMaker_negative_count_empty_witness :
  Grid.gridMaker equator_km origin north east minus_ten_m ten_m = Ok [].
Proof.
  apply (GridMore.gridMaker_negative_count_empty equator_km origin north east
           minus_ten_m ten_m
           (mkPoint (fst origin) (snd origin)) (mkPoint (fst north) (snd north))
           (mkPoint (fst east) (snd east)) (-11) 11).
  - reflexivity.
  - reflexivity.
  - reflexivity.
  - vm_compute. reflexivity.
  - left. lia.
Defined.

Lemma gridMaker_refused_corner_raises_witness :
  Grid.gridMaker equator_km origin (PyFloat.of_Z 91, S754_zero false) east
    (S754_zero false) minus_ten_m = Raise ValueError.
Proof.
  apply (GridMore.gridMaker_refused_corner_raises equator_km origin
           (PyFloat.of_Z 91, S754_zero false) east (S754_zero false) minus_ten_m).
  right. left. reflexivity.
Defined.

Lemma gridMaker_coincident_corners_raise_witness :
  Grid.gridMaker equator_km origin origin origin ten_m ten_m = Raise ZeroDivisionError.
Proof.
  apply (GridMore.gridMaker_coincident_corners_raise equator_km origin origin origin
           ten_m ten_m (mkPoint (fst origin) (snd origin)) (mkPoint (fst origin) (snd origin))
           (mkPoint (fst origin) (snd origin))); reflexivity.
Defined.

Lemma get_data_from_ids_all_succeed_witness :
  exists records,
    get_data_from_ids steady ["x"; "y"] "K" empty_world =
      (Ok records, mkWorld ∅ ([] ++ map (detail_url "K") ["x"; "y"])) /\
    length records = length ["x"; "y"] /\
    forall i id, ["x"; "y"] !! i = Some id ->
      records !! i = fetched (steady (0 + i)%nat (detail_url "K" id)).
Proof.
  apply (get_data_from_ids_all_succeed steady "K" ["x"; "y"] empty_world).
  intros [| [| i]] id Hid; simpl in Hid; try discriminate; injection Hid as <-;
    eexists; reflexivity.
Defined.

Lemma get_data_from_ids_stops_at_first_failure_witness :
  get_data_from_ids souring ["x"; "y"; "z"] "K" empty_world =
    (Raise (RequestError (status_message "REQUEST_DENIED")),
     mkWorld ∅ ([] ++ map (detail_url "K") (take 2 ["x"; "y"; "z"]))).
Proof.
  apply (get_data_from_ids_stops_at_first_failure souring "K" ["x"; "y"; "z"] empty_world
           1 "y" (RequestError (status_message "REQUEST_DENIED"))).
  - reflexivity.
  - intros [| i] id Hlt Hid; simpl in Hid; try lia. injection Hid as <-.
    eexists. reflexivity.
  - reflexivity.
Defined.

Lemma get_ids_from_grid_stops_at_first_failure_witness :
  get_ids_from_grid thinning [p0; p1; p2] "restaurant" "K" empty_world =
    (Raise (KeyError "results"),
     mkWorld ∅ ([] ++ map (nearby_url "restaurant" "K") (take 2 [p0; p1; p2]))).
Proof.
  apply (get_ids_from_grid_stops_at_first_failure thinning "restaurant" "K"
           [p0; p1; p2] empty_world 1 p1 (KeyError "results")).
  - reflexivity.
  - intros [| i] q Hlt Hq; simpl in Hq; try lia. injection Hq as <-.
    eexists. reflexivity.
  - reflexivity.
Defined.

Lemma two_files_well_formed (f : string) :
  f ∈ ["a.txt"; "b.txt"] -> well_formed_file two_files f.
Proof.
  intros Hf. apply list_elem_of_In in Hf. simpl in Hf.
  destruct Hf as [<- | [<- | []]]; eexists; (split; [reflexivity |]);
    (split; [reflexivity |]); intros line Hline; apply list_elem_of_In in Hline; vm_compute in Hline;
    repeat (destruct Hline as [<- | Hline]; [reflexivity |]); destruct Hline.
Defined.

Lemma get_unique_ids_from_files_collects_witness :
  exists l,
    get_unique_ids_from_files ["a.txt"; "b.txt"] two_files = (Ok l, two_files) /\ NoDup l /\
    forall id, id ∈ l <->
      exists f content line,
        f ∈ ["a.txt"; "b.txt"] /\ disk two_files !! f = Some content /\
        line ∈ readlines content /\ split line !! 1%nat = Some id.
Proof.
  apply (get_unique_ids_from_files_collects ["a.txt"; "b.txt"] two_files).
  exact two_files_well_formed.
Defined.

Lemma get_unique_ids_from_files_missing_file_witness :
  get_unique_ids_from_files (["a.txt"] ++ "c.txt" :: ["b.txt"]) two_files =
    (Raise (FileNotFoundError "c.txt"), two_files).
Proof.
  apply (get_unique_ids_from_files_missing_file ["a.txt"] ["b.txt"] "c.txt" two_files).
  - intros f Hf. apply list_elem_of_singleton in Hf as ->. apply two_files_well_formed. left.
  - reflexivity.
Defined.

Lemma written_ids_read_back_witness :
  exists w' l,
    snd (ids_to_file_from_grid flaky [p0; p1; p2] "restaurant" "ids.txt" "K" empty_world) = w' /\
    get_unique_ids_from_files ["ids.txt"] w' = (Ok l, w') /\ NoDup l /\
    forall id, id ∈ l <->
      exists place, place ∈ [mkPlace (Some "a"); mkPlace (Some "b")] /\
                    place_id place = Some id.
Proof.
  apply (written_ids_read_back flaky "restaurant" "ids.txt" "K" [p0; p1; p2] empty_world
           2 p2 (mkBody (Some "OK") (Some [mkPlace (Some "a"); mkPlace (Some "b")]) None)
           [mkPlace (Some "a"); mkPlace (Some "b")]).
  - reflexivity.
  - intros [| [| i]] q Hlt Hq; simpl in Hq; try lia; injection Hq as <-; reflexivity.
  - reflexivity.
  - reflexivity.
  - reflexivity.
  - repeat constructor.
  - repeat constructor.
Defined.

Lemma ids_to_file_from_grid_place_without_id_witness :
  ids_to_file_from_grid fraying [p0; p1; p2] "restaurant" "ids.txt" "K" empty_world =
    (Raise (KeyError "place_id"),
     mkWorld (<["ids.txt" := id_lines 1 (omap place_id [mkPlace (Some "a")])]> ∅)
             ([] ++ map (nearby_url "restaurant" "K") (take 2 [p0; p1; p2]))).
Proof.
  apply (ids_to_file_from_grid_place_without_id fraying "restaurant" "ids.txt" "K"
           [p0; p1; p2] empty_world 1 p1
           (mkBody (Some "OK") (Some [mkPlace (Some "a"); mkPlace None; mkPlace (Some "c")]) None)
           [mkPlace (Some "a")] [mkPlace (Some "c")] (mkPlace None)).
  - reflexivity.
  - intros [| i] q Hlt Hq; simpl in Hq; try lia. injection Hq as <-. reflexivity.
  - reflexivity.
  - reflexivity.
  - reflexivity.
  - reflexivity.
  - reflexivity.
Defined.

Lemma pkl_files_reads_folder_files_witness :
  exists records,
    pkl_files_to_list_of_dicts loads "places" shelf = (Ok records, shelf) /\
    forall v, v ∈ records <->
      exists name content,
        no_slash name = true /\ name <> "" /\
        disk shelf !! ("places" +:+ "/" +:+ name) = Some content /\ loads content = Ok v.
Proof.
  apply (pkl_files_reads_folder_files loads "places" shelf).
  - discriminate.
  - reflexivity.
  - intros f content _ _. exists content. reflexivity.
Defined.

Lemma pkl_files_corrupt_file_fails_witness :
  exists name' data' e',
    no_slash name' = true /\ disk spoiled !! ("places" +:+ "/" +:+ name') = Some data' /\
    strict_loads data' = Raise e' /\
    pkl_files_to_list_of_dicts strict_loads "places" spoiled = (Raise e', spoiled).
Proof.
  apply (pkl_files_corrupt_file_fails strict_loads "places" spoiled "notes" "junk"
           UnpicklingError).
  - discriminate.
  - reflexivity.
  - reflexivity.
  - discriminate.
  - reflexivity.
  - reflexivity.
Defined.

Lemma data_from_ids_to_files_missing_result_witness :
  data_from_ids_to_files thinning dumps (["x"] ++ "y" :: ["z"]) "places" "K" empty_world =
    (Raise (KeyError "result"),
     mkWorld (stored thinning dumps "places" "K" 0 ["x"] ∅)
             ([] ++ map (detail_url "K") (["x"] ++ ["y"]))).
Proof.
  apply (data_from_ids_to_files_missing_result thinning dumps "places" "K"
           ["x"] ["z"] "y" empty_world).
  - intros [| i] id Hid; simpl in Hid; try discriminate. injection Hid as <-. reflexivity.
  - reflexivity.
  - reflexivity.
Defined.

Lemma folder_holds_the_fetched_records_witness :
  exists records w' read_back,
    get_data_from_ids steady ["x"; "y"] "K" empty_world =
      (Ok records, mkWorld ∅ ([] ++ map (detail_url "K") ["x"; "y"])) /\
    data_from_ids_to_files steady dumps ["x"; "y"] "places" "K" empty_world = (Ok [], w') /\
    pkl_files_to_list_of_dicts loads "places" w' = (Ok read_back, w') /\
    forall v, v ∈ read_back <-> v ∈ records.
Proof.
  apply (folder_holds_the_fetched_records steady dumps loads "places" "K"
           ["x"; "y"] empty_world).
  - apply NoDup_ListNoDup. repeat constructor; simpl; intuition discriminate.
  - intros id Hid. apply list_elem_of_In in Hid. simpl in Hid.
    destruct Hid as [<- | [<- | []]]; reflexivity.
  - intros v. reflexivity.
  - discriminate.
  - reflexivity.
  - intros f _. reflexivity.
  - intros [| [| i]] id Hid; simpl in Hid; try discriminate; injection Hid as <-;
      eexists; reflexivity.
Defined.

End ExtraRuns.
